(** * Multi-user blogging application: authentication, ownership and error flow

    A shallow embedding of the Express back end (controllers, middleware,
    Mongoose models, token helper) and the properties of its
    authentication / authorisation core.

    Conventions of the embedding:
    - a Mongoose collection is a finite map from the document's [_id]
      (the 24 digit hexadecimal text of an ObjectId) to the document;
    - [req], [res] and the collections are mutable objects of the
      JavaScript program: they live in one [World] record that every
      handler threads through, in a state-and-exception monad [M];
    - a JavaScript [throw] (or a rejected promise) is the [inl] result of
      a computation, [try { } catch (error) { }] is [try_catch];
    - request body fields are text or absent ([option string]): [None] is
      JavaScript's [undefined];
    - the libraries under the program (jsonwebtoken, bcryptjs, the regular
      expression of the email path) are interfaces: type classes whose
      laws, where there are any, are those of the primitives;
    - the order in which the database sorts documents of equal sort key
      is not the program's: the sort is an interface too, with the laws
      of a sort; the numbers of a query string are computed where they
      are plain numerals, and left open elsewhere.

    The file has four parts: the embedding, the vocabulary of the
    properties, stand-ins for the primitives with sample worlds, and the
    lemmas and theorems. *)

From Stdlib Require Import ZArith NArith Ascii String List Bool Lia.
From stdpp Require Import base option gmap strings list sorting.

Local Open Scope string_scope.
Local Open Scope Z_scope.

(** * The embedding *)

(** ** JavaScript strings *)

Module Js.

Definition lower_ascii (c : ascii) : ascii :=
  let n := nat_of_ascii c in
  if ((65 <=? n) && (n <=? 90))%nat then ascii_of_nat (n + 32) else c.

(** [String.prototype.toLowerCase], on the ASCII range. *)
Fixpoint toLowerCase (s : string) : string :=
  match s with
  | EmptyString => EmptyString
  | String c r => String (lower_ascii c) (toLowerCase r)
  end.

(** [String.prototype.startsWith]. *)
Definition startsWith (s p : string) : bool := String.prefix p s.

(** [String.prototype.split] on a one character separator: the pieces
    between the separators, empty pieces included. *)
Fixpoint split (sep : ascii) (s : string) : list string :=
  match s with
  | EmptyString => [EmptyString]
  | String c r =>
      if Ascii.eqb c sep then EmptyString :: split sep r
      else match split sep r with
           | p :: ps => String c p :: ps
           | [] => [String c EmptyString]
           end
  end.

Definition is_space (c : ascii) : bool :=
  let n := nat_of_ascii c in
  ((n =? 32) || ((9 <=? n) && (n <=? 13)))%nat.

Fixpoint trimStart (s : string) : string :=
  match s with
  | String c r => if is_space c then trimStart r else s
  | EmptyString => EmptyString
  end.

Fixpoint trimEnd (s : string) : string :=
  match s with
  | EmptyString => EmptyString
  | String c r =>
      match trimEnd r with
      | EmptyString => if is_space c then EmptyString else String c EmptyString
      | r' => String c r'
      end
  end.

(** [String.prototype.trim] (ASCII white space). *)
Definition trim (s : string) : string := trimEnd (trimStart s).

(** Truthiness of a value that is a string or [undefined]: the empty
    string and [undefined] are falsy. *)
Definition truthy (v : option string) : bool :=
  match v with
  | Some s => negb (String.eqb s "")
  | None => false
  end.

(** [a || b] on such values. *)
Definition or_else (a : option string) (b : string) : string :=
  match a with
  | Some s => if String.eqb s "" then b else s
  | None => b
  end.

Definition all_chars (p : ascii -> bool) (s : string) : bool :=
  forallb p (list_ascii_of_string s).

Definition is_hex (c : ascii) : bool :=
  let n := nat_of_ascii c in
  (((48 <=? n) && (n <=? 57)) || ((65 <=? n) && (n <=? 70))
   || ((97 <=? n) && (n <=? 102)))%nat.

End Js.

(** ** ObjectId

    A document id is kept as its canonical text: 24 lower case hexadecimal
    digits.  [ObjectId.cast] is Mongoose's cast of a string to an ObjectId
    path: it fails (a [CastError] of kind [ObjectId]) unless the string is
    24 hexadecimal digits.  (Drivers older than bson 5 also take any string
    of 12 bytes; that reading of an id is not modelled.) *)

Module ObjectId.

Definition isValid (s : string) : bool :=
  (String.length s =? 24)%nat && Js.all_chars Js.is_hex s.

Definition cast (s : string) : option string :=
  if isValid s then Some (Js.toLowerCase s) else None.

Definition hex_digit (n : N) : ascii :=
  (if n <? 10 then ascii_of_N (48 + n) else ascii_of_N (87 + n))%N.

Fixpoint hex_digits (k : nat) (n : N) (acc : string) : string :=
  match k with
  | O => acc
  | S k' => hex_digits k' (n / 16)%N (String (hex_digit (n mod 16)%N) acc)
  end.

(** The text of the [n]-th generated id. *)
Definition of_counter (n : N) : string := hex_digits 24 n EmptyString.

#[global] Arguments of_counter : simpl never.

End ObjectId.

(** ** Errors

    A JavaScript [Error] object, with the fields the handlers read:
    [name], [kind] (Mongoose cast errors), [message] and [stack]. *)

Module Error.

Record t := mk { name : string; kind : option string; message : string; stack : string }.

(** [new Error(message)] evaluated inside the function [site]. *)
Definition new (site message : string) : t :=
  {| name := "Error"; kind := None; message := message;
     stack := "Error: " ++ message ++ " at " ++ site |}.

Definition CastError (model value : string) : t :=
  let m := "Cast to ObjectId failed for value " ++ value ++ " at path _id for model " ++ model in
  {| name := "CastError"; kind := Some "ObjectId"; message := m;
     stack := "CastError: " ++ m |}.

Definition ValidationError (model : string) (problems : list string) : t :=
  let m := model ++ " validation failed: " ++ String.concat ", " problems in
  {| name := "ValidationError"; kind := None; message := m;
     stack := "ValidationError: " ++ m |}.

Definition DuplicateKey (collection key : string) : t :=
  let m := "E11000 duplicate key error collection: " ++ collection ++ " dup key: " ++ key in
  {| name := "MongoServerError"; kind := None; message := m;
     stack := "MongoServerError: " ++ m |}.

#[global] Instance eq_dec : EqDecision t.
Proof. solve_decision. Defined.

End Error.

(** ** models/Blog.js: the schema *)

Module BlogSchema.

Record doc := mk {
  _id : string;
  title : string;
  category : string;
  authorName : string;
  content : string;
  image : string;
  userId : string;
  createdAt : Z;
  updatedAt : Z
}.

#[global] Instance eq_dec : EqDecision doc.
Proof. solve_decision. Defined.

Definition quote : ascii := ascii_of_nat 34.

(** The pattern of the [image] path: a scheme among ftp, http, https, then
    [://], then one or more characters none of which is a space or a
    double quote. *)
Definition image_match (s : string) : bool :=
  existsb
    (fun scheme =>
       String.prefix scheme s
       && let rest := String.substring (String.length scheme)
                        (String.length s - String.length scheme) s in
          negb (String.eqb rest "")
          && Js.all_chars (fun c => negb (Ascii.eqb c " ") && negb (Ascii.eqb c quote)) rest)
    ["ftp://"; "http://"; "https://"].

(** The schema's setters: [trim: true] on [title], [category], [image]. *)
Definition setters (b : doc) : doc :=
  {| _id := _id b; title := Js.trim (title b); category := Js.trim (category b);
     authorName := authorName b; content := content b; image := Js.trim (image b);
     userId := userId b; createdAt := createdAt b; updatedAt := updatedAt b |}.

Definition required (path message value : string) : list string :=
  if String.eqb value "" then [path ++ ": " ++ message] else [].

(** The validators, in the order of the schema; a [match] validator
    accepts the empty string. *)
Definition validate (b : doc) : list string :=
  required "title" "Please provide a title for your blog post" (title b)
  ++ required "category" "Please specify a category for your blog post" (category b)
  ++ required "authorName" "Path `authorName` is required." (authorName b)
  ++ required "content" "Please provide content for your blog post" (content b)
  ++ (if String.eqb (image b) "" || image_match (image b) then []
      else ["image: Please enter a valid image URL"])
  ++ required "userId" "Path `userId` is required." (userId b).

End BlogSchema.

(** ** models/User.js: the schema *)

Module UserSchema.

(** [password] is [None] in a document read without the password path
    ([select: false], or [.select("-password")]). *)
Record doc := mk {
  _id : string;
  name : string;
  email : string;
  password : option string;
  createdAt : Z;
  updatedAt : Z
}.

#[global] Instance eq_dec : EqDecision doc.
Proof. solve_decision. Defined.

(** The projection [.select("-password")], also the default read path. *)
Definition without_password (u : doc) : doc :=
  {| _id := _id u; name := name u; email := email u; password := None;
     createdAt := createdAt u; updatedAt := updatedAt u |}.

(** The schema's setters: [trim] on [name], [lowercase] on [email]. *)
Definition setters (u : doc) : doc :=
  {| _id := _id u; name := Js.trim (name u); email := Js.toLowerCase (email u);
     password := password u; createdAt := createdAt u; updatedAt := updatedAt u |}.

End UserSchema.

(** ** The process, the request and the response *)

Record ProcessEnv := {
  JWT_SECRET : option string;
  NODE_ENV : option string
}.

(** The parts of an Express request the handlers read: the
    [authorization] header, the [:id] route parameter, the parsed JSON body
    (field name to text) and [req.user], set by the [protect] middleware. *)
Record Request := {
  authorization : option string;
  params_id : string;
  body : gmap string string;
  user : option UserSchema.doc
}.

(** What [res.json] serialises. *)
Inductive Json :=
| JBlog (blog : BlogSchema.doc)
| JMessage (message : string)
| JError (message : string) (stack : option string)
| JAuth (_id name email token : string).

#[global] Instance Json_eq_dec : EqDecision Json.
Proof. solve_decision. Defined.

Record Response := {
  statusCode : nat;
  sent : option Json
}.

(** Whether and how the handler called [next]: [Some None] is [next()],
    [Some (Some e)] is [next(e)]. *)
Definition NextCall := option (option Error.t).

Record World := {
  blogs : gmap string BlogSchema.doc;     (* the blogs collection *)
  users : gmap string UserSchema.doc;     (* the users collection *)
  now : Z;                                (* Date.now(), milliseconds *)
  nextId : N;                             (* ObjectId generator *)
  entropy : N;                            (* random source of bcrypt.genSalt *)
  env : ProcessEnv;                       (* process.env *)
  req : Request;
  res : Response;
  nextCalled : NextCall;
  console : list string                   (* console.error output *)
}.

Definition with_blogs (m : gmap string BlogSchema.doc) (w : World) : World :=
  {| blogs := m; users := users w; now := now w; nextId := nextId w;
     entropy := entropy w; env := env w; req := req w; res := res w;
     nextCalled := nextCalled w; console := console w |}.

Definition with_users (m : gmap string UserSchema.doc) (w : World) : World :=
  {| blogs := blogs w; users := m; now := now w; nextId := nextId w;
     entropy := entropy w; env := env w; req := req w; res := res w;
     nextCalled := nextCalled w; console := console w |}.

Definition with_nextId (n : N) (w : World) : World :=
  {| blogs := blogs w; users := users w; now := now w; nextId := n;
     entropy := entropy w; env := env w; req := req w; res := res w;
     nextCalled := nextCalled w; console := console w |}.

Definition with_entropy (n : N) (w : World) : World :=
  {| blogs := blogs w; users := users w; now := now w; nextId := nextId w;
     entropy := n; env := env w; req := req w; res := res w;
     nextCalled := nextCalled w; console := console w |}.

Definition with_req (r : Request) (w : World) : World :=
  {| blogs := blogs w; users := users w; now := now w; nextId := nextId w;
     entropy := entropy w; env := env w; req := r; res := res w;
     nextCalled := nextCalled w; console := console w |}.

Definition with_res (r : Response) (w : World) : World :=
  {| blogs := blogs w; users := users w; now := now w; nextId := nextId w;
     entropy := entropy w; env := env w; req := req w; res := r;
     nextCalled := nextCalled w; console := console w |}.

Definition with_next (n : NextCall) (w : World) : World :=
  {| blogs := blogs w; users := users w; now := now w; nextId := nextId w;
     entropy := entropy w; env := env w; req := req w; res := res w;
     nextCalled := n; console := console w |}.

Definition with_console (l : list string) (w : World) : World :=
  {| blogs := blogs w; users := users w; now := now w; nextId := nextId w;
     entropy := entropy w; env := env w; req := req w; res := res w;
     nextCalled := nextCalled w; console := l |}.

Definition with_user (u : option UserSchema.doc) (r : Request) : Request :=
  {| authorization := authorization r; params_id := params_id r;
     body := body r; user := u |}.

(** ** The handler monad: state [World], exceptions [Error.t] *)

Definition M (A : Type) : Type := World -> (Error.t + A) * World.

Definition ret {A} (a : A) : M A := fun w => (inr a, w).

Definition bind {A B} (c : M A) (k : A -> M B) : M B :=
  fun w => match c w with
           | (inr a, w') => k a w'
           | (inl e, w') => (inl e, w')
           end.

Definition throw {A} (e : Error.t) : M A := fun w => (inl e, w).

Definition try_catch {A} (c : M A) (handler : Error.t -> M A) : M A :=
  fun w => match c w with
           | (inl e, w') => handler e w'
           | r => r
           end.

Definition get : M World := fun w => (inr w, w).

Definition modify (f : World -> World) : M unit := fun w => (inr tt, f w).

Declare Scope handler_scope.
Delimit Scope handler_scope with handler.
Notation "x <- c ;; k" := (bind c (fun x => k))
  (at level 100, c at next level, right associativity) : handler_scope.
Notation "c ;; k" := (bind c (fun _ => k))
  (at level 100, right associativity) : handler_scope.
Local Open Scope handler_scope.

(** [res.status(code)] *)
Definition res_status (code : nat) : M unit :=
  modify (fun w => with_res {| statusCode := code; sent := sent (res w) |} w).

(** [res.json(value)] *)
Definition res_json (value : Json) : M unit :=
  modify (fun w => with_res {| statusCode := statusCode (res w); sent := Some value |} w).

(** [next()] and [next(error)] *)
Definition next (e : option Error.t) : M unit :=
  modify (with_next (Some e)).

Definition console_error (line : string) : M unit :=
  modify (fun w => with_console (console w ++ [line]) w).

(** ** middleware/errorMiddleware.js *)

Definition errorHandler (err : Error.t) : M unit :=
  w <- get ;;
  let statusCode := if (statusCode (res w) =? 200)%nat then 500%nat else statusCode (res w) in
  res_status statusCode ;;
  res_json (JError (Error.message err)
              (if bool_decide (NODE_ENV (env w) = Some "production") then None
               else Some (Error.stack err))).

Definition notFound (originalUrl : string) : M unit :=
  let error := Error.new "notFound" ("Not Found - " ++ originalUrl) in
  res_status 404 ;;
  next (Some error).

(** ** The Blog model: Mongoose operations on the blogs collection *)

Module Blog.

Import BlogSchema.

(** [Blog.findById(id)]: the id is cast to an ObjectId first. *)
Definition findById (id : string) : M (option doc) :=
  match ObjectId.cast id with
  | None => throw (Error.CastError "Blog" id)
  | Some oid => w <- get ;; ret (blogs w !! oid)
  end.

(** [new Blog({...})]: a fresh [_id], the schema's setters and the
    default of [image]. *)
Definition new (title category content : string) (image : option string)
    (userId authorName : string) : M doc :=
  w <- get ;;
  modify (with_nextId (N.succ (nextId w))) ;;
  ret (setters {| _id := ObjectId.of_counter (nextId w); title := title;
                  category := category; authorName := authorName;
                  content := content;
                  image := match image with Some i => i | None => "" end;
                  userId := userId; createdAt := 0; updatedAt := 0 |}).

(** [doc.save()] on a new document: validation, timestamps, insertion. *)
Definition insert (b : doc) : M doc :=
  match validate b with
  | (_ :: _) as problems => throw (Error.ValidationError "Blog" problems)
  | [] =>
      w <- get ;;
      match blogs w !! _id b with
      | Some _ => throw (Error.DuplicateKey "blogs" (_id b))
      | None =>
          let saved := {| _id := _id b; title := title b; category := category b;
                          authorName := authorName b; content := content b;
                          image := image b; userId := userId b;
                          createdAt := now w; updatedAt := now w |} in
          modify (with_blogs (<[_id b := saved]> (blogs w))) ;;
          ret saved
      end
  end.

(** [doc.save()] on a document loaded from the collection and assigned
    to. Every path of the document is validated, on every save, whether
    or not it was assigned to; a document that passes and has no modified
    path is answered with nothing written; otherwise [updatedAt] is set
    and the stored document is replaced. *)
Definition save (b : doc) : M doc :=
  let b := setters b in
  match validate b with
  | (_ :: _) as problems => throw (Error.ValidationError "Blog" problems)
  | [] =>
      w <- get ;;
      match blogs w !! _id b with
      | None => throw {| Error.name := "DocumentNotFoundError"; Error.kind := None;
                         Error.message := "No document found for query";
                         Error.stack := "DocumentNotFoundError" |}
      | Some stored =>
          if bool_decide (b = stored) then ret b
          else
            let saved := {| _id := _id b; title := title b; category := category b;
                            authorName := authorName b; content := content b;
                            image := image b; userId := userId b;
                            createdAt := createdAt b; updatedAt := now w |} in
            modify (with_blogs (<[_id b := saved]> (blogs w))) ;;
            ret saved
      end
  end.

(** [Blog.findByIdAndDelete(id)] *)
Definition findByIdAndDelete (id : string) : M (option doc) :=
  match ObjectId.cast id with
  | None => throw (Error.CastError "Blog" id)
  | Some oid =>
      w <- get ;;
      modify (with_blogs (delete oid (blogs w))) ;;
      ret (blogs w !! oid)
  end.

End Blog.

(** ** controllers/blogController.js *)

Definition createBlog : M unit :=
  w <- get ;;
  let title := body (req w) !! "title" in
  let category := body (req w) !! "category" in
  let content := body (req w) !! "content" in
  let image := body (req w) !! "image" in
  try_catch
    (match Js.truthy title, Js.truthy category, Js.truthy content with
     | true, true, true =>
         match user (req w) with
         | Some u =>
             if String.eqb (UserSchema._id u) "" then
               res_status 401 ;;
               throw (Error.new "createBlog" "User not authenticated or user data incomplete.")
             else
               blog <- Blog.new (Js.or_else title "") (Js.or_else category "")
                         (Js.or_else content "")
                         (if Js.truthy image then image else None)
                         (UserSchema._id u) (UserSchema.name u) ;;
               createdBlog <- Blog.insert blog ;;
               res_status 201 ;;
               res_json (JBlog createdBlog)
         | None =>
             res_status 401 ;;
             throw (Error.new "createBlog" "User not authenticated or user data incomplete.")
         end
     | _, _, _ =>
         res_status 400 ;;
         throw (Error.new "createBlog" "Title, category, and content are required fields.")
     end)
    (fun error =>
       (if String.eqb (Error.name error) "ValidationError" then res_status 400 else ret tt) ;;
       next (Some error)).

Definition is_cast_error (error : Error.t) : bool :=
  String.eqb (Error.name error) "CastError"
  && bool_decide (Error.kind error = Some "ObjectId").

Definition updateBlog : M unit :=
  w <- get ;;
  let title := body (req w) !! "title" in
  let category := body (req w) !! "category" in
  let content := body (req w) !! "content" in
  let image := body (req w) !! "image" in
  try_catch
    (found <- Blog.findById (params_id (req w)) ;;
     match found with
     | None =>
         res_status 404 ;;
         throw (Error.new "updateBlog" "Blog post not found")
     | Some blog =>
         if match user (req w) with
            | None => true
            | Some u => negb (String.eqb (BlogSchema.userId blog) (UserSchema._id u))
            end
         then
           res_status 403 ;;
           throw (Error.new "updateBlog" "User not authorized to update this blog post")
         else
           let blog :=
             {| BlogSchema._id := BlogSchema._id blog;
                BlogSchema.title := Js.or_else title (BlogSchema.title blog);
                BlogSchema.category := Js.or_else category (BlogSchema.category blog);
                BlogSchema.authorName := BlogSchema.authorName blog;
                BlogSchema.content := Js.or_else content (BlogSchema.content blog);
                BlogSchema.image := match image with
                                    | Some i => i
                                    | None => BlogSchema.image blog
                                    end;
                BlogSchema.userId := BlogSchema.userId blog;
                BlogSchema.createdAt := BlogSchema.createdAt blog;
                BlogSchema.updatedAt := BlogSchema.updatedAt blog |} in
           updatedBlog <- Blog.save blog ;;
           res_json (JBlog updatedBlog)
     end)
    (fun error =>
       if String.eqb (Error.name error) "ValidationError" then
         res_status 400 ;;
         next (Some error)
       else if is_cast_error error then
         res_status 400 ;;
         next (Some (Error.new "updateBlog" "Invalid blog post ID format"))
       else next (Some error)).

Definition deleteBlog : M unit :=
  w <- get ;;
  try_catch
    (found <- Blog.findById (params_id (req w)) ;;
     match found with
     | None =>
         res_status 404 ;;
         throw (Error.new "deleteBlog" "Blog post not found")
     | Some blog =>
         if match user (req w) with
            | None => true
            | Some u => negb (String.eqb (BlogSchema.userId blog) (UserSchema._id u))
            end
         then
           res_status 403 ;;
           throw (Error.new "deleteBlog" "User not authorized to delete this blog post")
         else
           Blog.findByIdAndDelete (params_id (req w)) ;;
           res_json (JMessage "Blog post removed successfully")
     end)
    (fun error =>
       if is_cast_error error then
         res_status 400 ;;
         next (Some (Error.new "deleteBlog" "Invalid blog post ID format"))
       else next (Some error)).

(** [getBlogById]: a public route, [router.get("/:id", getBlogById)]. *)
Definition getBlogById : M unit :=
  w <- get ;;
  try_catch
    (found <- Blog.findById (params_id (req w)) ;;
     match found with
     | Some blog => res_json (JBlog blog)
     | None =>
         res_status 404 ;;
         throw (Error.new "getBlogById" "Blog post not found")
     end)
    (fun error =>
       if is_cast_error error then
         res_status 400 ;;
         next (Some (Error.new "getBlogById" "Invalid blog post ID format"))
       else next (Some error)).

(** ** Numbers read from the query string

    A JavaScript number is computed where it is a natural number of at
    most 2^31 - 1, the range in which JavaScript's numbers and the
    driver's integers coincide, or [NaN]; any other number (negative,
    fractional, infinite, larger) is [Unembedded]: its value is not
    computed. *)

Module JsNumber.

Inductive t := NaN | Int (n : N) | Unembedded.

Definition MAX_INT32 : N := 2147483647.

Definition digit (c : ascii) : option N :=
  let n := N_of_ascii c in
  if ((48 <=? n) && (n <=? 57))%N then Some (n - 48)%N else None.

(** The value of a string of decimal digits; of the empty string, 0. *)
Fixpoint numeral (acc : N) (s : string) : option N :=
  match s with
  | EmptyString => Some acc
  | String c r =>
      match digit c with
      | Some d => numeral (10 * acc + d)%N r
      | None => None
      end
  end.

(** [x || d]: [NaN] and [0] are falsy. *)
Definition or_default (x : t) (d : N) : t :=
  match x with
  | NaN => Int d
  | Int n => Int (if (n =? 0)%N then d else n)
  | Unembedded => Unembedded
  end.

(** [pageSize * (page - 1)] *)
Definition skipped (pageSize page : t) : t :=
  match pageSize, page with
  | Int ps, Int pg =>
      if (pg =? 0)%N then Unembedded
      else if (ps * (pg - 1) <=? MAX_INT32)%N then Int (ps * (pg - 1)) else Unembedded
  | NaN, _ | _, NaN => NaN
  | _, _ => Unembedded
  end.

(** [Math.ceil(count / pageSize)] for a natural number [count]. *)
Definition ceil_quotient (count : N) (pageSize : t) : t :=
  match pageSize with
  | Int ps => if (ps =? 0)%N then Unembedded else Int ((count + ps - 1) / ps)
  | NaN => NaN
  | Unembedded => Unembedded
  end.

End JsNumber.

(** [Number(v)] for a value that is a string or [undefined]: computed
    for plain decimal numerals; signs, fractions, exponents, radix
    prefixes and white space are left [Unembedded]. *)
Definition Number (v : option string) : JsNumber.t :=
  match v with
  | None => JsNumber.NaN
  | Some s =>
      match JsNumber.numeral 0 s with
      | Some n => if (n <=? JsNumber.MAX_INT32)%N then JsNumber.Int n else JsNumber.Unembedded
      | None => JsNumber.Unembedded
      end
  end.

(** ** Queries on the blogs collection *)

(** The body of the answer of [getBlogs]. *)
Module BlogPage.

Record t := mk {
  blogs : list BlogSchema.doc;
  page : JsNumber.t;
  pages : JsNumber.t;
  count : N
}.

End BlogPage.

(** The order of [.sort({ createdAt: -1 })]: most recent first.  How the
    database orders documents of equal [createdAt] is not fixed by the
    program, so the sort is an interface: any function that permutes its
    input into that order. *)
Definition more_recent (a b : BlogSchema.doc) : Prop :=
  BlogSchema.createdAt b <= BlogSchema.createdAt a.

Class Engine := {
  sort_createdAt_desc : list BlogSchema.doc -> list BlogSchema.doc;
  sort_permutation : forall l, sort_createdAt_desc l ≡ₚ l;
  sort_sorted : forall l, Sorted more_recent (sort_createdAt_desc l)
}.

Module BlogQuery.

(** The filter object [getBlogs] builds: at most the two paths
    [category] and [authorName]. *)
Record conditions := { category : option string; authorName : option string }.

(** A document satisfies the filter; the value given for [category]
    goes through the schema's [trim] setter, as every value cast for that
    path does. *)
Definition matches (q : conditions) (b : BlogSchema.doc) : bool :=
  match category q with
  | Some c => String.eqb (BlogSchema.category b) (Js.trim c)
  | None => true
  end
  && match authorName q with
     | Some a => String.eqb (BlogSchema.authorName b) a
     | None => true
     end.

Definition selected (q : conditions) (m : gmap string BlogSchema.doc) : list BlogSchema.doc :=
  (map_to_list (filter (fun kv => matches q kv.2 = true) m)).*2.

(** [Blog.countDocuments(query)] *)
Definition countDocuments (q : conditions) : M N :=
  w <- get ;; ret (N.of_nat (length (selected q (blogs w)))).

End BlogQuery.

(** ** controllers/blogController.js: the listing *)

Section listing.
Context `{Engine}.

(** What the database answers, or throws, when the limit or the number
    to skip is not a computed natural number: a function of the query
    and of the collection, which it can only read. *)
Variable elsewhere :
  gmap string string -> gmap string BlogSchema.doc -> Error.t + list BlogSchema.doc.

(** [Blog.find(q).sort({ createdAt: -1 }).limit(limit).skip(skip)]: the
    sorted matches without the first [skip], cut after [limit]; a limit
    of 0 is no limit. *)
Definition find_sort_limit_skip (query : gmap string string) (q : BlogQuery.conditions)
    (limit skip : JsNumber.t) : M (list BlogSchema.doc) :=
  w <- get ;;
  match limit, skip with
  | JsNumber.Int n, JsNumber.Int k =>
      let rest := drop (N.to_nat k) (sort_createdAt_desc (BlogQuery.selected q (blogs w))) in
      ret (if (n =? 0)%N then rest else take (N.to_nat n) rest)
  | _, _ =>
      match elsewhere query (blogs w) with
      | inl e => throw e
      | inr found => ret found
      end
  end.

(** [getBlogs]: [query] is [req.query], field name to text; the result
    [Some body] is [res.json(body)], [None] is the path through
    [next(error)]. *)
Definition getBlogs (query : gmap string string) : M (option BlogPage.t) :=
  try_catch
    (let pageSize := JsNumber.or_default (Number (query !! "limit")) 10 in
     let page := JsNumber.or_default (Number (query !! "page")) 1 in
     let q := {| BlogQuery.category :=
                   if Js.truthy (query !! "category") then query !! "category" else None;
                 BlogQuery.authorName :=
                   if Js.truthy (query !! "authorName") then query !! "authorName"
                   else None |} in
     count <- BlogQuery.countDocuments q ;;
     blogs <- find_sort_limit_skip query q pageSize (JsNumber.skipped pageSize page) ;;
     ret (Some {| BlogPage.blogs := blogs; BlogPage.page := page;
                  BlogPage.pages := JsNumber.ceil_quotient count pageSize;
                  BlogPage.count := count |}))
    (fun error => next (Some error) ;; ret None).

End listing.

(** ** The token codec (jsonwebtoken) *)

Module jwt.

Record Payload := { id : string; iat : Z; exp : Z }.

(** The three ways verification fails. *)
Inductive VerifyError := Malformed | InvalidSignature | Expired.

#[global] Instance VerifyError_eq_dec : EqDecision VerifyError.
Proof. solve_decision. Defined.

Definition is_base64url (c : ascii) : bool :=
  let n := nat_of_ascii c in
  (((48 <=? n) && (n <=? 57)) || ((65 <=? n) && (n <=? 90))
   || ((97 <=? n) && (n <=? 122)) || (n =? 45) || (n =? 95))%nat.

(** One segment of a compact token: non-empty base64url text. *)
Definition is_segment (s : string) : bool :=
  negb (String.eqb s "") && Js.all_chars is_base64url s.

(** The primitives under the codec: the base64url text of a JSON payload
    and back, and the keyed signature (HMAC-SHA256, base64url text). *)
Class Codec := {
  encodePayload : Payload -> string;
  decodePayload : string -> option Payload;
  hmacSHA256 : string -> string -> string;
  encode_segment : forall p, is_segment (encodePayload p) = true;
  hmac_segment : forall key input, is_segment (hmacSHA256 key input) = true;
  decode_encode : forall p, decodePayload (encodePayload p) = Some p
}.

(** The first segment: base64url of the header naming HS256. *)
Definition header : string := "eyJhbGciOiJIUzI1NiIsInR5cCI6IkpXVCJ9".

Section codec.
Context `{Codec}.

(** Modelled from the spec: the jsonwebtoken package ([jwt.sign],
    [jwt.verify]) is not among the sources.  Token Codec, [issue]:
    a signed token with issuance = now and expiry = now + lifetime;
    the token is the three segments header, payload, signature. *)
Definition compact (secret : string) (p : Payload) : string :=
  let input := header ++ "." ++ encodePayload p in
  input ++ "." ++ hmacSHA256 secret input.

(** Modelled from the spec: Token Codec, [verify]: [Malformed] if the
    token cannot be parsed, [InvalidSignature] if the signature does not
    match, [Expired] if the expiry has passed, otherwise the embedded
    payload.  [clock] is the time of verification in seconds. *)
Definition check (token secret : string) (clock : Z) : VerifyError + Payload :=
  match Js.split "." token with
  | [h; p; signature] =>
      match (if String.eqb h header then decodePayload p else None) with
      | None => inl Malformed
      | Some payload =>
          if String.eqb signature (hmacSHA256 secret (h ++ "." ++ p)) then
            if exp payload <=? clock then inl Expired else inr payload
          else inl InvalidSignature
      end
  | _ => inl Malformed
  end.

Definition JsonWebTokenError (message : string) : Error.t :=
  {| Error.name := "JsonWebTokenError"; Error.kind := None;
     Error.message := message; Error.stack := "JsonWebTokenError: " ++ message |}.

Definition TokenExpiredError : Error.t :=
  {| Error.name := "TokenExpiredError"; Error.kind := None;
     Error.message := "jwt expired"; Error.stack := "TokenExpiredError: jwt expired" |}.

Definition error_of (e : VerifyError) : Error.t :=
  match e with
  | Malformed => JsonWebTokenError "jwt malformed"
  | InvalidSignature => JsonWebTokenError "invalid signature"
  | Expired => TokenExpiredError
  end.

(** Modelled from the spec: [jwt.sign(payload, secret, {expiresIn})] as
    the program calls it: it throws without a secret, and stamps the
    payload with the current time in seconds. *)
Definition sign (id : string) (secret : option string) (expiresIn : Z) : M string :=
  if Js.truthy secret then
    w <- get ;;
    let iat := now w / 1000 in
    ret (compact (default "" secret) {| id := id; iat := iat; exp := iat + expiresIn |})
  else throw (Error.new "jwt.sign" "secretOrPrivateKey must have a value").

(** Modelled from the spec: [jwt.verify(token, secret)] as the program
    calls it: a missing token or secret throws, every failure of [check]
    is thrown as an error. *)
Definition verify (token secret : option string) : M Payload :=
  if Js.truthy token then
    w <- get ;;
    match check (default "" token) (default "" secret) (now w / 1000) with
    | inl Malformed => throw (error_of Malformed)
    | r =>
        if Js.truthy secret then
          match r with
          | inr payload => ret payload
          | inl e => throw (error_of e)
          end
        else throw (JsonWebTokenError "secret or public key must be provided")
    end
  else throw (JsonWebTokenError "jwt must be provided").

End codec.

(** ["30d"] in seconds. *)
Definition days (n : Z) : Z := n * 24 * 60 * 60.

End jwt.

(** ** utils/generateToken.js *)

Definition generateToken `{jwt.Codec} (userId : string) : M string :=
  w <- get ;;
  jwt.sign userId (JWT_SECRET (env w)) (jwt.days 30).

(** ** Password hashing (bcryptjs)

    The library is taken as given: [genSalt rounds] draws a salt from the
    random source, [hash] and [compare] are its functions. *)

Module bcrypt.

Class Api := {
  salt_of : nat -> N -> string;
  hash_with : string -> string -> string;
  compare_with : string -> string -> bool
}.

Definition genSalt `{Api} (rounds : nat) : M string :=
  w <- get ;;
  modify (with_entropy (N.succ (entropy w))) ;;
  ret (salt_of rounds (entropy w)).

Definition hash `{Api} (plaintext salt : string) : M string :=
  ret (hash_with plaintext salt).

(** [bcrypt.compare(candidate, hashed)] rejects unless both arguments are
    strings; [hashed] is [None] for [undefined]. *)
Definition compare `{Api} (candidate : string) (hashed : option string) : M bool :=
  match hashed with
  | Some hashed => ret (compare_with candidate hashed)
  | None => throw (Error.new "compare" "Illegal arguments: string, undefined")
  end.

End bcrypt.

(** The pattern of the [email] path of models/User.js, as a matcher. *)
Class EmailPattern := { email_match : string -> bool }.

(** ** The User model *)

Module User.

Import UserSchema.

Definition validate `{EmailPattern} (u : doc) : list string :=
  BlogSchema.required "name" "Please provide your name" (name u)
  ++ (if String.eqb (email u) "" then ["email: Please provide your email"]
      else if email_match (email u) then []
      else ["email: Please provide a valid email address"])
  ++ match password u with
     | None => ["password: Please provide a password"]
     | Some p =>
         if String.eqb p "" then ["password: Please provide a password"]
         else if (String.length p <? 6)%nat
              then ["password: Password must be at least 6 characters long"]
              else []
     end.

(** [userSchema.pre("save")]: the password is hashed when it was modified. *)
Definition pre_save `{bcrypt.Api} (password_modified : bool) (u : doc) : M doc :=
  if negb password_modified then ret u
  else
    salt <- bcrypt.genSalt 10 ;;
    hashed <- bcrypt.hash (default "" (password u)) salt ;;
    ret {| _id := _id u; name := name u; email := email u; password := Some hashed;
           createdAt := createdAt u; updatedAt := updatedAt u |}.

(** [userSchema.methods.comparePassword]: on a document read without its
    password, [this.password] is [undefined] and [bcrypt.compare] rejects. *)
Definition comparePassword `{bcrypt.Api} (this : doc) (candidatePassword : string) : M bool :=
  bcrypt.compare candidatePassword (password this).

(** [User.findById(id)]: the [password] path is [select: false], so the
    document comes without it. *)
Definition findById (id : string) : M (option doc) :=
  match ObjectId.cast id with
  | None => throw (Error.CastError "User" id)
  | Some oid => w <- get ;; ret (without_password <$> users w !! oid)
  end.

(** [.select("-password")] on the result of a query. *)
Definition select_minus_password (q : M (option doc)) : M (option doc) :=
  found <- q ;; ret (without_password <$> found).

(** The documents whose stored [email] is [e]. *)
Definition with_email (e : string) (m : gmap string doc) : gmap string doc :=
  filter (fun kv => email kv.2 = e) m.

(** The account a query by email matches: the filter goes through the
    schema's [lowercase] setter; the first match in key order. *)
Definition first_with_email (e : string) (m : gmap string doc) : option doc :=
  snd <$> head (map_to_list (with_email (Js.toLowerCase e) m)).

(** [User.findOne({ email })]: the [password] path is [select: false], so
    the document comes without it. *)
Definition findOne_email (e : string) : M (option doc) :=
  w <- get ;;
  ret (without_password <$> first_with_email e (users w)).

(** [User.findOne({ email }).select("+password")]: the document as stored,
    its password hash included. *)
Definition findOne_email_select_password (e : string) : M (option doc) :=
  w <- get ;;
  ret (first_with_email e (users w)).

#[global] Arguments findOne_email : simpl never.
#[global] Arguments findOne_email_select_password : simpl never.

(** [new User({ name, email, password }).save()]: setters, validation,
    the pre-save hook, then insertion under the unique index on [email]. *)
Definition create `{EmailPattern} `{bcrypt.Api} (name email password : string) : M doc :=
  w <- get ;;
  modify (with_nextId (N.succ (nextId w))) ;;
  let u := setters {| _id := ObjectId.of_counter (nextId w); name := name;
                      email := email; password := Some password;
                      createdAt := now w; updatedAt := now w |} in
  match validate u with
  | (_ :: _) as problems => throw (Error.ValidationError "User" problems)
  | [] =>
      u <- pre_save true u ;;
      w <- get ;;
      if bool_decide (with_email (UserSchema.email u) (users w) = ∅) then
        match users w !! _id u with
        | Some _ => throw (Error.DuplicateKey "users" (_id u))
        | None => modify (with_users (<[_id u := u]> (users w))) ;; ret u
        end
      else throw (Error.DuplicateKey "users" (UserSchema.email u))
  end.

End User.

(** ** middleware/authMiddleware.js *)

Definition protect `{jwt.Codec} : M unit :=
  w <- get ;;
  let header := authorization (req w) in
  if Js.truthy header && Js.startsWith (default "" header) "Bearer" then
    token <-
      try_catch
        (let token := Js.split " " (default "" header) !! 1%nat in
         decoded <- jwt.verify token (JWT_SECRET (env w)) ;;
         found <- User.select_minus_password (User.findById (jwt.id decoded)) ;;
         modify (fun w => with_req (with_user found (req w)) w) ;;
         match found with
         | None =>
             res_status 401 ;;
             throw (Error.new "protect" "Not authorized, user not found")
         | Some _ => next None ;; ret token
         end)
        (fun error =>
           console_error ("Authentication error: " ++ Error.message error) ;;
           res_status 401 ;;
           throw (Error.new "protect" "Not authorized, token failed or expired")) ;;
    if negb (Js.truthy token) then
      res_status 401 ;;
      throw (Error.new "protect" "Not authorized, no token provided")
    else ret tt
  else
    res_status 401 ;;
    throw (Error.new "protect" "Not authorized, no token provided").

(** ** controllers/authController.js *)

Section authController.
Context `{jwt.Codec} `{bcrypt.Api} `{EmailPattern}.

Definition DuplicateEmail : Error.t :=
  Error.new "signupUser" "Email already exists".

Definition InvalidCredentials : Error.t :=
  Error.new "loginUser" "Invalid email or password".

Definition auth_json (u : UserSchema.doc) (token : string) : Json :=
  JAuth (UserSchema._id u) (UserSchema.name u) (UserSchema.email u) token.

(** Modelled from the spec: controllers/authController.js is not among
    the sources (routes/authRoutes.js only imports it).  The account the
    fields of a registration would make, as the setters of the User
    schema leave it, before it has an id; an absent password stays
    absent. *)
Definition submitted (name email password : option string) : UserSchema.doc :=
  UserSchema.setters
    {| UserSchema._id := ""; UserSchema.name := default "" name;
       UserSchema.email := default "" email; UserSchema.password := password;
       UserSchema.createdAt := 0; UserSchema.updatedAt := 0 |}.

(** Modelled from the spec: controllers/authController.js is not among
    the sources.  Account Service, [register]: first the three fields are
    validated, and a missing or invalid one (at least: an empty name, a
    malformed email, a password shorter than 6 characters) fails with a
    validation error (400) that lists the fields; then the email is
    looked up, and fails with [DuplicateEmail] (400) if it already exists;
    otherwise the password is hashed, the account persisted, a token
    issued, and the answer is 201 with the account summary and the
    token. *)
Definition signupUser : M unit :=
  w <- get ;;
  let name := body (req w) !! "name" in
  let email := body (req w) !! "email" in
  let password := body (req w) !! "password" in
  try_catch
    (match User.validate (submitted name email password) with
     | (_ :: _) as problems =>
         res_status 400 ;;
         throw (Error.ValidationError "User" problems)
     | [] =>
         existing <- User.findOne_email (default "" email) ;;
         match existing with
         | Some _ => res_status 400 ;; throw DuplicateEmail
         | None =>
             u <- User.create (default "" name) (default "" email) (default "" password) ;;
             token <- generateToken (UserSchema._id u) ;;
             res_status 201 ;;
             res_json (auth_json u token)
         end
     end)
    (fun error =>
       (if String.eqb (Error.name error) "ValidationError" then res_status 400 else ret tt) ;;
       next (Some error)).

(** Modelled from the spec: controllers/authController.js is not among
    the sources.  Account Service, [login]: looks the account up by
    email, with the explicit fetch of the password hash that the default
    read path leaves out; fails with [InvalidCredentials] (401) if it is
    not found or if the password does not verify, otherwise issues a token
    and answers with the account summary and the token. *)
Definition loginUser : M unit :=
  w <- get ;;
  let email := body (req w) !! "email" in
  let password := body (req w) !! "password" in
  try_catch
    (found <- User.findOne_email_select_password (default "" email) ;;
     matches <- match found with
                | Some u => User.comparePassword u (default "" password)
                | None => ret false
                end ;;
     match found, matches with
     | Some u, true =>
         token <- generateToken (UserSchema._id u) ;;
         res_json (auth_json u token)
     | _, _ =>
         res_status 401 ;;
         throw InvalidCredentials
     end)
    (fun error => next (Some error)).

End authController.

(** ** The route: a handler behind [errorHandler]

    Express runs the handlers of a route in order; an error handed to
    [next], or thrown, reaches [errorHandler]. *)

Definition finish (r : (Error.t + unit) * World) : World :=
  match r with
  | (inl e, w) => snd (errorHandler e w)
  | (inr _, w) =>
      match nextCalled w with
      | Some (Some e) => snd (errorHandler e w)
      | _ => w
      end
  end.

Definition respond (handler : M unit) (w : World) : World := finish (handler w).

(** A protected route: [router.put("/:id", protect, updateBlog)]. *)
Definition protected `{jwt.Codec} (handler : M unit) (w : World) : World :=
  match protect w with
  | (inr _, w') =>
      match nextCalled w' with
      | Some None => respond handler (with_next None w')
      | _ => finish (inr tt, w')
      end
  | r => finish r
  end.

(** ** routes/blogRoutes.js *)

Inductive Method := POST | GET | PUT | DELETE.

(** The path below the mount point: ["/"], one segment, which Express
    binds to [req.params.id], or more than one. *)
Inductive Path := Root | Item (id : string) | Deeper.

Definition with_params (id : string) (w : World) : World :=
  with_req {| authorization := authorization (req w); params_id := id;
              body := body (req w); user := user (req w) |} w.

(** The end of a route whose handler answers a value. *)
Definition finish_with {A} (r : (Error.t + A) * World) : World :=
  match r with
  | (inl e, w) => snd (errorHandler e w)
  | (inr _, w) =>
      match nextCalled w with
      | Some (Some e) => snd (errorHandler e w)
      | _ => w
      end
  end.

(** The five routes of the router; a request none of them matches is
    passed on ([None]) with the world as it is.  The second component is
    the listing [getBlogs] answered, if it did. *)
Definition blogRoutes `{jwt.Codec} `{Engine}
    (elsewhere : gmap string string -> gmap string BlogSchema.doc
                 -> Error.t + list BlogSchema.doc)
    (method : Method) (path : Path) (query : gmap string string) (w : World)
    : option (World * option BlogPage.t) :=
  match method, path with
  | POST, Root => Some (protected createBlog w, None)
  | GET, Root =>
      let r := getBlogs elsewhere query w in
      Some (finish_with r, match fst r with inr body => body | inl _ => None end)
  | GET, Item id => Some (respond getBlogById (with_params id w), None)
  | PUT, Item id => Some (protected updateBlog (with_params id w), None)
  | DELETE, Item id => Some (protected deleteBlog (with_params id w), None)
  | _, _ => None
  end.

(** * The vocabulary of the properties *)

(** ** Worlds and outcomes *)

Definition fresh_response : Response := {| statusCode := 200; sent := None |}.

Definition empty_request : Request :=
  {| authorization := None; params_id := ""; body := ∅; user := None |}.

Definition initial (mode : option string) : World :=
  {| blogs := ∅; users := ∅; now := 1700000000000; nextId := 1; entropy := 0;
     env := {| JWT_SECRET := Some "secret"; NODE_ENV := mode |};
     req := empty_request; res := fresh_response; nextCalled := None; console := [] |}.

(** The handler failed: it set [status] and handed [e] to [next]; nothing
    else of the world, the collections included, changed. *)
Definition rejected (status : nat) (e : Error.t) (w : World) : World :=
  with_next (Some (Some e)) (with_res {| statusCode := status; sent := sent (res w) |} w).

(** The handler answered [value] with [res.json], under the status left
    in the response. *)
Definition answered (value : Json) (w : World) : World :=
  with_res {| statusCode := statusCode (res w); sent := Some value |} w.

Definition fails_with (handler : M unit) (status : nat) (message : string) (w : World) : Prop :=
  exists e, Error.message e = message /\ handler w = (inr tt, rejected status e w).

(** A collection holds each document under its own [_id]. *)
Definition keyed_by_id (m : gmap string BlogSchema.doc) : Prop :=
  forall k b, m !! k = Some b -> BlogSchema._id b = k.

(** With another identity in [req.user], the rest of the world the same. *)
Definition as_user (identity : option UserSchema.doc) (w : World) : World :=
  with_req (with_user identity (req w)) w.

Definition with_body (fields : gmap string string) (w : World) : World :=
  with_req {| authorization := authorization (req w); params_id := params_id (req w);
              body := fields; user := user (req w) |} w.

(** The next request on the same server. *)
Definition request (header : option string) (id : string) (fields : list (string * string))
    (w : World) : World :=
  with_next None
    (with_res fresh_response
       (with_req {| authorization := header; params_id := id;
                    body := list_to_map fields; user := None |} w)).

Definition token_of (w : World) : string :=
  match sent (res w) with
  | Some (JAuth _ _ _ token) => token
  | _ => ""
  end.

Definition blog_of (w : World) : option BlogSchema.doc :=
  match sent (res w) with
  | Some (JBlog b) => Some b
  | _ => None
  end.

(** ** The ownership guard and the blog handlers *)

(** The decision of the spec's Ownership Guard, over data already loaded:
    an absent identity is denied, otherwise the identity's id must equal the
    resource's owner id. *)
Definition OwnershipGuard (identity : option UserSchema.doc) (owner : string) : bool :=
  match identity with
  | None => false
  | Some u => String.eqb owner (UserSchema._id u)
  end.

(** The four assignments of [updateBlog]. *)
Definition assigned (fields : gmap string string) (blog : BlogSchema.doc) : BlogSchema.doc :=
  {| BlogSchema._id := BlogSchema._id blog;
     BlogSchema.title := Js.or_else (fields !! "title") (BlogSchema.title blog);
     BlogSchema.category := Js.or_else (fields !! "category") (BlogSchema.category blog);
     BlogSchema.authorName := BlogSchema.authorName blog;
     BlogSchema.content := Js.or_else (fields !! "content") (BlogSchema.content blog);
     BlogSchema.image := match fields !! "image" with
                         | Some i => i
                         | None => BlogSchema.image blog
                         end;
     BlogSchema.userId := BlogSchema.userId blog;
     BlogSchema.createdAt := BlogSchema.createdAt blog;
     BlogSchema.updatedAt := BlogSchema.updatedAt blog |}.

Definition touched (t : Z) (b : BlogSchema.doc) : BlogSchema.doc :=
  {| BlogSchema._id := BlogSchema._id b; BlogSchema.title := BlogSchema.title b;
     BlogSchema.category := BlogSchema.category b;
     BlogSchema.authorName := BlogSchema.authorName b;
     BlogSchema.content := BlogSchema.content b; BlogSchema.image := BlogSchema.image b;
     BlogSchema.userId := BlogSchema.userId b;
     BlogSchema.createdAt := BlogSchema.createdAt b; BlogSchema.updatedAt := t |}.

(** What [updateBlog] does once the guard has allowed it: the assigned
    document is validated whole; refused, the request ends in 400; accepted
    and equal to the stored one, it is answered as it is; accepted and
    different, it is written with a new [updatedAt]. *)
Definition update_outcome (oid : string) (blog : BlogSchema.doc) (w : World) : World :=
  let b := BlogSchema.setters (assigned (body (req w)) blog) in
  match BlogSchema.validate b with
  | [] =>
      if bool_decide (b = blog) then answered (JBlog b) w
      else answered (JBlog (touched (now w) b))
             (with_blogs (<[oid := touched (now w) b]> (blogs w)) w)
  | problems => rejected 400 (Error.ValidationError "Blog" problems) w
  end.

(** The document [createBlog] builds for the identity [u]. *)
Definition drafted (u : UserSchema.doc) (w : World) : BlogSchema.doc :=
  let fields := body (req w) in
  BlogSchema.setters
    {| BlogSchema._id := ObjectId.of_counter (nextId w);
       BlogSchema.title := Js.or_else (fields !! "title") "";
       BlogSchema.category := Js.or_else (fields !! "category") "";
       BlogSchema.authorName := UserSchema.name u;
       BlogSchema.content := Js.or_else (fields !! "content") "";
       BlogSchema.image := if Js.truthy (fields !! "image")
                           then default "" (fields !! "image") else "";
       BlogSchema.userId := UserSchema._id u;
       BlogSchema.createdAt := 0; BlogSchema.updatedAt := 0 |}.

Definition stamped (t : Z) (b : BlogSchema.doc) : BlogSchema.doc :=
  {| BlogSchema._id := BlogSchema._id b; BlogSchema.title := BlogSchema.title b;
     BlogSchema.category := BlogSchema.category b;
     BlogSchema.authorName := BlogSchema.authorName b;
     BlogSchema.content := BlogSchema.content b; BlogSchema.image := BlogSchema.image b;
     BlogSchema.userId := BlogSchema.userId b;
     BlogSchema.createdAt := t; BlogSchema.updatedAt := t |}.

(** The request passes the two guards of [createBlog]. *)
Definition creatable (w : World) : option UserSchema.doc :=
  let fields := body (req w) in
  if Js.truthy (fields !! "title") && Js.truthy (fields !! "category")
     && Js.truthy (fields !! "content")
  then match user (req w) with
       | Some u => if String.eqb (UserSchema._id u) "" then None else Some u
       | None => None
       end
  else None.

(** ** Tokens and the identity resolver *)

Definition free_of (sep : ascii) (s : string) : bool :=
  Js.all_chars (fun c => negb (Ascii.eqb c sep)) s.

(** The header carries the bearer prefix. *)
Definition bearer (w : World) : bool :=
  Js.truthy (authorization (req w))
  && Js.startsWith (default "" (authorization (req w))) "Bearer".

(** The token text: the second of the pieces of the header between
    spaces. *)
Definition presented (w : World) : option string :=
  Js.split " " (default "" (authorization (req w))) !! 1%nat.

(** The account a verified payload names, if any. *)
Definition account_of (payload : jwt.Payload) (w : World) : option UserSchema.doc :=
  ObjectId.cast (jwt.id payload) ≫= (fun oid => users w !! oid).

(** The resolver of the spec, steps (1) to (4): no credential without the
    bearer prefix, then the codec's verdict, then the account lookup. *)
Definition resolve `{jwt.Codec} (w : World) : option UserSchema.doc :=
  if bearer w then
    match fst (jwt.verify (presented w) (JWT_SECRET (env w)) w) with
    | inr payload => account_of payload w
    | inl _ => None
    end
  else None.

Definition no_token_provided : Error.t :=
  Error.new "protect" "Not authorized, no token provided".

Definition token_failed : Error.t :=
  Error.new "protect" "Not authorized, token failed or expired".

(** The token is the three segments header, [seg], [signature], and [seg]
    decodes to [payload]. *)
Definition well_formed `{jwt.Codec} (token seg : string) (payload : jwt.Payload) (signature : string) : Prop :=
  token = jwt.header ++ "." ++ seg ++ "." ++ signature
  /\ free_of "." seg = true /\ free_of "." signature = true
  /\ jwt.decodePayload seg = Some payload.

(** ** Registration *)

(** The fields of a registration pass the validation: a name that is not
    blank, an email that is not empty and that the pattern matches in
    lower case, a password of six characters or more. *)
Definition acceptable `{EmailPattern} (fields : gmap string string) : Prop :=
  Js.trim (default "" (fields !! "name")) <> ""
  /\ default "" (fields !! "email") <> ""
  /\ email_match (Js.toLowerCase (default "" (fields !! "email"))) = true
  /\ (6 <= String.length (default "" (fields !! "password")))%nat.

(** ** Reading back, repeating, and what the collection always holds *)

(** Every stored blog passes the schema's validators and is as the
    schema's setters leave it. *)
Definition schema_valid (m : gmap string BlogSchema.doc) : Prop :=
  forall k b, m !! k = Some b -> BlogSchema.validate b = [] /\ BlogSchema.setters b = b.

(** The first character, if there is one, is not white space. *)
Definition starts_clean (s : string) : Prop :=
  match s with
  | String c _ => Js.is_space c = false
  | EmptyString => True
  end.

(** The world when the clock reads [t]. *)
Definition at_time (t : Z) (w : World) : World :=
  {| blogs := blogs w; users := users w; now := t; nextId := nextId w;
     entropy := entropy w; env := env w; req := req w; res := res w;
     nextCalled := nextCalled w; console := console w |}.

(** ** The listing *)

(** The page size and the page number of a query, where they are
    computed and the number of blogs to skip is in range. *)
Definition paging (query : gmap string string) : option (N * N) :=
  match JsNumber.or_default (Number (query !! "limit")) 10,
        JsNumber.or_default (Number (query !! "page")) 1 with
  | JsNumber.Int pageSize, JsNumber.Int page =>
      if (pageSize * (page - 1) <=? JsNumber.MAX_INT32)%N then Some (pageSize, page) else None
  | _, _ => None
  end.

(** The least number of pages of [pageSize] that hold [count] blogs. *)
Definition ceil_div (count pageSize : N) : N := ((count + pageSize - 1) / pageSize)%N.

(** The filter of a query. *)
Definition conditions_of (query : gmap string string) : BlogQuery.conditions :=
  {| BlogQuery.category :=
       if Js.truthy (query !! "category") then query !! "category" else None;
     BlogQuery.authorName :=
       if Js.truthy (query !! "authorName") then query !! "authorName" else None |}.

(** The query with the parameter [key] set to [value], or without it. *)
Definition with_param (key : string) (value : option string)
    (query : gmap string string) : gmap string string :=
  match value with
  | Some text => <[key := text]> query
  | None => delete key query
  end.

(** ** What the schemas refuse *)

(** A field that is given, not empty, and only white space. *)
Definition blank (v : option string) : Prop :=
  Js.truthy v = true /\ Js.trim (default "" v) = "".

(** An image that, trimmed, is neither empty nor a URL of the pattern. *)
Definition bad_image (v : option string) : Prop :=
  exists i, v = Some i /\ Js.trim i <> "" /\ BlogSchema.image_match (Js.trim i) = false.

(** The handler ended in [w'] with 400 and a validation error of the
    Blog model, the blogs of [w] as they were. *)
Definition refused_by_schema (w w' : World) : Prop :=
  statusCode (res w') = 400%nat
  /\ blogs w' = blogs w
  /\ exists problems,
       nextCalled w' = Some (Some (Error.ValidationError "Blog" problems)).

(** ** Time stamps *)

(** Every stored blog was created no later than it was last updated, and
    last updated no later than [t]. *)
Definition timestamps_ordered (t : Z) (m : gmap string BlogSchema.doc) : Prop :=
  forall k b, m !! k = Some b ->
    BlogSchema.createdAt b <= BlogSchema.updatedAt b /\ BlogSchema.updatedAt b <= t.

(** * Stand-ins for the primitives, and sample worlds

    A text codec and a keyed tag that satisfy the laws of [jwt.Codec], a
    salted hash in the shape of [bcrypt.Api] and an email matcher, so that
    the handlers can be run on concrete requests. *)

Lemma append_cons c a b : String c a ++ b = String c (a ++ b).
Proof. reflexivity. Qed.

Lemma all_chars_cons p c s : Js.all_chars p (String c s) = p c && Js.all_chars p s.
Proof. reflexivity. Qed.

Lemma all_chars_app p a b :
  Js.all_chars p (a ++ b) = Js.all_chars p a && Js.all_chars p b.
Proof.
  induction a as [|c a IH]; [reflexivity|].
  rewrite append_cons. unfold Js.all_chars in *. cbn [list_ascii_of_string forallb].
  rewrite IH, andb_assoc. reflexivity.
Qed.

Module Doubles.

(** Two hexadecimal digits per character. *)
Definition hex_pair (c : ascii) : string :=
  let n := N_of_ascii c in
  String (ObjectId.hex_digit (n / 16)%N) (String (ObjectId.hex_digit (n mod 16)%N) "").

Definition hex_value (c : ascii) : option N :=
  let n := N_of_ascii c in
  if ((48 <=? n) && (n <=? 57))%N then Some (n - 48)%N
  else if ((97 <=? n) && (n <=? 102))%N then Some (n - 87)%N
  else None.

Definition unhex_pair (a b : ascii) : option ascii :=
  match hex_value a, hex_value b with
  | Some h, Some l => Some (ascii_of_N (16 * h + l))
  | _, _ => None
  end.

Fixpoint hex (s : string) : string :=
  match s with
  | EmptyString => EmptyString
  | String c r => hex_pair c ++ hex r
  end.

(** Reads hexadecimal pairs up to an underscore. *)
Fixpoint unhex (s : string) : option (string * string) :=
  match s with
  | String a r =>
      if Ascii.eqb a "_" then Some (EmptyString, r)
      else match r with
           | String b r' =>
               match unhex_pair a b, unhex r' with
               | Some c, Some (t, rest) => Some (String c t, rest)
               | _, _ => None
               end
           | EmptyString => None
           end
  | EmptyString => None
  end.

(** The binary digits of a positive number, lowest first. *)
Fixpoint bits (p : positive) : string :=
  match p with
  | xH => EmptyString
  | xO q => String "0" (bits q)
  | xI q => String "1" (bits q)
  end.

Fixpoint unbits (s : string) : option (positive * string) :=
  match s with
  | String c r =>
      if Ascii.eqb c "_" then Some (xH, r)
      else if Ascii.eqb c "0" then
        match unbits r with Some (q, rest) => Some (xO q, rest) | None => None end
      else if Ascii.eqb c "1" then
        match unbits r with Some (q, rest) => Some (xI q, rest) | None => None end
      else None
  | EmptyString => None
  end.

Definition number (z : Z) : string :=
  match z with
  | Z0 => "z"
  | Zpos p => String "p" (bits p)
  | Zneg p => String "n" (bits p)
  end.

Definition unnumber (s : string) : option (Z * string) :=
  match s with
  | String c r =>
      if Ascii.eqb c "z" then
        match r with
        | String u rest => if Ascii.eqb u "_" then Some (0, rest) else None
        | EmptyString => None
        end
      else if Ascii.eqb c "p" then
        match unbits r with Some (q, rest) => Some (Zpos q, rest) | None => None end
      else if Ascii.eqb c "n" then
        match unbits r with Some (q, rest) => Some (Zneg q, rest) | None => None end
      else None
  | EmptyString => None
  end.

Definition encodePayload (p : jwt.Payload) : string :=
  hex (jwt.id p) ++ String "_" (number (jwt.iat p) ++ String "_" (number (jwt.exp p) ++ "_")).

Definition decodePayload (s : string) : option jwt.Payload :=
  match unhex s with
  | Some (id, r1) =>
      match unnumber r1 with
      | Some (iat, r2) =>
          match unnumber r2 with
          | Some (exp, EmptyString) => Some {| jwt.id := id; jwt.iat := iat; jwt.exp := exp |}
          | _ => None
          end
      | None => None
      end
  | None => None
  end.

(** The tag of [input] under [key]. *)
Definition hmacSHA256 (key input : string) : string :=
  String "S" (hex (key ++ "/" ++ input)).

End Doubles.

Module DoublesFacts.
Import Doubles.

Lemma hex_pair_spec c :
  exists h l,
    hex_pair c = String h (String l "")
    /\ Ascii.eqb h "_" = false
    /\ unhex_pair h l = Some c
    /\ jwt.is_base64url h = true /\ jwt.is_base64url l = true.
Proof.
  destruct c as [[] [] [] [] [] [] [] []];
    do 2 eexists; (split; [reflexivity|]); repeat split; reflexivity.
Qed.

Lemma unhex_hex s rest : unhex (hex s ++ String "_" rest) = Some (s, rest).
Proof.
  induction s as [|c s IH].
  - reflexivity.
  - destruct (hex_pair_spec c) as (h & l & Hp & Hh & Hu & _).
    cbn [hex]. rewrite Hp, !append_cons. change ("" ++ ?x) with x.
    cbn [unhex]. rewrite Hh, Hu, IH. reflexivity.
Qed.

Lemma hex_base64url s : Js.all_chars jwt.is_base64url (hex s) = true.
Proof.
  induction s as [|c s IH]; [reflexivity|].
  destruct (hex_pair_spec c) as (h & l & Hp & _ & _ & Hh & Hl).
  cbn [hex]. rewrite all_chars_app, IH, Hp. unfold Js.all_chars. cbn.
  rewrite Hh, Hl. reflexivity.
Qed.

Lemma unbits_bits p rest : unbits (bits p ++ String "_" rest) = Some (p, rest).
Proof.
  induction p as [q IH|q IH|]; cbn [bits]; rewrite ?append_cons; cbn [unbits].
  - cbn. rewrite IH. reflexivity.
  - cbn. rewrite IH. reflexivity.
  - reflexivity.
Qed.

Lemma bits_base64url p : Js.all_chars jwt.is_base64url (bits p) = true.
Proof. induction p as [q IH|q IH|]; [exact IH | exact IH | reflexivity]. Qed.

Lemma unnumber_number z rest : unnumber (number z ++ String "_" rest) = Some (z, rest).
Proof.
  destruct z as [|p|p]; cbn [number]; rewrite ?append_cons.
  - reflexivity.
  - cbn. rewrite unbits_bits. reflexivity.
  - cbn. rewrite unbits_bits. reflexivity.
Qed.

Lemma number_base64url z : Js.all_chars jwt.is_base64url (number z) = true.
Proof. destruct z as [|p|p]; [reflexivity | apply bits_base64url | apply bits_base64url]. Qed.

Lemma decode_encode p : decodePayload (encodePayload p) = Some p.
Proof.
  unfold decodePayload, encodePayload.
  rewrite unhex_hex, unnumber_number.
  change (number (jwt.exp p) ++ "_") with (number (jwt.exp p) ++ String "_" "").
  rewrite unnumber_number. destruct p; reflexivity.
Qed.

Lemma encode_segment p : jwt.is_segment (encodePayload p) = true.
Proof.
  unfold jwt.is_segment, encodePayload. apply andb_true_iff. split.
  - destruct (hex (jwt.id p)); reflexivity.
  - rewrite all_chars_app, hex_base64url, all_chars_cons.
    rewrite all_chars_app, number_base64url, all_chars_cons.
    rewrite all_chars_app, number_base64url. reflexivity.
Qed.

Lemma hmac_segment key input : jwt.is_segment (hmacSHA256 key input) = true.
Proof.
  unfold jwt.is_segment, hmacSHA256. apply andb_true_iff. split; [reflexivity|].
  rewrite all_chars_cons, hex_base64url. reflexivity.
Qed.

End DoublesFacts.

Definition codec_double : jwt.Codec :=
  {| jwt.encodePayload := Doubles.encodePayload;
     jwt.decodePayload := Doubles.decodePayload;
     jwt.hmacSHA256 := Doubles.hmacSHA256;
     jwt.encode_segment := DoublesFacts.encode_segment;
     jwt.hmac_segment := DoublesFacts.hmac_segment;
     jwt.decode_encode := DoublesFacts.decode_encode |}.

(** A salted hash: the salt, a dollar sign, the plaintext. *)
Definition bcrypt_double : bcrypt.Api :=
  {| bcrypt.salt_of := fun rounds n => "salt" ++ ObjectId.of_counter n;
     bcrypt.hash_with := fun plaintext salt => salt ++ "$" ++ plaintext;
     bcrypt.compare_with := fun candidate hashed =>
       match Js.split "$" hashed with
       | salt :: _ => String.eqb hashed (salt ++ "$" ++ candidate)
       | [] => false
       end |}.

(** An email matcher: some text, an at sign, some text. *)
Definition email_double : EmailPattern :=
  {| email_match := fun s =>
       match Js.split "@" s with
       | [a; b] => negb (String.eqb a "") && negb (String.eqb b "")
       | _ => false
       end |}.

(** ** Two accounts and one post of the first *)

Definition alice : UserSchema.doc :=
  {| UserSchema._id := "aaaaaaaaaaaaaaaaaaaaaaaa"; UserSchema.name := "Ann";
     UserSchema.email := "a@x.com"; UserSchema.password := None;
     UserSchema.createdAt := 1000; UserSchema.updatedAt := 1000 |}.

Definition bob : UserSchema.doc :=
  {| UserSchema._id := "bbbbbbbbbbbbbbbbbbbbbbbb"; UserSchema.name := "Bob";
     UserSchema.email := "b@x.com"; UserSchema.password := None;
     UserSchema.createdAt := 1000; UserSchema.updatedAt := 1000 |}.

Definition post : BlogSchema.doc :=
  {| BlogSchema._id := "cccccccccccccccccccccccc"; BlogSchema.title := "Hello";
     BlogSchema.category := "Travel"; BlogSchema.authorName := "Ann";
     BlogSchema.content := "First post"; BlogSchema.image := "";
     BlogSchema.userId := "aaaaaaaaaaaaaaaaaaaaaaaa";
     BlogSchema.createdAt := 1000; BlogSchema.updatedAt := 1000 |}.

(** A request by [identity] on the blog [id] with the JSON body [fields],
    at time 2000, against the collection holding [post]. *)
Definition sample (identity : option UserSchema.doc) (id : string)
    (fields : list (string * string)) : World :=
  {| blogs := {[ BlogSchema._id post := post ]};
     users := {[ UserSchema._id alice := alice; UserSchema._id bob := bob ]};
     now := 2000; nextId := 1; entropy := 0;
     env := {| JWT_SECRET := Some "secret"; NODE_ENV := Some "production" |};
     req := {| authorization := None; params_id := id;
               body := list_to_map fields; user := identity |};
     res := fresh_response; nextCalled := None; console := [] |}.

(** The sample world with the request carrying [header]. *)
Definition with_header (header : option string) : World :=
  with_req {| authorization := header; params_id := ""; body := ∅; user := None |}
    (sample None "" []).

(** The token [generateToken] issues for Ann at time 2000. *)
Definition ann_token : string :=
  @jwt.compact codec_double "secret"
    {| jwt.id := "aaaaaaaaaaaaaaaaaaaaaaaa"; jwt.iat := 2; jwt.exp := 2 + jwt.days 30 |}.

(** Ann's account as stored: the email in lower case, the password hashed. *)
Definition ann_account : UserSchema.doc :=
  {| UserSchema._id := "aaaaaaaaaaaaaaaaaaaaaaaa"; UserSchema.name := "Ann";
     UserSchema.email := "a@x.com";
     UserSchema.password := Some (@bcrypt.hash_with bcrypt_double "secret1" "salt0");
     UserSchema.createdAt := 1000; UserSchema.updatedAt := 1000 |}.

(** A request with the JSON body [fields] when Ann is registered. *)
Definition registered (fields : list (string * string)) : World :=
  with_users {[ UserSchema._id ann_account := ann_account ]} (sample None "" fields).

(** A post stored with an image that is not a URL of the pattern, and a
    request by [identity] on it with the JSON body [fields]. *)
Definition unchecked_post : BlogSchema.doc :=
  {| BlogSchema._id := "cccccccccccccccccccccccc"; BlogSchema.title := "Hello";
     BlogSchema.category := "Travel"; BlogSchema.authorName := "Ann";
     BlogSchema.content := "First post"; BlogSchema.image := "bad";
     BlogSchema.userId := "aaaaaaaaaaaaaaaaaaaaaaaa";
     BlogSchema.createdAt := 1000; BlogSchema.updatedAt := 1000 |}.

Definition unchecked (identity : option UserSchema.doc) (fields : list (string * string))
    : World :=
  with_blogs {[ BlogSchema._id unchecked_post := unchecked_post ]}
    (sample identity "cccccccccccccccccccccccc" fields).

(** ** A server with the stand-ins plugged in *)

Definition signup : M unit := @signupUser codec_double bcrypt_double email_double.
Definition login : M unit := @loginUser codec_double bcrypt_double.
Definition guarded : M unit -> World -> World := @protected codec_double.

Definition after_ann : World :=
  respond signup
    (request None "" [("name", "Ann"); ("email", "a@x.com"); ("password", "secret1")]
       (initial None)).

Definition after_bob : World :=
  respond signup
    (request None "" [("name", "Bob"); ("email", "b@x.com"); ("password", "secret2")]
       after_ann).

Definition after_create : World :=
  guarded createBlog
    (request (Some ("Bearer " ++ token_of after_ann)) ""
       [("title", "T"); ("category", "C"); ("content", "B")] after_bob).

Definition created_id : string := default "" (BlogSchema._id <$> blog_of after_create).

(** ** A sort, and a collection of three posts *)

#[global] Instance more_recent_dec a b : Decision (more_recent a b).
Proof. unfold more_recent. apply _. Defined.

#[global] Instance more_recent_total : Total more_recent.
Proof. intros a b. unfold more_recent. lia. Qed.

(** Merge sort: equal [createdAt] in the order of the collection's keys. *)
Definition engine_double : Engine :=
  {| sort_createdAt_desc := merge_sort more_recent;
     sort_permutation := merge_sort_Permutation more_recent;
     sort_sorted := Sorted_merge_sort more_recent |}.

Definition elsewhere_double
    : gmap string string -> gmap string BlogSchema.doc -> Error.t + list BlogSchema.doc :=
  fun _ _ => inl (Error.new "getBlogs" "not a plain numeral").

Definition post_of_bob : BlogSchema.doc :=
  {| BlogSchema._id := "dddddddddddddddddddddddd"; BlogSchema.title := "Rome";
     BlogSchema.category := "Travel"; BlogSchema.authorName := "Bob";
     BlogSchema.content := "Second post"; BlogSchema.image := "";
     BlogSchema.userId := "bbbbbbbbbbbbbbbbbbbbbbbb";
     BlogSchema.createdAt := 3000; BlogSchema.updatedAt := 3000 |}.

Definition later_post : BlogSchema.doc :=
  {| BlogSchema._id := "eeeeeeeeeeeeeeeeeeeeeeee"; BlogSchema.title := "Rocq";
     BlogSchema.category := "Technology"; BlogSchema.authorName := "Ann";
     BlogSchema.content := "Third post"; BlogSchema.image := "";
     BlogSchema.userId := "aaaaaaaaaaaaaaaaaaaaaaaa";
     BlogSchema.createdAt := 2000; BlogSchema.updatedAt := 2000 |}.

(** The sample world with three posts stored. *)
Definition library : World :=
  with_blogs {[ BlogSchema._id post := post; BlogSchema._id post_of_bob := post_of_bob;
                BlogSchema._id later_post := later_post ]}
    (sample None "" []).

Definition listing : gmap string string -> M (option BlogPage.t) :=
  @getBlogs engine_double elsewhere_double.

(** The token [generateToken] issues for Bob at time 2000. *)
Definition bob_token : string :=
  @jwt.compact codec_double "secret"
    {| jwt.id := "bbbbbbbbbbbbbbbbbbbbbbbb"; jwt.iat := 2; jwt.exp := 2 + jwt.days 30 |}.

Definition routes : Method -> Path -> gmap string string -> World
                    -> option (World * option BlogPage.t) :=
  @blogRoutes codec_double engine_double elsewhere_double.

(** * Lemmas and theorems *)

(** ** Text *)

Lemma append_assoc a b c : (a ++ b) ++ c = a ++ (b ++ c).
Proof.
  induction a as [|x a IH]; [reflexivity|].
  rewrite !append_cons, IH. reflexivity.
Qed.

Lemma split_nonempty sep s : Js.split sep s <> [].
Proof.
  destruct s as [|c r]; cbn; [discriminate|].
  destruct (Ascii.eqb c sep); [discriminate|].
  destruct (Js.split sep r); discriminate.
Qed.

Lemma split_free sep s : free_of sep s = true -> Js.split sep s = [s].
Proof.
  induction s as [|c r IH]; cbn [Js.split]; [reflexivity|].
  unfold free_of, Js.all_chars. cbn [list_ascii_of_string forallb].
  intros [Hc Hr]%andb_true_iff.
  apply negb_true_iff in Hc. rewrite Hc. fold (free_of sep r) in Hr.
  rewrite (IH Hr). reflexivity.
Qed.

Lemma split_app sep a rest :
  free_of sep a = true ->
  Js.split sep (a ++ String sep rest) = a :: Js.split sep rest.
Proof.
  induction a as [|c r IH].
  - intros _. change (Js.split sep (String sep rest) = "" :: Js.split sep rest).
    cbn [Js.split]. rewrite Ascii.eqb_refl. reflexivity.
  - change (String c r ++ String sep rest) with (String c (r ++ String sep rest)).
    cbn [Js.split].
    unfold free_of, Js.all_chars. cbn [list_ascii_of_string forallb].
    intros [Hc Hr]%andb_true_iff.
    apply negb_true_iff in Hc. rewrite Hc. fold (free_of sep r) in Hr.
    rewrite (IH Hr). reflexivity.
Qed.

Lemma split_parts_free sep s : Forall (fun part => free_of sep part = true) (Js.split sep s).
Proof.
  induction s as [|c r IH]; cbn [Js.split].
  - constructor; [reflexivity | constructor].
  - destruct (Ascii.eqb c sep) eqn:Hc.
    + constructor; [reflexivity | exact IH].
    + destruct (Js.split sep r) as [|p ps].
      * constructor; [|constructor]. unfold free_of. rewrite all_chars_cons, Hc.
        reflexivity.
      * apply Forall_cons in IH as [Hp Hps]. constructor; [|exact Hps].
        unfold free_of. rewrite all_chars_cons, Hc. exact Hp.
Qed.

Lemma split_join sep s : String.concat (String sep "") (Js.split sep s) = s.
Proof.
  induction s as [|c r IH]; cbn [Js.split]; [reflexivity|].
  pose proof (split_nonempty sep r) as Hne.
  destruct (Ascii.eqb_spec c sep) as [-> | Hc].
  - destruct (Js.split sep r) as [|p ps]; [contradiction|].
    cbn [String.concat] in *. rewrite IH. reflexivity.
  - destruct (Js.split sep r) as [|p ps]; [contradiction|].
    destruct ps as [|q qs]; cbn [String.concat] in *.
    + rewrite IH. reflexivity.
    + rewrite append_cons, IH. reflexivity.
Qed.

Lemma all_chars_weaken (p q : ascii -> bool) s :
  (forall c, p c = true -> q c = true) ->
  Js.all_chars p s = true -> Js.all_chars q s = true.
Proof.
  intros Hpq. unfold Js.all_chars. induction (list_ascii_of_string s) as [|c l IH]; cbn.
  - reflexivity.
  - intros [Hc Hl]%andb_true_iff. rewrite (Hpq c Hc), (IH Hl). reflexivity.
Qed.

Lemma free_of_app sep a b : free_of sep (a ++ b) = free_of sep a && free_of sep b.
Proof. apply all_chars_app. Qed.

Lemma toLowerCase_idempotent s : Js.toLowerCase (Js.toLowerCase s) = Js.toLowerCase s.
Proof.
  induction s as [|c r IH]; [reflexivity|].
  cbn [Js.toLowerCase]. rewrite IH. f_equal.
  destruct c as [[] [] [] [] [] [] [] []]; reflexivity.
Qed.

(** ** Symbolic execution of handlers *)

Ltac run :=
  unfold bind, ret, throw, get, modify, try_catch, res_status, res_json, next,
    console_error.

(** ** The final error handler *)

(** C9 (as amended): for every error that reaches [errorHandler], the
    response status is 500 when it was still 200 and is otherwise left as
    it was set; the body always carries the error's message, and its
    [stack] is null exactly when [NODE_ENV] is ["production"]: in every
    other mode, development or not, it is the error's stack trace.  The
    handler completes and touches nothing but the response. *)
Theorem errorHandler_response (err : Error.t) (w : World) :
  exists w',
    errorHandler err w = (inr tt, w')
    /\ (statusCode (res w) = 200%nat -> statusCode (res w') = 500%nat)
    /\ (statusCode (res w) <> 200%nat -> statusCode (res w') = statusCode (res w))
    /\ (NODE_ENV (env w) = Some "production" ->
        sent (res w') = Some (JError (Error.message err) None))
    /\ (NODE_ENV (env w) <> Some "production" ->
        sent (res w') = Some (JError (Error.message err) (Some (Error.stack err))))
    /\ w' = with_res (res w') w.
Proof.
  unfold errorHandler, bind, get, res_status, res_json, modify.
  eexists. split; [reflexivity|]. cbn.
  repeat split.
  - intros ->. reflexivity.
  - intros Hne. destruct (Nat.eqb_spec (statusCode (res w)) 200); [contradiction | reflexivity].
  - intros Hp. rewrite bool_decide_eq_true_2 by exact Hp. reflexivity.
  - intros Hp. rewrite bool_decide_eq_false_2 by exact Hp. reflexivity.
Qed.

(** C9, the claim as stated fails: with [NODE_ENV] set to ["test"], which
    is not development mode, the body carries the stack trace; and in
    production the body still carries the internal message. *)
Lemma errorHandler_stack_outside_development :
  let err := Error.new "connectDB" "connect ECONNREFUSED 127.0.0.1:27017" in
  (sent (res (snd (errorHandler err (initial (Some "test")))))
   = Some (JError "connect ECONNREFUSED 127.0.0.1:27017"
             (Some "Error: connect ECONNREFUSED 127.0.0.1:27017 at connectDB")))
  /\ (sent (res (snd (errorHandler err (initial (Some "production")))))
      = Some (JError "connect ECONNREFUSED 127.0.0.1:27017" None))
  /\ statusCode (res (snd (errorHandler err (initial (Some "test"))))) = 500%nat.
Proof. repeat split; reflexivity. Qed.

Lemma errorHandler_response_witness :
  exists w',
    errorHandler (Error.new "connectDB" "boom") (initial (Some "production")) = (inr tt, w')
    /\ statusCode (res w') = 500%nat
    /\ sent (res w') = Some (JError "boom" None).
Proof.
  destruct (errorHandler_response (Error.new "connectDB" "boom") (initial (Some "production")))
    as (w' & Hrun & H200 & _ & Hprod & _).
  exists w'. split; [exact Hrun|]. split.
  - apply H200. reflexivity.
  - apply Hprod. reflexivity.
Defined.

(** A failure of a handler as the client sees it, behind [errorHandler]:
    the status the handler set and the error's message. *)
Lemma respond_fails_with (handler : M unit) (status : nat) (message : string) (w : World) :
  fails_with handler status message w ->
  status <> 200%nat ->
  statusCode (res (respond handler w)) = status
  /\ (exists stack, sent (res (respond handler w)) = Some (JError message stack))
  /\ blogs (respond handler w) = blogs w
  /\ users (respond handler w) = users w.
Proof.
  intros (e & <- & Hrun) Hne. unfold respond. rewrite Hrun. cbn.
  destruct (Nat.eqb_spec status 200); [contradiction|].
  repeat split. eexists. reflexivity.
Qed.

(** ** The ownership guard in [updateBlog] and [deleteBlog] *)

Lemma updateBlog_bad_id w :
  ObjectId.cast (params_id (req w)) = None ->
  updateBlog w = (inr tt, rejected 400 (Error.new "updateBlog" "Invalid blog post ID format") w).
Proof.
  intros Hc. unfold updateBlog, Blog.findById. run. rewrite Hc. reflexivity.
Qed.

Lemma updateBlog_not_found w oid :
  ObjectId.cast (params_id (req w)) = Some oid ->
  blogs w !! oid = None ->
  updateBlog w = (inr tt, rejected 404 (Error.new "updateBlog" "Blog post not found") w).
Proof.
  intros Hc Hl. unfold updateBlog, Blog.findById. run. rewrite Hc. cbn. rewrite Hl.
  reflexivity.
Qed.

Lemma updateBlog_forbidden w oid blog :
  ObjectId.cast (params_id (req w)) = Some oid ->
  blogs w !! oid = Some blog ->
  OwnershipGuard (user (req w)) (BlogSchema.userId blog) = false ->
  updateBlog w
  = (inr tt, rejected 403
               (Error.new "updateBlog" "User not authorized to update this blog post") w).
Proof.
  intros Hc Hl Hg. unfold updateBlog, Blog.findById. run. rewrite Hc. cbn. rewrite Hl. cbn.
  unfold OwnershipGuard in Hg. destruct (user (req w)) as [u|].
  - rewrite Hg. reflexivity.
  - reflexivity.
Qed.

Lemma updateBlog_allowed w oid blog :
  ObjectId.cast (params_id (req w)) = Some oid ->
  blogs w !! oid = Some blog ->
  BlogSchema._id blog = oid ->
  OwnershipGuard (user (req w)) (BlogSchema.userId blog) = true ->
  updateBlog w = (inr tt, update_outcome oid blog w).
Proof.
  intros Hc Hl Hid Hg. subst oid.
  unfold updateBlog, Blog.findById. run. rewrite Hc. cbn. rewrite Hl. cbn.
  unfold OwnershipGuard in Hg. destruct (user (req w)) as [u|]; [|discriminate].
  rewrite Hg. cbn. unfold Blog.save. run.
  unfold update_outcome. fold (assigned (body (req w)) blog).
  set (b := BlogSchema.setters (assigned (body (req w)) blog)).
  destruct (BlogSchema.validate b) as [|p ps]; [|reflexivity].
  change (BlogSchema._id b) with (BlogSchema._id blog). cbn beta iota. rewrite Hl.
  destruct (bool_decide (b = blog)); reflexivity.
Qed.

Lemma deleteBlog_bad_id w :
  ObjectId.cast (params_id (req w)) = None ->
  deleteBlog w = (inr tt, rejected 400 (Error.new "deleteBlog" "Invalid blog post ID format") w).
Proof.
  intros Hc. unfold deleteBlog, Blog.findById. run. rewrite Hc. reflexivity.
Qed.

Lemma deleteBlog_not_found w oid :
  ObjectId.cast (params_id (req w)) = Some oid ->
  blogs w !! oid = None ->
  deleteBlog w = (inr tt, rejected 404 (Error.new "deleteBlog" "Blog post not found") w).
Proof.
  intros Hc Hl. unfold deleteBlog, Blog.findById. run. rewrite Hc. cbn. rewrite Hl.
  reflexivity.
Qed.

Lemma deleteBlog_forbidden w oid blog :
  ObjectId.cast (params_id (req w)) = Some oid ->
  blogs w !! oid = Some blog ->
  OwnershipGuard (user (req w)) (BlogSchema.userId blog) = false ->
  deleteBlog w
  = (inr tt, rejected 403
               (Error.new "deleteBlog" "User not authorized to delete this blog post") w).
Proof.
  intros Hc Hl Hg. unfold deleteBlog, Blog.findById. run. rewrite Hc. cbn. rewrite Hl. cbn.
  unfold OwnershipGuard in Hg. destruct (user (req w)) as [u|].
  - rewrite Hg. reflexivity.
  - reflexivity.
Qed.

Lemma deleteBlog_allowed w oid blog :
  ObjectId.cast (params_id (req w)) = Some oid ->
  blogs w !! oid = Some blog ->
  OwnershipGuard (user (req w)) (BlogSchema.userId blog) = true ->
  deleteBlog w
  = (inr tt, answered (JMessage "Blog post removed successfully")
               (with_blogs (delete oid (blogs w)) w)).
Proof.
  intros Hc Hl Hg. unfold deleteBlog, Blog.findById, Blog.findByIdAndDelete. run.
  rewrite Hc. cbn. rewrite Hl. cbn.
  unfold OwnershipGuard in Hg. destruct (user (req w)) as [u|]; [|discriminate].
  rewrite Hg. reflexivity.
Qed.

(** C1 (as amended): for every PUT or DELETE request on a blog post, in a
    collection keyed by [_id]: a malformed id fails with 400 (invalid id
    format); a well-formed id under which no blog exists fails with
    NotFound (404), whatever the identity is, so before any ownership
    comparison; otherwise, if the authenticated identity's id differs from
    the blog's owner id, or no identity is present, the operation fails
    with Forbidden (403); every failure leaves all blog documents
    unchanged; if the two ids are equal the mutation proceeds: the
    document is deleted, or the assigned document goes through
    [doc.save()], which validates every path of it and refuses it with
    400, or answers it unwritten when nothing was modified, or writes
    it. *)
Theorem ownership_guard_outcomes (w : World) :
  keyed_by_id (blogs w) ->
  let id := params_id (req w) in
  (ObjectId.cast id = None ->
     fails_with updateBlog 400 "Invalid blog post ID format" w
     /\ fails_with deleteBlog 400 "Invalid blog post ID format" w)
  /\ (forall oid, ObjectId.cast id = Some oid -> blogs w !! oid = None ->
        forall identity,
          fails_with updateBlog 404 "Blog post not found" (as_user identity w)
          /\ fails_with deleteBlog 404 "Blog post not found" (as_user identity w))
  /\ (forall oid blog, ObjectId.cast id = Some oid -> blogs w !! oid = Some blog ->
        OwnershipGuard (user (req w)) (BlogSchema.userId blog) = false ->
        fails_with updateBlog 403 "User not authorized to update this blog post" w
        /\ fails_with deleteBlog 403 "User not authorized to delete this blog post" w)
  /\ (forall oid blog, ObjectId.cast id = Some oid -> blogs w !! oid = Some blog ->
        OwnershipGuard (user (req w)) (BlogSchema.userId blog) = true ->
        updateBlog w = (inr tt, update_outcome oid blog w)
        /\ deleteBlog w
           = (inr tt, answered (JMessage "Blog post removed successfully")
                        (with_blogs (delete oid (blogs w)) w)))
  /\ (forall handler status message,
        fails_with handler status message w ->
        blogs (snd (handler w)) = blogs w
        /\ statusCode (res (snd (handler w))) = status).
Proof.
  intros Hkey id. repeat split.
  - eexists. split; [|apply updateBlog_bad_id; assumption]. reflexivity.
  - eexists. split; [|apply deleteBlog_bad_id; assumption]. reflexivity.
  - eexists. split; [|eapply updateBlog_not_found; eassumption]. reflexivity.
  - eexists. split; [|eapply deleteBlog_not_found; eassumption]. reflexivity.
  - eexists. split; [|eapply updateBlog_forbidden; eassumption]. reflexivity.
  - eexists. split; [|eapply deleteBlog_forbidden; eassumption]. reflexivity.
  - eapply updateBlog_allowed; try eassumption. eapply Hkey; eassumption.
  - eapply deleteBlog_allowed; eassumption.
  - destruct H as (e & _ & ->). reflexivity.
  - destruct H as (e & _ & ->). reflexivity.
Qed.

Lemma sample_keyed identity id fields : keyed_by_id (blogs (sample identity id fields)).
Proof.
  intros k b Hl. cbn in Hl. apply lookup_singleton_Some in Hl as [<- <-]. reflexivity.
Qed.

(** C1, the claim as stated fails: no blog has the id ["xyz"], yet PUT and
    DELETE on it answer 400 (invalid id format), not 404. *)
Lemma malformed_id_is_400_not_404 :
  let w := sample (Some alice) "xyz" [("title", "New")] in
  ObjectId.cast "xyz" = None
  /\ blogs w !! "xyz" = None
  /\ statusCode (res (respond updateBlog w)) = 400%nat
  /\ statusCode (res (respond deleteBlog w)) = 400%nat
  /\ sent (res (respond updateBlog w)) = Some (JError "Invalid blog post ID format" None).
Proof. repeat split; vm_compute; reflexivity. Qed.

Lemma ownership_guard_outcomes_witness :
  let id := "cccccccccccccccccccccccc" in
  (statusCode (res (snd (updateBlog (sample (Some bob) id [("title", "Mine")])))) = 403%nat
   /\ blogs (snd (updateBlog (sample (Some bob) id [("title", "Mine")]))) = {[ id := post ]})
  /\ statusCode (res (snd (deleteBlog (sample None id [])))) = 403%nat
  /\ blogs (snd (deleteBlog (sample (Some alice) id []))) = ∅
  /\ BlogSchema.title <$> blogs (snd (updateBlog (sample (Some alice) id [("title", "New")]))) !! id
     = Some "New"
  /\ statusCode (res (snd (deleteBlog (sample (Some alice) "dddddddddddddddddddddddd" []))))
     = 404%nat.
Proof.
  intros id.
  pose proof (ownership_guard_outcomes (sample (Some bob) id [("title", "Mine")])
                (sample_keyed _ _ _)) as (_ & _ & Hbob & _ & Hframe).
  pose proof (ownership_guard_outcomes (sample None id []) (sample_keyed _ _ _))
    as (_ & _ & Hnone & _ & Hframe').
  pose proof (ownership_guard_outcomes (sample (Some alice) id []) (sample_keyed _ _ _))
    as (_ & _ & _ & Hdel & _).
  pose proof (ownership_guard_outcomes (sample (Some alice) id [("title", "New")])
                (sample_keyed _ _ _)) as (_ & _ & _ & Hupd & _).
  pose proof (ownership_guard_outcomes (sample (Some alice) "dddddddddddddddddddddddd" [])
                (sample_keyed _ _ _)) as (_ & Hmiss & _ & _ & Hframe'').
  refine (conj (conj _ _) (conj _ (conj _ (conj _ _)))).
  - eapply (Hframe _ 403%nat), (Hbob id post); reflexivity.
  - eapply (Hframe _ 403%nat), (Hbob id post); reflexivity.
  - eapply Hframe', (Hnone id post); reflexivity.
  - destruct (Hdel id post) as [_ ->]; reflexivity.
  - destruct (Hupd id post) as [-> _]; reflexivity.
  - eapply Hframe'', (Hmiss "dddddddddddddddddddddddd" eq_refl eq_refl (Some alice)).
Defined.

Lemma respond_fails_with_witness :
  statusCode (res (respond deleteBlog (sample (Some bob) "cccccccccccccccccccccccc" [])))
  = 403%nat
  /\ exists stack,
       sent (res (respond deleteBlog (sample (Some bob) "cccccccccccccccccccccccc" [])))
       = Some (JError "User not authorized to delete this blog post" stack).
Proof.
  destruct (respond_fails_with deleteBlog 403
              "User not authorized to delete this blog post"
              (sample (Some bob) "cccccccccccccccccccccccc" [])) as (Hs & Hsent & _).
  - exists (Error.new "deleteBlog" "User not authorized to delete this blog post").
    split; [reflexivity|].
    apply (deleteBlog_forbidden _ "cccccccccccccccccccccccc" post); reflexivity.
  - discriminate.
  - split; [exact Hs | exact Hsent].
Defined.

(** ** The owner of a blog is never reassigned *)

(** [updateBlog] writes at most one document: the loaded one, with the
    four assigned fields, the setters applied and [updatedAt] renewed. *)
Lemma updateBlog_store (w : World) :
  keyed_by_id (blogs w) ->
  blogs (snd (updateBlog w)) = blogs w
  \/ exists oid blog,
       blogs w !! oid = Some blog
       /\ blogs (snd (updateBlog w))
          = <[oid := touched (now w) (BlogSchema.setters (assigned (body (req w)) blog))]>
              (blogs w).
Proof.
  intros Hkey.
  destruct (ObjectId.cast (params_id (req w))) as [oid|] eqn:Hc.
  2: { left. rewrite updateBlog_bad_id by assumption. reflexivity. }
  destruct (blogs w !! oid) as [blog|] eqn:Hl.
  2: { left. rewrite (updateBlog_not_found w oid) by assumption. reflexivity. }
  destruct (OwnershipGuard (user (req w)) (BlogSchema.userId blog)) eqn:Hg.
  2: { left. rewrite (updateBlog_forbidden w oid blog) by assumption. reflexivity. }
  rewrite (updateBlog_allowed w oid blog) by (try assumption; eapply Hkey; eassumption).
  unfold update_outcome. cbn [snd].
  destruct (BlogSchema.validate _); [|left; reflexivity].
  destruct (bool_decide _); [left; reflexivity|].
  right. exists oid, blog. split; [assumption | reflexivity].
Qed.

(** C8 (as amended): the blog update operation never reassigns the blog's
    owner: for every update request, whatever fields the body contains,
    every stored blog keeps its owner identifier ([userId]) and its
    [authorName] (and its [_id] and [createdAt]); no document appears or
    disappears; only [title], [category], [content], [image] and the
    [updatedAt] timestamp may change, and [updatedAt] changes only to the
    time of the request. *)
Theorem updateBlog_keeps_owner (w : World) (k : string) (b : BlogSchema.doc) :
  keyed_by_id (blogs w) ->
  blogs w !! k = Some b ->
  exists b',
    blogs (snd (updateBlog w)) !! k = Some b'
    /\ BlogSchema.userId b' = BlogSchema.userId b
    /\ BlogSchema.authorName b' = BlogSchema.authorName b
    /\ BlogSchema._id b' = BlogSchema._id b
    /\ BlogSchema.createdAt b' = BlogSchema.createdAt b
    /\ (BlogSchema.updatedAt b' = BlogSchema.updatedAt b \/ BlogSchema.updatedAt b' = now w)
    /\ dom (blogs (snd (updateBlog w))) = dom (blogs w).
Proof.
  intros Hkey Hb.
  destruct (updateBlog_store w Hkey) as [-> | (oid & blog & Hl & ->)].
  - exists b. repeat split; try assumption. left; reflexivity.
  - assert (Hdom : dom (<[oid := touched (now w)
                             (BlogSchema.setters (assigned (body (req w)) blog))]> (blogs w))
                   = dom (blogs w)).
    { apply dom_insert_lookup_L. eauto. }
    destruct (decide (oid = k)) as [-> | Hne].
    + assert (blog = b) as -> by congruence.
      eexists. rewrite lookup_insert_eq. split; [reflexivity|].
      cbn. repeat split; try reflexivity; try assumption. right; reflexivity.
    + exists b. rewrite lookup_insert_ne by assumption.
      repeat split; try assumption. left; reflexivity.
Qed.

(** C8, the claim as stated fails: besides the four assigned fields the
    stored [updatedAt] changes (here from 1000 to 2000) when the owner
    changes the title. *)
Lemma updateBlog_changes_updatedAt :
  let id := "cccccccccccccccccccccccc" in
  let w := sample (Some alice) id [("title", "New")] in
  BlogSchema.updatedAt <$> blogs w !! id = Some 1000
  /\ BlogSchema.updatedAt <$> blogs (snd (updateBlog w)) !! id = Some 2000
  /\ BlogSchema.title <$> blogs (snd (updateBlog w)) !! id = Some "New".
Proof. repeat split; vm_compute; reflexivity. Qed.

Lemma updateBlog_keeps_owner_witness :
  let id := "cccccccccccccccccccccccc" in
  let w := sample (Some alice) id
             [("title", "New"); ("userId", "bbbbbbbbbbbbbbbbbbbbbbbb"); ("authorName", "Bob")] in
  exists b',
    blogs (snd (updateBlog w)) !! id = Some b'
    /\ BlogSchema.userId b' = "aaaaaaaaaaaaaaaaaaaaaaaa"
    /\ BlogSchema.authorName b' = "Ann".
Proof.
  intros id w.
  destruct (updateBlog_keeps_owner w id post (sample_keyed _ _ _) eq_refl)
    as (b' & Hl & Hu & Ha & _).
  exists b'. split; [exact Hl|]. split; [exact Hu | exact Ha].
Defined.

(** ** The owner of a created blog is the requester *)

Lemma createBlog_refused (w : World) :
  creatable w = None ->
  exists status e, createBlog w = (inr tt, rejected status e w).
Proof.
  unfold creatable, createBlog. run. cbn.
  destruct (Js.truthy (body (req w) !! "title")); cbn.
  2: { intros _. do 2 eexists. reflexivity. }
  destruct (Js.truthy (body (req w) !! "category")); cbn.
  2: { intros _. do 2 eexists. reflexivity. }
  destruct (Js.truthy (body (req w) !! "content")); cbn.
  2: { intros _. do 2 eexists. reflexivity. }
  destruct (user (req w)) as [u|].
  2: { intros _. do 2 eexists. reflexivity. }
  destruct (String.eqb (UserSchema._id u) ""); [|discriminate].
  intros _. do 2 eexists. reflexivity.
Qed.

Lemma createBlog_passed (w : World) (u : UserSchema.doc) :
  creatable w = Some u ->
  let w1 := with_nextId (N.succ (nextId w)) w in
  let b := drafted u w in
  createBlog w
  = match BlogSchema.validate b with
    | [] =>
        match blogs w !! BlogSchema._id b with
        | Some _ =>
            (inr tt, with_next (Some (Some (Error.DuplicateKey "blogs" (BlogSchema._id b)))) w1)
        | None =>
            (inr tt, with_res {| statusCode := 201; sent := Some (JBlog (stamped (now w) b)) |}
                       (with_blogs (<[BlogSchema._id b := stamped (now w) b]> (blogs w)) w1))
        end
    | problems => (inr tt, rejected 400 (Error.ValidationError "Blog" problems) w1)
    end.
Proof.
  unfold creatable, createBlog. run. cbn.
  destruct (Js.truthy (body (req w) !! "title")); [|discriminate].
  destruct (Js.truthy (body (req w) !! "category")); [|discriminate].
  destruct (Js.truthy (body (req w) !! "content")); [|discriminate]. cbn.
  destruct (user (req w)) as [u'|]; [|discriminate].
  destruct (String.eqb (UserSchema._id u') "") eqn:Hid; [discriminate|].
  intros [= ->]. cbn. unfold Blog.new, Blog.insert. run. cbn.
  unfold drafted.
  replace (if Js.truthy (body (req w) !! "image") then default "" (body (req w) !! "image") else "")
    with (match (if Js.truthy (body (req w) !! "image") then body (req w) !! "image" else None) with
          | Some i => i
          | None => ""
          end)
    by (destruct (body (req w) !! "image"), (Js.truthy _); reflexivity).
  set (b := BlogSchema.setters _).
  destruct (BlogSchema.validate b) as [|p ps]; [|reflexivity].
  cbn. destruct (blogs w !! ObjectId.of_counter (nextId w)); reflexivity.
Qed.

(** [createBlog] reads four fields of the body and nothing else of it. *)
Lemma createBlog_reads_four_fields (w : World) (fields : gmap string string) :
  (forall key, key ∈ ["title"; "category"; "content"; "image"] ->
               fields !! key = body (req w) !! key) ->
  createBlog (with_body fields w)
  = (fst (createBlog w), with_body fields (snd (createBlog w))).
Proof.
  intros Hsame.
  assert (Ht : fields !! "title" = body (req w) !! "title") by (apply Hsame; set_solver).
  assert (Hc : fields !! "category" = body (req w) !! "category") by (apply Hsame; set_solver).
  assert (Hn : fields !! "content" = body (req w) !! "content") by (apply Hsame; set_solver).
  assert (Hi : fields !! "image" = body (req w) !! "image") by (apply Hsame; set_solver).
  unfold createBlog. run. cbn. rewrite Ht, Hc, Hn, Hi.
  destruct (Js.truthy (body (req w) !! "title")); [|reflexivity].
  destruct (Js.truthy (body (req w) !! "category")); [|reflexivity].
  destruct (Js.truthy (body (req w) !! "content")); [|reflexivity].
  destruct (user (req w)) as [u|]; [|reflexivity].
  destruct (String.eqb (UserSchema._id u) ""); [reflexivity|].
  unfold Blog.new, Blog.insert. run. cbn.
  destruct (BlogSchema.validate _) as [|p ps]; [|reflexivity].
  cbn. destruct (blogs w !! ObjectId.of_counter (nextId w)); reflexivity.
Qed.

(** C10: for every authenticated blog-creation request, the created
    blog's [userId] and [authorName] are the authenticated identity's id
    and name: the blog that is answered (201) and stored has them, every
    document of the collection after the request is an old one or one
    owned by the requester, and the outcome does not depend on any body
    field other than [title], [category], [content] and [image], so
    [userId] or [authorName] fields supplied in the body are ignored. *)
Theorem createBlog_owner_is_requester (w : World) :
  sent (res w) = None ->
  (forall b, sent (res (snd (createBlog w))) = Some (JBlog b) ->
     exists u, user (req w) = Some u
               /\ BlogSchema.userId b = UserSchema._id u
               /\ BlogSchema.authorName b = UserSchema.name u
               /\ statusCode (res (snd (createBlog w))) = 201%nat
               /\ blogs (snd (createBlog w)) !! BlogSchema._id b = Some b)
  /\ (forall k b, blogs (snd (createBlog w)) !! k = Some b ->
        blogs w !! k = Some b
        \/ exists u, user (req w) = Some u
                     /\ BlogSchema.userId b = UserSchema._id u
                     /\ BlogSchema.authorName b = UserSchema.name u)
  /\ (forall fields,
        (forall key, key ∈ ["title"; "category"; "content"; "image"] ->
                     fields !! key = body (req w) !! key) ->
        createBlog (with_body fields w)
        = (fst (createBlog w), with_body fields (snd (createBlog w)))).
Proof.
  intros Hfresh.
  split; [|split; [|apply createBlog_reads_four_fields]].
  - intros b. destruct (creatable w) as [u|] eqn:Hcr.
    + rewrite (createBlog_passed w u Hcr).
      assert (Hu : user (req w) = Some u).
      { unfold creatable in Hcr. destruct (_ && _); [|discriminate].
        destruct (user (req w)) as [u'|]; [|discriminate].
        destruct (String.eqb _ _); congruence. }
      destruct (BlogSchema.validate (drafted u w)) as [|p ps].
      * destruct (blogs w !! BlogSchema._id (drafted u w)); cbn; [congruence|].
        intros [= <-]. exists u. cbn. rewrite lookup_insert_eq. auto.
      * cbn. congruence.
    + destruct (createBlog_refused w Hcr) as (status & e & ->). cbn. congruence.
  - intros k b. destruct (creatable w) as [u|] eqn:Hcr.
    + rewrite (createBlog_passed w u Hcr).
      assert (Hu : user (req w) = Some u).
      { unfold creatable in Hcr. destruct (_ && _); [|discriminate].
        destruct (user (req w)) as [u'|]; [|discriminate].
        destruct (String.eqb _ _); congruence. }
      destruct (BlogSchema.validate (drafted u w)) as [|p ps]; [|cbn; auto].
      destruct (blogs w !! BlogSchema._id (drafted u w)) eqn:Hl; cbn; [auto|].
      destruct (decide (BlogSchema._id (drafted u w) = k)) as [<- | Hne].
      * cbn. rewrite lookup_insert_eq. intros [= <-]. right. exists u. cbn. auto.
      * cbn in Hne. rewrite lookup_insert_ne by assumption. auto.
    + destruct (createBlog_refused w Hcr) as (status & e & ->). cbn. auto.
Qed.

Lemma createBlog_owner_is_requester_witness :
  let w := sample (Some alice) ""
             [("title", "T"); ("category", "C"); ("content", "Body");
              ("userId", "bbbbbbbbbbbbbbbbbbbbbbbb"); ("authorName", "Bob")] in
  exists b,
    sent (res (snd (createBlog w))) = Some (JBlog b)
    /\ BlogSchema.userId b = "aaaaaaaaaaaaaaaaaaaaaaaa"
    /\ BlogSchema.authorName b = "Ann"
    /\ statusCode (res (snd (createBlog w))) = 201%nat.
Proof.
  intros w.
  assert (Hsent : exists b, sent (res (snd (createBlog w))) = Some (JBlog b)).
  { eexists. vm_compute. reflexivity. }
  destruct Hsent as [b Hb]. exists b. split; [exact Hb|].
  destruct (createBlog_owner_is_requester w eq_refl) as (Hown & _ & _).
  destruct (Hown b Hb) as (u & Hu & Hid & Hname & Hst & _).
  assert (u = alice) as -> by (cbn in Hu; congruence).
  split; [exact Hid|]. split; [exact Hname | exact Hst].
Defined.

(** [createBlog] refuses a request without a title, a category or a
    content with 400, and a request with these but without an
    authenticated identity with 401; nothing is stored. *)
Theorem createBlog_refusals (w : World) :
  (Js.truthy (body (req w) !! "title") && Js.truthy (body (req w) !! "category")
   && Js.truthy (body (req w) !! "content") = false ->
   fails_with createBlog 400 "Title, category, and content are required fields." w)
  /\ (Js.truthy (body (req w) !! "title") && Js.truthy (body (req w) !! "category")
      && Js.truthy (body (req w) !! "content") = true ->
      user (req w) = None ->
      fails_with createBlog 401 "User not authenticated or user data incomplete." w).
Proof.
  unfold fails_with, createBlog. run. cbn. split.
  - intros Hmiss.
    exists (Error.new "createBlog" "Title, category, and content are required fields.").
    split; [reflexivity|].
    destruct (Js.truthy (body (req w) !! "title")); [|reflexivity].
    destruct (Js.truthy (body (req w) !! "category")); [|reflexivity].
    destruct (Js.truthy (body (req w) !! "content")); [discriminate | reflexivity].
  - intros Hall Huser.
    exists (Error.new "createBlog" "User not authenticated or user data incomplete.").
    split; [reflexivity|].
    apply andb_true_iff in Hall as [Hall Hc]. apply andb_true_iff in Hall as [Ht Hg].
    rewrite Ht, Hg, Hc, Huser. reflexivity.
Qed.

Lemma createBlog_refusals_witness :
  statusCode (res (snd (createBlog (sample (Some alice) "" [("title", "T")])))) = 400%nat
  /\ statusCode (res (snd (createBlog
       (sample None "" [("title", "T"); ("category", "C"); ("content", "B")])))) = 401%nat.
Proof.
  destruct (createBlog_refusals (sample (Some alice) "" [("title", "T")])) as [H400 _].
  destruct (createBlog_refusals
              (sample None "" [("title", "T"); ("category", "C"); ("content", "B")]))
    as [_ H401].
  split.
  - destruct (H400 eq_refl) as (e & _ & ->). reflexivity.
  - destruct (H401 eq_refl eq_refl) as (e & _ & ->). reflexivity.
Defined.

(** ** Collections stay keyed by [_id] *)

(** The three mutating handlers keep the collection keyed by [_id]. *)
Theorem handlers_keep_keys (w : World) :
  keyed_by_id (blogs w) ->
  keyed_by_id (blogs (snd (createBlog w)))
  /\ keyed_by_id (blogs (snd (updateBlog w)))
  /\ keyed_by_id (blogs (snd (deleteBlog w))).
Proof.
  intros Hkey. split; [|split].
  - destruct (creatable w) as [u|] eqn:Hcr.
    + rewrite (createBlog_passed w u Hcr).
      destruct (BlogSchema.validate (drafted u w)); [|exact Hkey].
      destruct (blogs w !! BlogSchema._id (drafted u w)); [exact Hkey|].
      intros k b. cbn. intros Hl. apply lookup_insert_Some in Hl as [[<- <-] | [_ Hl]].
      * reflexivity.
      * apply Hkey, Hl.
    + destruct (createBlog_refused w Hcr) as (status & e & ->). exact Hkey.
  - destruct (updateBlog_store w Hkey) as [-> | (oid & blog & Hl & ->)]; [exact Hkey|].
    intros k b Hb. apply lookup_insert_Some in Hb as [[<- <-] | [_ Hb]].
    + cbn. apply Hkey, Hl.
    + apply Hkey, Hb.
  - destruct (ObjectId.cast (params_id (req w))) as [oid|] eqn:Hc.
    2: { rewrite deleteBlog_bad_id by assumption. exact Hkey. }
    destruct (blogs w !! oid) as [blog|] eqn:Hl.
    2: { rewrite (deleteBlog_not_found w oid) by assumption. exact Hkey. }
    destruct (OwnershipGuard (user (req w)) (BlogSchema.userId blog)) eqn:Hg.
    2: { rewrite (deleteBlog_forbidden w oid blog) by assumption. exact Hkey. }
    rewrite (deleteBlog_allowed w oid blog) by assumption.
    intros k b. cbn. intros Hb. apply lookup_delete_Some in Hb as [_ Hb]. apply Hkey, Hb.
Qed.

Lemma handlers_keep_keys_witness :
  keyed_by_id (blogs (snd (updateBlog
    (sample (Some alice) "cccccccccccccccccccccccc" [("title", "New")])))).
Proof.
  apply (handlers_keep_keys (sample (Some alice) "cccccccccccccccccccccccc" [("title", "New")])
           (sample_keyed _ _ _)).
Defined.

(** [deleteBlog] removes the requested document when the guard allows it,
    and nothing otherwise; no other document is touched. *)
Theorem deleteBlog_store (w : World) :
  blogs (snd (deleteBlog w)) = blogs w
  \/ exists oid blog,
       ObjectId.cast (params_id (req w)) = Some oid
       /\ blogs w !! oid = Some blog
       /\ OwnershipGuard (user (req w)) (BlogSchema.userId blog) = true
       /\ blogs (snd (deleteBlog w)) = delete oid (blogs w).
Proof.
  destruct (ObjectId.cast (params_id (req w))) as [oid|] eqn:Hc.
  2: { left. rewrite deleteBlog_bad_id by assumption. reflexivity. }
  destruct (blogs w !! oid) as [blog|] eqn:Hl.
  2: { left. rewrite (deleteBlog_not_found w oid) by assumption. reflexivity. }
  destruct (OwnershipGuard (user (req w)) (BlogSchema.userId blog)) eqn:Hg.
  2: { left. rewrite (deleteBlog_forbidden w oid blog) by assumption. reflexivity. }
  right. exists oid, blog. rewrite (deleteBlog_allowed w oid blog) by assumption. auto.
Qed.

(** ** Issuing and verifying tokens *)

Lemma base64url_not_sep c sep :
  jwt.is_base64url sep = false -> jwt.is_base64url c = true -> negb (Ascii.eqb c sep) = true.
Proof.
  intros Hs Hc. apply negb_true_iff. destruct (Ascii.eqb_spec c sep); [congruence | reflexivity].
Qed.

(** A segment contains neither a dot nor a space, and is not empty. *)
Lemma segment_free s sep :
  jwt.is_base64url sep = false -> jwt.is_segment s = true -> free_of sep s = true.
Proof.
  intros Hsep [_ Hs]%andb_true_iff.
  eapply all_chars_weaken; [|exact Hs]. intros c. apply base64url_not_sep, Hsep.
Qed.

Lemma segment_truthy s : jwt.is_segment s = true -> Js.truthy (Some s) = true.
Proof. intros [Hne _]%andb_true_iff. exact Hne. Qed.

Lemma append_truthy a b : Js.truthy (Some a) = true -> Js.truthy (Some (a ++ b)) = true.
Proof. destruct a; [discriminate | reflexivity]. Qed.

Section token_codec.
Context `{jwt.Codec}.

Lemma header_segment : jwt.is_segment jwt.header = true.
Proof. reflexivity. Qed.

Lemma split_compact secret p :
  Js.split "." (jwt.compact secret p)
  = [jwt.header; jwt.encodePayload p;
     jwt.hmacSHA256 secret (jwt.header ++ "." ++ jwt.encodePayload p)].
Proof.
  unfold jwt.compact. cbv zeta.
  rewrite !append_assoc, !(append_cons "." "").
  change ("" ++ ?x) with x.
  rewrite split_app by (apply segment_free; [reflexivity | apply header_segment]).
  rewrite split_app by (apply segment_free; [reflexivity | apply jwt.encode_segment]).
  rewrite split_free by (apply segment_free; [reflexivity | apply jwt.hmac_segment]).
  reflexivity.
Qed.

Lemma compact_truthy secret p : Js.truthy (Some (jwt.compact secret p)) = true.
Proof.
  unfold jwt.compact. cbv zeta. rewrite !append_assoc.
  apply append_truthy, segment_truthy, header_segment.
Qed.

Lemma compact_free sep secret p :
  jwt.is_base64url sep = false -> sep <> "."%char ->
  free_of sep (jwt.compact secret p) = true.
Proof.
  intros Hsep Hdot. unfold jwt.compact. cbv zeta.
  assert (Hd : free_of sep "." = true).
  { unfold free_of. rewrite all_chars_cons.
    destruct (Ascii.eqb_spec "." sep); [congruence | reflexivity]. }
  rewrite !free_of_app, Hd.
  rewrite !(segment_free _ sep Hsep) by
    (first [apply header_segment | apply jwt.encode_segment | apply jwt.hmac_segment]).
  reflexivity.
Qed.

(** Verifying an issued token: it is accepted before its expiry and
    [Expired] from then on. *)
Lemma check_compact secret p clock :
  jwt.check (jwt.compact secret p) secret clock
  = if jwt.exp p <=? clock then inl jwt.Expired else inr p.
Proof.
  unfold jwt.check. rewrite split_compact.
  rewrite String.eqb_refl, jwt.decode_encode, String.eqb_refl. reflexivity.
Qed.

Lemma verify_world token secret w : snd (jwt.verify token secret w) = w.
Proof.
  unfold jwt.verify. run. destruct (Js.truthy token); [|reflexivity].
  destruct (jwt.check _ _ _) as [[]|]; destruct (Js.truthy secret); reflexivity.
Qed.

Lemma verify_accepts_truthy token secret w p w' :
  jwt.verify token secret w = (inr p, w') -> Js.truthy token = true.
Proof.
  unfold jwt.verify. run. destruct (Js.truthy token); [reflexivity | discriminate].
Qed.

(** What [generateToken] returns: the compact token of the payload with
    the id, the time of issue and the expiry 30 days later. *)
Lemma generateToken_compact (s secret : string) (w : World) :
  JWT_SECRET (env w) = Some secret ->
  secret <> "" ->
  generateToken s w
  = (inr (jwt.compact secret {| jwt.id := s; jwt.iat := now w / 1000;
                                jwt.exp := now w / 1000 + jwt.days 30 |}), w).
Proof.
  intros Hsec Hne. unfold generateToken, jwt.sign. run. cbn. rewrite Hsec.
  destruct secret; [contradiction | reflexivity].
Qed.

(** [jwt.verify] on a token issued under the configured secret, before
    its expiry. *)
Lemma verify_compact (secret : string) (p : jwt.Payload) (w : World) :
  JWT_SECRET (env w) = Some secret ->
  secret <> "" ->
  now w / 1000 < jwt.exp p ->
  jwt.verify (Some (jwt.compact secret p)) (JWT_SECRET (env w)) w = (inr p, w).
Proof.
  intros Hsec Hne Hclock. unfold jwt.verify. run. rewrite Hsec.
  rewrite compact_truthy. cbn [from_option id]. rewrite check_compact.
  replace (jwt.exp p <=? now w / 1000) with false
    by (symmetry; apply Z.leb_gt; exact Hclock).
  destruct secret; [contradiction | reflexivity].
Qed.

(** C3: for every subject id [s], with a signing secret configured,
    [generateToken s] succeeds, and verifying the token it returns with the
    same secret, immediately or at any time before the 30 days have
    elapsed, succeeds and returns a payload whose [id] is [s]. *)
Theorem generateToken_then_verify (s secret : string) (w w' : World) :
  JWT_SECRET (env w) = Some secret ->
  secret <> "" ->
  JWT_SECRET (env w') = Some secret ->
  now w' / 1000 < now w / 1000 + jwt.days 30 ->
  exists token payload,
    generateToken s w = (inr token, w)
    /\ jwt.verify (Some token) (JWT_SECRET (env w')) w' = (inr payload, w')
    /\ jwt.id payload = s.
Proof.
  intros Hsec Hne Hsec' Hclock.
  do 2 eexists. split; [|split].
  - apply generateToken_compact; eassumption.
  - apply verify_compact; [exact Hsec' | exact Hne | exact Hclock].
  - reflexivity.
Qed.

Lemma check_well_formed token seg payload signature secret clock :
  well_formed token seg payload signature ->
  jwt.check token secret clock
  = if String.eqb signature (jwt.hmacSHA256 secret (jwt.header ++ "." ++ seg)) then
      if jwt.exp payload <=? clock then inl jwt.Expired else inr payload
    else inl jwt.InvalidSignature.
Proof.
  intros (-> & Hseg & Hsig & Hdec). unfold jwt.check.
  rewrite !(append_cons "." ""). change ("" ++ ?x) with x.
  rewrite split_app by reflexivity.
  rewrite split_app by exact Hseg.
  rewrite split_free by exact Hsig.
  rewrite String.eqb_refl, Hdec. reflexivity.
Qed.

Lemma check_parsed token secret clock :
  jwt.check token secret clock <> inl jwt.Malformed ->
  exists seg payload signature, well_formed token seg payload signature.
Proof.
  unfold jwt.check. intros Hc.
  pose proof (split_join "." token) as Hjoin.
  pose proof (split_parts_free "." token) as Hfree.
  destruct (Js.split "." token) as [|h [|p [|s [|x xs]]]]; try contradiction.
  destruct (String.eqb_spec h jwt.header) as [-> | Hh]; [|contradiction].
  destruct (jwt.decodePayload p) as [payload|] eqn:Hdec; [|contradiction].
  exists p, payload, s. unfold well_formed.
  apply Forall_cons in Hfree as [_ Hfree].
  apply Forall_cons in Hfree as [Hp Hfree].
  apply Forall_cons in Hfree as [Hs _].
  cbn [String.concat] in Hjoin. auto.
Qed.

(** C4: token verification, for every secret and time of verification:
    an issued token verifies to its own payload, so to the embedded
    subject, until its expiry and fails with [Expired] once the expiry has
    passed; an issued token whose signature text is replaced by any other
    fails with [InvalidSignature], as does any three-segment token whose
    signature is not the one the secret gives; a token that cannot be
    parsed fails with [Malformed]; and verification succeeds only for a
    parsable, correctly signed, unexpired token. *)
Theorem check_verdicts (secret : string) (clock : Z) :
  (forall p, jwt.exp p <= clock ->
             jwt.check (jwt.compact secret p) secret clock = inl jwt.Expired)
  /\ (forall p, clock < jwt.exp p ->
                jwt.check (jwt.compact secret p) secret clock = inr p)
  /\ (forall p signature,
        free_of "." signature = true ->
        signature <> jwt.hmacSHA256 secret (jwt.header ++ "." ++ jwt.encodePayload p) ->
        jwt.check (jwt.header ++ "." ++ jwt.encodePayload p ++ "." ++ signature) secret clock
        = inl jwt.InvalidSignature)
  /\ (forall token seg payload signature,
        well_formed token seg payload signature ->
        signature <> jwt.hmacSHA256 secret (jwt.header ++ "." ++ seg) ->
        jwt.check token secret clock = inl jwt.InvalidSignature)
  /\ (forall token,
        ~ (exists seg payload signature, well_formed token seg payload signature) ->
        jwt.check token secret clock = inl jwt.Malformed)
  /\ (forall token payload,
        jwt.check token secret clock = inr payload <->
        exists seg,
          well_formed token seg payload (jwt.hmacSHA256 secret (jwt.header ++ "." ++ seg))
          /\ clock < jwt.exp payload).
Proof.
  assert (Hbad : forall token seg payload signature,
             well_formed token seg payload signature ->
             signature <> jwt.hmacSHA256 secret (jwt.header ++ "." ++ seg) ->
             jwt.check token secret clock = inl jwt.InvalidSignature).
  { intros token seg payload signature Hwf Hne.
    rewrite (check_well_formed _ _ _ _ _ _ Hwf).
    destruct (String.eqb_spec signature (jwt.hmacSHA256 secret (jwt.header ++ "." ++ seg)));
      [contradiction | reflexivity]. }
  split; [|split; [|split; [|split; [|split]]]].
  - intros p Hexp. rewrite check_compact.
    destruct (Z.leb_spec (jwt.exp p) clock); [reflexivity | lia].
  - intros p Hexp. rewrite check_compact.
    destruct (Z.leb_spec (jwt.exp p) clock); [lia | reflexivity].
  - intros p signature Hfree Hne.
    apply (Hbad _ (jwt.encodePayload p) p signature); [|exact Hne].
    repeat split; try assumption.
    + apply segment_free; [reflexivity | apply jwt.encode_segment].
    + apply jwt.decode_encode.
  - exact Hbad.
  - intros token Hno.
    destruct (jwt.check token secret clock) as [[| |]|p] eqn:Hc; [reflexivity|..];
      destruct Hno; apply (check_parsed token secret clock); rewrite Hc; discriminate.
  - intros token payload. split.
    + intros Hok.
      destruct (check_parsed token secret clock) as (seg & payload' & signature & Hwf);
        [congruence|].
      rewrite (check_well_formed _ _ _ _ _ _ Hwf) in Hok.
      destruct (String.eqb signature (jwt.hmacSHA256 secret (jwt.header ++ "." ++ seg)))
        eqn:Hs; [|discriminate].
      apply String.eqb_eq in Hs. subst signature.
      destruct (Z.leb_spec (jwt.exp payload') clock); [discriminate|].
      assert (payload' = payload) as -> by congruence.
      exists seg. split; assumption.
    + intros (seg & Hwf & Hexp).
      rewrite (check_well_formed _ _ _ _ _ _ Hwf), String.eqb_refl.
      destruct (Z.leb_spec (jwt.exp payload) clock); [lia | reflexivity].
Qed.

End token_codec.

Lemma generateToken_then_verify_witness :
  exists token payload,
    @generateToken codec_double "aaaaaaaaaaaaaaaaaaaaaaaa" (initial None)
    = (inr token, initial None)
    /\ @jwt.verify codec_double (Some token) (Some "secret") (initial None)
       = (inr payload, initial None)
    /\ jwt.id payload = "aaaaaaaaaaaaaaaaaaaaaaaa".
Proof.
  apply (@generateToken_then_verify codec_double "aaaaaaaaaaaaaaaaaaaaaaaa" "secret"
           (initial None) (initial None)).
  - reflexivity.
  - discriminate.
  - reflexivity.
  - vm_compute. reflexivity.
Defined.

Lemma check_verdicts_witness :
  let input := jwt.header ++ "." ++ Doubles.encodePayload
                 {| jwt.id := "aaaaaaaaaaaaaaaaaaaaaaaa"; jwt.iat := 2;
                    jwt.exp := 2 + jwt.days 30 |} in
  @jwt.check codec_double ann_token "secret" (2 + jwt.days 30) = inl jwt.Expired
  /\ @jwt.check codec_double ann_token "secret" 2
     = inr {| jwt.id := "aaaaaaaaaaaaaaaaaaaaaaaa"; jwt.iat := 2; jwt.exp := 2 + jwt.days 30 |}
  /\ @jwt.check codec_double (input ++ "." ++ "tampered") "secret" 2
     = inl jwt.InvalidSignature
  /\ @jwt.check codec_double "garbage" "secret" 2 = inl jwt.Malformed.
Proof.
  intros input.
  destruct (@check_verdicts codec_double "secret" (2 + jwt.days 30)) as (Hexp & _).
  destruct (@check_verdicts codec_double "secret" 2) as (_ & Hok & Hsig & _ & Hmal & _).
  refine (conj _ (conj _ (conj _ _))).
  - apply Hexp. unfold jwt.days. cbn. lia.
  - apply Hok. unfold jwt.days. cbn. lia.
  - apply (Hsig {| jwt.id := "aaaaaaaaaaaaaaaaaaaaaaaa"; jwt.iat := 2;
                   jwt.exp := 2 + jwt.days 30 |} "tampered"); [reflexivity|].
    intros Heq. vm_compute in Heq. discriminate.
  - apply Hmal. intros (seg & payload & signature & Heq & _). discriminate.
Defined.

(** ** The identity resolver *)

Section resolver.
Context `{jwt.Codec}.

Lemma protect_no_bearer (w : World) :
  bearer w = false ->
  protect w = (inl no_token_provided,
               with_res {| statusCode := 401; sent := sent (res w) |} w).
Proof.
  intros Hb. unfold protect. run. cbn. fold (bearer w). rewrite Hb. reflexivity.
Qed.

Lemma protect_verify_fails (w : World) (e : Error.t) :
  bearer w = true ->
  fst (jwt.verify (presented w) (JWT_SECRET (env w)) w) = inl e ->
  protect w
  = (inl token_failed,
     with_res {| statusCode := 401; sent := sent (res w) |}
       (with_console (console w ++ ["Authentication error: " ++ Error.message e]) w)).
Proof.
  intros Hb Hv. unfold protect. run. cbn. fold (bearer w). rewrite Hb.
  fold (presented w).
  pose proof (verify_world (presented w) (JWT_SECRET (env w)) w) as Hw.
  destruct (jwt.verify (presented w) (JWT_SECRET (env w)) w) as [r w1].
  cbn in Hv, Hw. subst r w1. reflexivity.
Qed.

Lemma protect_no_account (w : World) (payload : jwt.Payload) :
  bearer w = true ->
  fst (jwt.verify (presented w) (JWT_SECRET (env w)) w) = inr payload ->
  account_of payload w = None ->
  exists w',
    protect w = (inl token_failed, w')
    /\ statusCode (res w') = 401%nat
    /\ nextCalled w' = nextCalled w
    /\ blogs w' = blogs w /\ users w' = users w.
Proof.
  intros Hb Hv Ha. unfold protect. run. cbn. fold (bearer w). rewrite Hb.
  fold (presented w).
  pose proof (verify_world (presented w) (JWT_SECRET (env w)) w) as Hw.
  destruct (jwt.verify (presented w) (JWT_SECRET (env w)) w) as [r w1].
  cbn in Hv, Hw. subst r w1. cbn.
  unfold account_of in Ha. unfold User.select_minus_password, User.findById. run.
  destruct (ObjectId.cast (jwt.id payload)) as [oid|]; cbn in Ha |- *.
  - rewrite Ha. cbn. eexists. split; [reflexivity|]. cbn. auto.
  - eexists. split; [reflexivity|]. cbn. auto.
Qed.

Lemma protect_accepts (w : World) (payload : jwt.Payload) (u : UserSchema.doc) :
  bearer w = true ->
  fst (jwt.verify (presented w) (JWT_SECRET (env w)) w) = inr payload ->
  account_of payload w = Some u ->
  protect w
  = (inr tt, with_next (Some None) (as_user (Some (UserSchema.without_password u)) w)).
Proof.
  intros Hb Hv Ha. unfold protect. run. cbn. fold (bearer w). rewrite Hb.
  fold (presented w).
  pose proof (verify_world (presented w) (JWT_SECRET (env w)) w) as Hw.
  destruct (jwt.verify (presented w) (JWT_SECRET (env w)) w) as [r w1] eqn:Hrun.
  cbn in Hv, Hw. subst r w1.
  pose proof (verify_accepts_truthy _ _ _ _ _ Hrun) as Htok.
  unfold account_of in Ha. unfold User.select_minus_password, User.findById. run.
  destruct (ObjectId.cast (jwt.id payload)) as [oid|]; cbn in Ha |- *; [|discriminate].
  rewrite Ha. cbn. rewrite Htok. reflexivity.
Qed.

(** The two ways [protect] ends. *)
Lemma protect_cases (w : World) :
  (resolve w = None ->
   exists e w',
     protect w = (inl e, w')
     /\ (e = no_token_provided \/ e = token_failed)
     /\ statusCode (res w') = 401%nat
     /\ nextCalled w' = nextCalled w
     /\ blogs w' = blogs w /\ users w' = users w)
  /\ (forall u, resolve w = Some u ->
        protect w
        = (inr tt, with_next (Some None) (as_user (Some (UserSchema.without_password u)) w))).
Proof.
  unfold resolve. destruct (bearer w) eqn:Hb.
  2: { split; [|discriminate]. intros _. rewrite (protect_no_bearer w Hb).
       do 2 eexists. split; [reflexivity|]. cbn. auto 10. }
  destruct (fst (jwt.verify (presented w) (JWT_SECRET (env w)) w)) as [e|payload] eqn:Hv.
  { split; [|discriminate]. intros _. rewrite (protect_verify_fails w e Hb Hv).
    do 2 eexists. split; [reflexivity|]. cbn. auto 10. }
  split.
  - intros Ha. destruct (protect_no_account w payload Hb Hv Ha) as (w' & -> & Hrest).
    do 2 eexists. split; [reflexivity|]. split; [right; reflexivity | exact Hrest].
  - intros u Ha. apply (protect_accepts w payload u Hb Hv Ha).
Qed.

(** C2: for every request to a protected route, [protect] rejects exactly
    when the credential header is absent or lacks the bearer prefix, or the
    token fails verification, or no account exists for the token's
    subject; every rejection sets the one status 401 with one of two fixed
    messages (never the internal reason) and does not call [next];
    otherwise the looked-up account, without its password hash, is
    attached as [req.user] and [next()] is called; in no case are the
    collections changed. *)
Theorem protect_resolves (w : World) :
  let verdict := fst (jwt.verify (presented w) (JWT_SECRET (env w)) w) in
  (blogs (snd (protect w)) = blogs w /\ users (snd (protect w)) = users w)
  /\ ((exists e, fst (protect w) = inl e)
      <-> (bearer w = false
           \/ (exists e, verdict = inl e)
           \/ (exists payload, verdict = inr payload /\ account_of payload w = None)))
  /\ (forall e, fst (protect w) = inl e ->
        statusCode (res (snd (protect w))) = 401%nat
        /\ nextCalled (snd (protect w)) = nextCalled w
        /\ (e = no_token_provided \/ e = token_failed))
  /\ (forall u, resolve w = Some u ->
        protect w
        = (inr tt, with_next (Some None) (as_user (Some (UserSchema.without_password u)) w))
        /\ UserSchema.password (UserSchema.without_password u) = None)
  /\ (fst (protect w) = inr tt <-> exists u, resolve w = Some u).
Proof.
  intros verdict. unfold resolve. fold verdict.
  destruct (bearer w) eqn:Hb.
  2: { rewrite (protect_no_bearer w Hb). cbn.
       split; [split; reflexivity|]. split; [|split; [|split]].
       - split; [intros _; left; reflexivity | intros _; eexists; reflexivity].
       - intros e0 [= <-]. auto.
       - discriminate.
       - split; [discriminate | intros [u Hu]; discriminate]. }
  destruct verdict as [e|payload] eqn:Hv; subst verdict.
  { rewrite (protect_verify_fails w e Hb Hv). cbn.
    split; [split; reflexivity|]. split; [|split; [|split]].
    - split; [intros _; right; left; eexists; reflexivity | intros _; eexists; reflexivity].
    - intros e0 [= <-]. auto.
    - discriminate.
    - split; [discriminate | intros [u Hu]; discriminate]. }
  destruct (account_of payload w) as [u|] eqn:Ha.
  - rewrite (protect_accepts w payload u Hb Hv Ha). cbn.
    split; [split; reflexivity|]. split; [|split; [|split]].
    + split; [intros [e He]; discriminate|].
      intros [Hf | [[e He] | (p & Hp & Hn)]]; try discriminate. congruence.
    + discriminate.
    + intros u' [= <-]. split; reflexivity.
    + split; [intros _; eexists; reflexivity | intros _; reflexivity].
  - destruct (protect_no_account w payload Hb Hv Ha) as (w' & -> & Hs & Hn & Hbl & Hus).
    cbn. split; [split; assumption|]. split; [|split; [|split]].
    + split; [intros _; right; right; eauto | intros _; eexists; reflexivity].
    + intros e0 [= <-]. auto.
    + discriminate.
    + split; [discriminate | intros [u Hu]; discriminate].
Qed.

(** The token [generateToken] returns for the id of a stored account,
    presented as [Bearer <token>] before its expiry, makes [protect]
    attach that account, without its password, and call [next()]. *)
Theorem protect_accepts_issued_token (s oid secret token : string) (u : UserSchema.doc)
    (w0 w : World) :
  JWT_SECRET (env w0) = Some secret ->
  secret <> "" ->
  generateToken s w0 = (inr token, w0) ->
  JWT_SECRET (env w) = Some secret ->
  now w / 1000 < now w0 / 1000 + jwt.days 30 ->
  authorization (req w) = Some ("Bearer " ++ token) ->
  ObjectId.cast s = Some oid ->
  users w !! oid = Some u ->
  protect w
  = (inr tt, with_next (Some None) (as_user (Some (UserSchema.without_password u)) w)).
Proof.
  intros Hsec Hne Hgen Hsec' Hclock Hauth Hcast Hu.
  set (payload := {| jwt.id := s; jwt.iat := now w0 / 1000;
                     jwt.exp := now w0 / 1000 + jwt.days 30 |}).
  assert (Htok : token = jwt.compact secret payload).
  { rewrite (generateToken_compact s secret w0 Hsec Hne) in Hgen.
    injection Hgen as Heq. symmetry. exact Heq. }
  pose proof (verify_compact secret payload w Hsec' Hne Hclock) as Hver.
  assert (Hid : jwt.id payload = s) by reflexivity.
  assert (Hpres : presented w = Some token).
  { unfold presented. rewrite Hauth. cbn [from_option id].
    change ("Bearer " ++ token) with ("Bearer" ++ String " " token).
    rewrite split_app by reflexivity.
    rewrite split_free; [reflexivity|].
    rewrite Htok. apply compact_free; [reflexivity | discriminate]. }
  apply (protect_accepts w payload u).
  - unfold bearer. rewrite Hauth. reflexivity.
  - rewrite Hpres, Htok, Hver. reflexivity.
  - unfold account_of. rewrite Hid, Hcast. exact Hu.
Qed.

(** A protected route, [router.put("/:id", protect, updateBlog)] and the
    like: when the resolver finds no identity the handler is not run, the
    answer is the 401 error and the collections are unchanged; otherwise
    the handler runs on the request with the identity attached. *)
Theorem protected_route (handler : M unit) (w : World) :
  (resolve w = None ->
   statusCode (res (protected handler w)) = 401%nat
   /\ blogs (protected handler w) = blogs w
   /\ users (protected handler w) = users w
   /\ exists e stack,
        (e = no_token_provided \/ e = token_failed)
        /\ sent (res (protected handler w)) = Some (JError (Error.message e) stack))
  /\ (forall u, resolve w = Some u ->
        protected handler w
        = respond handler
            (with_next None (as_user (Some (UserSchema.without_password u)) w))).
Proof.
  destruct (protect_cases w) as [Hrej Hacc].
  split.
  - intros Hnone. unfold protected.
    destruct (Hrej Hnone) as (e & w' & -> & He & Hs & _ & Hb & Hu).
    cbn. unfold errorHandler. run. cbn. rewrite Hs. cbn.
    repeat split; try assumption. exists e. eexists. split; [exact He | reflexivity].
  - intros u Hsome. unfold protected. rewrite (Hacc u Hsome). reflexivity.
Qed.

End resolver.

Lemma protected_route_witness :
  statusCode (res (@protected codec_double deleteBlog (with_header None))) = 401%nat
  /\ blogs (@protected codec_double deleteBlog (with_header None))
     = {[ "cccccccccccccccccccccccc" := post ]}.
Proof.
  destruct (@protected_route codec_double deleteBlog (with_header None)) as [Hrej _].
  destruct (Hrej eq_refl) as (Hs & Hb & _). split; [exact Hs | exact Hb].
Defined.

Lemma protect_resolves_witness :
  (@protect codec_double (with_header (Some ("Bearer " ++ ann_token)))
   = (inr tt, with_next (Some None)
                (as_user (Some alice) (with_header (Some ("Bearer " ++ ann_token))))))
  /\ statusCode (res (snd (@protect codec_double (with_header None)))) = 401%nat
  /\ statusCode (res (snd (@protect codec_double (with_header (Some "Bearer garbage")))))
     = 401%nat.
Proof.
  destruct (@protect_resolves codec_double (with_header (Some ("Bearer " ++ ann_token))))
    as (_ & _ & _ & Hacc & _).
  destruct (@protect_resolves codec_double (with_header None)) as (_ & Hiff & Hrej & _ & _).
  destruct (@protect_resolves codec_double (with_header (Some "Bearer garbage")))
    as (_ & Hiff' & Hrej' & _ & _).
  refine (conj _ (conj _ _)).
  - apply (Hacc alice). vm_compute. reflexivity.
  - destruct (proj2 Hiff (or_introl eq_refl)) as [e He]. apply (Hrej e He).
  - assert (Hfail : exists e, fst (@protect codec_double (with_header (Some "Bearer garbage")))
                              = inl e).
    { apply Hiff'. right. left. eexists. vm_compute. reflexivity. }
    destruct Hfail as [e He]. apply (Hrej' e He).
Defined.

Lemma protect_accepts_issued_token_witness :
  @protect codec_double (with_header (Some ("Bearer " ++ ann_token)))
  = (inr tt, with_next (Some None)
               (as_user (Some alice) (with_header (Some ("Bearer " ++ ann_token))))).
Proof.
  apply (@protect_accepts_issued_token codec_double "aaaaaaaaaaaaaaaaaaaaaaaa"
           "aaaaaaaaaaaaaaaaaaaaaaaa" "secret" ann_token alice
           (sample None "" []) (with_header (Some ("Bearer " ++ ann_token))));
    try reflexivity.
  discriminate.
Defined.

(** ** The account service *)

Lemma first_with_email_none (m : gmap string UserSchema.doc) (e : string) :
  User.with_email (Js.toLowerCase e) m = ∅ ->
  User.first_with_email e m = None.
Proof.
  intros Hnone. unfold User.first_with_email. rewrite Hnone, map_to_list_empty.
  reflexivity.
Qed.

Lemma first_with_email_found (m : gmap string UserSchema.doc) (e k : string)
    (u : UserSchema.doc) :
  m !! k = Some u ->
  UserSchema.email u = Js.toLowerCase e ->
  exists u', User.first_with_email e m = Some u'
             /\ UserSchema.email u' = Js.toLowerCase e.
Proof.
  intros Hk He. unfold User.first_with_email.
  assert (Hin : User.with_email (Js.toLowerCase e) m !! k = Some u).
  { unfold User.with_email. apply map_lookup_filter_Some. split; assumption. }
  destruct (map_to_list (User.with_email (Js.toLowerCase e) m))
    as [|[k' u'] l] eqn:Hl.
  - apply map_to_list_empty_iff in Hl. rewrite Hl in Hin. rewrite lookup_empty in Hin.
    discriminate.
  - exists u'. split; [reflexivity|].
    assert (Hel : (k', u') ∈ map_to_list (User.with_email (Js.toLowerCase e) m)).
    { rewrite Hl. left. }
    apply elem_of_map_to_list in Hel. unfold User.with_email in Hel.
    apply map_lookup_filter_Some in Hel as [_ Hp]. exact Hp.
Qed.

Lemma findOne_email_none (w : World) (e : string) :
  User.with_email (Js.toLowerCase e) (users w) = ∅ ->
  User.findOne_email e w = (inr None, w).
Proof.
  intros Hnone. unfold User.findOne_email. run.
  rewrite (first_with_email_none _ _ Hnone). reflexivity.
Qed.

Lemma findOne_email_found (w : World) (e k : string) (u : UserSchema.doc) :
  users w !! k = Some u ->
  UserSchema.email u = Js.toLowerCase e ->
  exists u', User.findOne_email e w = (inr (Some u'), w)
             /\ UserSchema.email u' = Js.toLowerCase e
             /\ UserSchema.password u' = None.
Proof.
  intros Hk He. unfold User.findOne_email. run.
  destruct (first_with_email_found _ _ _ _ Hk He) as (u' & -> & Hu').
  exists (UserSchema.without_password u'). repeat split. exact Hu'.
Qed.

Lemma toLowerCase_empty (s : string) : Js.toLowerCase s = "" <-> s = "".
Proof. destruct s; cbn; split; congruence. Qed.

Section account_service.
Context `{jwt.Codec} `{bcrypt.Api} `{EmailPattern}.

Lemma loginUser_unknown_email (w : World) :
  User.with_email (Js.toLowerCase (default "" (body (req w) !! "email"))) (users w) = ∅ ->
  loginUser w = (inr tt, rejected 401 InvalidCredentials w).
Proof.
  intros Hnone. unfold loginUser, User.findOne_email_select_password. run. cbn.
  rewrite (first_with_email_none _ _ Hnone). reflexivity.
Qed.

Lemma loginUser_wrong_password (w : World) (u : UserSchema.doc) (hashed : string) :
  User.findOne_email_select_password (default "" (body (req w) !! "email")) w
  = (inr (Some u), w) ->
  UserSchema.password u = Some hashed ->
  bcrypt.compare_with (default "" (body (req w) !! "password")) hashed = false ->
  loginUser w = (inr tt, rejected 401 InvalidCredentials w).
Proof.
  intros Hfound Hhash Hcmp. unfold loginUser. run. cbn.
  rewrite Hfound. unfold User.comparePassword, bcrypt.compare. rewrite Hhash. run. cbn.
  rewrite Hcmp. reflexivity.
Qed.

(** An account stored without a password hash: [bcrypt.compare] rejects,
    the error goes to [next] under the status 200, and the answer is 500
    with the message of the library. *)
Lemma loginUser_without_hash (w : World) (u : UserSchema.doc) :
  User.findOne_email_select_password (default "" (body (req w) !! "email")) w
  = (inr (Some u), w) ->
  UserSchema.password u = None ->
  statusCode (res w) = 200%nat ->
  loginUser w
  = (inr tt, with_next (Some (Some (Error.new "compare" "Illegal arguments: string, undefined"))) w)
  /\ statusCode (res (respond loginUser w)) = 500%nat.
Proof.
  intros Hfound Hhash Hstatus.
  assert (Hrun : loginUser w
                 = (inr tt, with_next (Some (Some (Error.new "compare"
                                                     "Illegal arguments: string, undefined"))) w)).
  { unfold loginUser. run. cbn. rewrite Hfound.
    unfold User.comparePassword, bcrypt.compare. rewrite Hhash. reflexivity. }
  split; [exact Hrun|].
  unfold respond. rewrite Hrun. cbn. rewrite Hstatus. reflexivity.
Qed.

(** C6: a login whose email matches no registered account and a login
    with the email of an existing account, stored with its password hash,
    and a password that does not verify against that hash produce the
    same response: status 401 and the same body, with the message
    "Invalid email or password". *)
Theorem login_failures_identical (w1 w2 : World) (u : UserSchema.doc) (hashed : string) :
  NODE_ENV (env w1) = NODE_ENV (env w2) ->
  User.with_email (Js.toLowerCase (default "" (body (req w1) !! "email"))) (users w1) = ∅ ->
  User.findOne_email_select_password (default "" (body (req w2) !! "email")) w2
  = (inr (Some u), w2) ->
  UserSchema.password u = Some hashed ->
  bcrypt.compare_with (default "" (body (req w2) !! "password")) hashed = false ->
  res (respond loginUser w1) = res (respond loginUser w2)
  /\ statusCode (res (respond loginUser w1)) = 401%nat
  /\ exists stack,
       sent (res (respond loginUser w1)) = Some (JError "Invalid email or password" stack).
Proof.
  intros Henv Hnone Hfound Hhash Hcmp. unfold respond.
  rewrite (loginUser_unknown_email w1 Hnone),
    (loginUser_wrong_password w2 u hashed Hfound Hhash Hcmp).
  cbn. rewrite Henv. repeat split. eexists. reflexivity.
Qed.

Lemma acceptable_valid (fields : gmap string string) :
  acceptable fields
  <-> User.validate (submitted (fields !! "name") (fields !! "email") (fields !! "password"))
      = [].
Proof.
  unfold acceptable, submitted, User.validate, BlogSchema.required.
  cbn [UserSchema.setters UserSchema.name UserSchema.email UserSchema.password].
  destruct (String.eqb_spec (Js.trim (default "" (fields !! "name"))) "") as [Hn|Hn].
  { split; [intros (Hne & _); contradiction | discriminate]. }
  destruct (String.eqb_spec (Js.toLowerCase (default "" (fields !! "email"))) "") as [He|He].
  { split; [|discriminate]. intros (_ & Hne & _).
    apply (proj1 (toLowerCase_empty _)) in He. contradiction. }
  assert (He' : default "" (fields !! "email") <> "").
  { intros Heq. apply He, (proj2 (toLowerCase_empty _)), Heq. }
  destruct (email_match (Js.toLowerCase (default "" (fields !! "email")))).
  2: { split; [|discriminate]. intros (_ & _ & Hm & _). discriminate. }
  destruct (fields !! "password") as [p|]; cbn [default from_option id].
  2: { split; [|discriminate]. intros (_ & _ & _ & Hp). cbn in Hp. lia. }
  destruct (String.eqb_spec p "") as [Hp|Hp].
  { subst p. split; [|discriminate]. intros (_ & _ & _ & Hlen). cbn in Hlen. lia. }
  destruct (Nat.ltb_spec (String.length p) 6) as [Hlen|Hlen].
  - split; [|discriminate]. intros (_ & _ & _ & Hlen'). lia.
  - split; [reflexivity|]. intros _. repeat split; assumption.
Qed.

Lemma signupUser_invalid (w : World) (p : string) (ps : list string) :
  User.validate (submitted (body (req w) !! "name") (body (req w) !! "email")
                   (body (req w) !! "password")) = p :: ps ->
  signupUser w = (inr tt, rejected 400 (Error.ValidationError "User" (p :: ps)) w).
Proof.
  intros Hv. unfold signupUser. run. rewrite Hv. reflexivity.
Qed.

Lemma signupUser_duplicate (w : World) (k : string) (u : UserSchema.doc) :
  acceptable (body (req w)) ->
  users w !! k = Some u ->
  UserSchema.email u = Js.toLowerCase (default "" (body (req w) !! "email")) ->
  signupUser w = (inr tt, rejected 400 DuplicateEmail w).
Proof.
  intros Hok Hk Hu. apply acceptable_valid in Hok.
  unfold signupUser. run. rewrite Hok. cbn.
  destruct (findOne_email_found w _ k u Hk Hu) as (u' & -> & _). reflexivity.
Qed.

(** The unique index of models/User.js: a document whose lower-cased email
    is already stored is not inserted. *)
Lemma create_duplicate (w : World) (name email password : string) :
  User.with_email (Js.toLowerCase email) (users w) <> ∅ ->
  exists e w', User.create name email password w = (inl e, w') /\ users w' = users w.
Proof.
  intros Hdup. unfold User.create. run. cbn.
  destruct (User.validate _) as [|p ps]; [|do 2 eexists; split; reflexivity].
  unfold User.pre_save, bcrypt.genSalt, bcrypt.hash. run. cbn.
  rewrite bool_decide_eq_false_2 by exact Hdup.
  do 2 eexists. split; reflexivity.
Qed.

(** C7: when registration is attempted with an email equal,
    case-insensitively, to the email of an already registered account
    (stored in lower case, as the schema's setter leaves it), the attempt
    fails with 400 and nothing is persisted: the users collection, the
    first account included, is unchanged.  The failure is
    [DuplicateEmail] when the fields pass the validation, which comes
    first; with a missing or invalid field it is the validation error.
    The unique index alone already refuses such a document. *)
Theorem duplicate_signup_rejected (w : World) (k : string) (u : UserSchema.doc) :
  users w !! k = Some u ->
  Js.toLowerCase (UserSchema.email u) = UserSchema.email u ->
  Js.toLowerCase (default "" (body (req w) !! "email")) = Js.toLowerCase (UserSchema.email u) ->
  (acceptable (body (req w)) -> signupUser w = (inr tt, rejected 400 DuplicateEmail w))
  /\ (~ acceptable (body (req w)) ->
      exists problems,
        signupUser w = (inr tt, rejected 400 (Error.ValidationError "User" problems) w))
  /\ users (snd (signupUser w)) = users w
  /\ users (snd (signupUser w)) !! k = Some u
  /\ statusCode (res (respond signupUser w)) = 400%nat
  /\ (forall name password,
        exists e w', User.create name (default "" (body (req w) !! "email")) password w
                     = (inl e, w')
                     /\ users w' = users w).
Proof.
  intros Hk Hlow Hsame.
  assert (Hu : UserSchema.email u = Js.toLowerCase (default "" (body (req w) !! "email")))
    by congruence.
  assert (Hcases : signupUser w = (inr tt, rejected 400 DuplicateEmail w)
                   \/ exists problems,
                        signupUser w
                        = (inr tt, rejected 400 (Error.ValidationError "User" problems) w)).
  { destruct (User.validate (submitted (body (req w) !! "name") (body (req w) !! "email")
                               (body (req w) !! "password"))) as [|p ps] eqn:Hv.
    - left. apply (signupUser_duplicate w k u); [apply acceptable_valid|..]; assumption.
    - right. exists (p :: ps). apply signupUser_invalid, Hv. }
  split; [|split].
  - intros Hok. apply (signupUser_duplicate w k u Hok Hk Hu).
  - intros Hbad.
    destruct (User.validate (submitted (body (req w) !! "name") (body (req w) !! "email")
                               (body (req w) !! "password"))) as [|p ps] eqn:Hv.
    + exfalso. apply Hbad, acceptable_valid, Hv.
    + exists (p :: ps). apply signupUser_invalid, Hv.
  - unfold respond.
    destruct Hcases as [-> | (problems & ->)].
    + repeat split; try assumption.
      intros name password. apply create_duplicate.
      intros Hempty.
      assert (Hin : User.with_email (Js.toLowerCase (default "" (body (req w) !! "email")))
                      (users w) !! k = Some u).
      { unfold User.with_email. apply map_lookup_filter_Some. split; assumption. }
      rewrite Hempty, lookup_empty in Hin. discriminate.
    + repeat split; try assumption.
      intros name password. apply create_duplicate.
      intros Hempty.
      assert (Hin : User.with_email (Js.toLowerCase (default "" (body (req w) !! "email")))
                      (users w) !! k = Some u).
      { unfold User.with_email. apply map_lookup_filter_Some. split; assumption. }
      rewrite Hempty, lookup_empty in Hin. discriminate.
Qed.

End account_service.

Lemma login_failures_identical_witness :
  let unknown := registered [("email", "nobody@x.com"); ("password", "secret1")] in
  let wrong := registered [("email", "A@X.com"); ("password", "guess")] in
  res (respond (@loginUser codec_double bcrypt_double) unknown)
  = res (respond (@loginUser codec_double bcrypt_double) wrong)
  /\ statusCode (res (respond (@loginUser codec_double bcrypt_double) unknown)) = 401%nat.
Proof.
  intros unknown wrong.
  destruct (@login_failures_identical codec_double bcrypt_double unknown wrong ann_account
              (@bcrypt.hash_with bcrypt_double "secret1" "salt0"))
    as (Hsame & Hstatus & _).
  - reflexivity.
  - vm_compute. reflexivity.
  - vm_compute. reflexivity.
  - reflexivity.
  - vm_compute. reflexivity.
  - split; [exact Hsame | exact Hstatus].
Defined.

Lemma sample_acceptable :
  @acceptable email_double
    (list_to_map [("name", "Eve"); ("email", "A@X.COM"); ("password", "secret2")]).
Proof. repeat split; vm_compute; try discriminate. lia. Qed.

Lemma duplicate_signup_rejected_witness :
  let w := registered [("name", "Eve"); ("email", "A@X.COM"); ("password", "secret2")] in
  @signupUser codec_double bcrypt_double email_double w
  = (inr tt, rejected 400 (@DuplicateEmail) w)
  /\ users (snd (@signupUser codec_double bcrypt_double email_double w))
     = {[ "aaaaaaaaaaaaaaaaaaaaaaaa" := ann_account ]}.
Proof.
  intros w.
  destruct (@duplicate_signup_rejected codec_double bcrypt_double email_double w
              "aaaaaaaaaaaaaaaaaaaaaaaa" ann_account)
    as (Hrun & _ & Husers & _); try reflexivity.
  split; [exact (Hrun sample_acceptable) | exact Husers].
Defined.

(** What [new User({...}).save()] stores: the email in lower case, the
    name trimmed, the password as the salted hash and never as given;
    only under a fresh [_id] and an email no stored account has. *)
Theorem create_stores_hash `{EmailPattern} `{bcrypt.Api}
    (name email password : string) (w w' : World) (u : UserSchema.doc) :
  User.create name email password w = (inr u, w') ->
  users w' = <[UserSchema._id u := u]> (users w)
  /\ UserSchema.email u = Js.toLowerCase email
  /\ Js.toLowerCase (UserSchema.email u) = UserSchema.email u
  /\ UserSchema.name u = Js.trim name
  /\ UserSchema.password u
     = Some (bcrypt.hash_with password (bcrypt.salt_of 10 (entropy w)))
  /\ users w !! UserSchema._id u = None
  /\ User.with_email (Js.toLowerCase email) (users w) = ∅.
Proof.
  unfold User.create. run. cbn.
  destruct (User.validate _) as [|p ps]; [|discriminate].
  unfold User.pre_save, bcrypt.genSalt, bcrypt.hash. run. cbn.
  destruct (bool_decide (User.with_email (Js.toLowerCase email) (users w) = ∅)) eqn:Hfree;
    [|discriminate].
  apply bool_decide_eq_true_1 in Hfree.
  destruct (users w !! ObjectId.of_counter (nextId w)) eqn:Hid; [discriminate|].
  intros [= <- <-]. cbn.
  repeat split; first [reflexivity | assumption | apply toLowerCase_idempotent].
Qed.

Lemma create_stores_hash_witness :
  exists u w',
    @User.create email_double bcrypt_double " Eve " "Eve@X.com" "secret3" (registered [])
    = (inr u, w')
    /\ UserSchema.email u = "eve@x.com"
    /\ UserSchema.name u = "Eve"
    /\ UserSchema.password u = Some "salt000000000000000000000000$secret3".
Proof.
  destruct (@User.create email_double bcrypt_double " Eve " "Eve@X.com" "secret3"
              (registered [])) as [[e|u] w'] eqn:Hrun.
  - vm_compute in Hrun. discriminate.
  - exists u, w'. split; [reflexivity|].
    destruct (@create_stores_hash email_double bcrypt_double _ _ _ _ _ _ Hrun)
      as (_ & He & _ & Hn & Hp & _).
    split; [exact He|]. split; [exact Hn | exact Hp].
Defined.

(** ** Text: [trim] is idempotent *)

Lemma trimStart_clean s : starts_clean (Js.trimStart s).
Proof.
  induction s as [|c r IH]; cbn; [exact I|].
  destruct (Js.is_space c) eqn:Hc; [exact IH | exact Hc].
Qed.

Lemma trimStart_of_clean s : starts_clean s -> Js.trimStart s = s.
Proof. destruct s as [|c r]; cbn; [reflexivity|]. intros ->. reflexivity. Qed.

Lemma trimEnd_clean s : starts_clean s -> starts_clean (Js.trimEnd s).
Proof.
  destruct s as [|c r]; cbn; [auto|]. intros Hc.
  destruct (Js.trimEnd r); [rewrite Hc|]; exact Hc.
Qed.

Lemma trimEnd_idempotent s : Js.trimEnd (Js.trimEnd s) = Js.trimEnd s.
Proof.
  induction s as [|c r IH]; [reflexivity|]. cbn [Js.trimEnd].
  destruct (Js.trimEnd r) as [|c' r'] eqn:Hr.
  - destruct (Js.is_space c) eqn:Hc; [reflexivity|]. cbn. rewrite Hc. reflexivity.
  - cbn [Js.trimEnd] in IH |- *. rewrite IH. reflexivity.
Qed.

Lemma trim_idempotent s : Js.trim (Js.trim s) = Js.trim s.
Proof.
  unfold Js.trim.
  rewrite (trimStart_of_clean (Js.trimEnd (Js.trimStart s)))
    by apply trimEnd_clean, trimStart_clean.
  apply trimEnd_idempotent.
Qed.

Lemma setters_idempotent b : BlogSchema.setters (BlogSchema.setters b) = BlogSchema.setters b.
Proof.
  destruct b. unfold BlogSchema.setters. cbn -[Js.trim]. rewrite !trim_idempotent.
  reflexivity.
Qed.

(** ** ObjectId: generated ids are canonical *)

Lemma hex_digit_spec m :
  (m < 16)%N -> Js.is_hex (ObjectId.hex_digit m) = true
                /\ Js.lower_ascii (ObjectId.hex_digit m) = ObjectId.hex_digit m.
Proof.
  intros Hm.
  assert (Hall : forallb (fun m => Js.is_hex (ObjectId.hex_digit m)
                                   && Ascii.eqb (Js.lower_ascii (ObjectId.hex_digit m))
                                        (ObjectId.hex_digit m))
                   (List.map N.of_nat (List.seq 0 16)) = true) by (vm_compute; reflexivity).
  rewrite forallb_forall in Hall.
  assert (Hin : In m (List.map N.of_nat (List.seq 0 16))).
  { apply List.in_map_iff. exists (N.to_nat m). split; [lia|]. apply List.in_seq. lia. }
  apply Hall, andb_true_iff in Hin as [Hh Hl].
  split; [exact Hh|]. apply Ascii.eqb_eq, Hl.
Qed.

Lemma hex_digits_length k n acc :
  String.length (ObjectId.hex_digits k n acc) = (k + String.length acc)%nat.
Proof.
  revert n acc. induction k as [|k IH]; intros n acc; cbn [ObjectId.hex_digits]; [reflexivity|].
  rewrite IH. cbn [String.length]. lia.
Qed.

Lemma hex_digits_hex k n acc :
  Js.all_chars Js.is_hex (ObjectId.hex_digits k n acc) = Js.all_chars Js.is_hex acc.
Proof.
  revert n acc. induction k as [|k IH]; intros n acc; cbn [ObjectId.hex_digits]; [reflexivity|].
  rewrite IH, all_chars_cons.
  destruct (hex_digit_spec (n mod 16)%N) as [-> _]; [|reflexivity].
  apply N.mod_lt. discriminate.
Qed.

Lemma hex_digits_lower k n acc :
  Js.toLowerCase (ObjectId.hex_digits k n acc) = ObjectId.hex_digits k n (Js.toLowerCase acc).
Proof.
  revert n acc. induction k as [|k IH]; intros n acc; cbn [ObjectId.hex_digits]; [reflexivity|].
  rewrite IH. cbn [Js.toLowerCase].
  destruct (hex_digit_spec (n mod 16)%N) as [_ ->]; [|reflexivity].
  apply N.mod_lt. discriminate.
Qed.

Lemma cast_of_counter n : ObjectId.cast (ObjectId.of_counter n) = Some (ObjectId.of_counter n).
Proof.
  unfold ObjectId.cast, ObjectId.isValid, ObjectId.of_counter.
  rewrite hex_digits_length, hex_digits_hex, hex_digits_lower. reflexivity.
Qed.

Lemma lower_hex c : Js.is_hex c = true -> Js.is_hex (Js.lower_ascii c) = true.
Proof.
  destruct c as [[] [] [] [] [] [] [] []]; intros Hc; first [exact Hc | reflexivity].
Qed.

Lemma toLowerCase_length s : String.length (Js.toLowerCase s) = String.length s.
Proof. induction s as [|c r IH]; cbn; [reflexivity | rewrite IH; reflexivity]. Qed.

Lemma toLowerCase_hex s :
  Js.all_chars Js.is_hex s = true -> Js.all_chars Js.is_hex (Js.toLowerCase s) = true.
Proof.
  induction s as [|c r IH]; [reflexivity|]. cbn [Js.toLowerCase]. rewrite !all_chars_cons.
  intros [Hc Hr]%andb_true_iff. rewrite (lower_hex c Hc), (IH Hr). reflexivity.
Qed.

(** The text [cast] answers is an id [cast] leaves as it is. *)
Lemma cast_canonical s oid : ObjectId.cast s = Some oid -> ObjectId.cast oid = Some oid.
Proof.
  unfold ObjectId.cast, ObjectId.isValid.
  destruct (_ && _) eqn:Hv; [|discriminate]. intros [= <-].
  apply andb_true_iff in Hv as [Hlen Hhex].
  rewrite toLowerCase_length, Hlen, (toLowerCase_hex s Hhex), toLowerCase_idempotent.
  reflexivity.
Qed.

(** ** Reading one blog *)

Lemma getBlogById_bad_id w :
  ObjectId.cast (params_id (req w)) = None ->
  getBlogById w
  = (inr tt, rejected 400 (Error.new "getBlogById" "Invalid blog post ID format") w).
Proof.
  intros Hc. unfold getBlogById, Blog.findById. run. rewrite Hc. reflexivity.
Qed.

Lemma getBlogById_not_found w oid :
  ObjectId.cast (params_id (req w)) = Some oid ->
  blogs w !! oid = None ->
  getBlogById w = (inr tt, rejected 404 (Error.new "getBlogById" "Blog post not found") w).
Proof.
  intros Hc Hl. unfold getBlogById, Blog.findById. run. rewrite Hc. cbn. rewrite Hl.
  reflexivity.
Qed.

Lemma getBlogById_found w oid blog :
  ObjectId.cast (params_id (req w)) = Some oid ->
  blogs w !! oid = Some blog ->
  getBlogById w = (inr tt, answered (JBlog blog) w).
Proof.
  intros Hc Hl. unfold getBlogById, Blog.findById. run. rewrite Hc. cbn. rewrite Hl.
  reflexivity.
Qed.

(** [getBlogById], for every request: a malformed id fails with 400, a
    well-formed id under which no blog is stored fails with 404, and
    otherwise the stored document is answered under the status left in
    the response; the collections are never changed, and the outcome does
    not depend on who, if anyone, is authenticated. *)
Theorem getBlogById_outcomes (w : World) :
  let id := params_id (req w) in
  (ObjectId.cast id = None ->
     fails_with getBlogById 400 "Invalid blog post ID format" w)
  /\ (forall oid, ObjectId.cast id = Some oid -> blogs w !! oid = None ->
        fails_with getBlogById 404 "Blog post not found" w)
  /\ (forall oid blog, ObjectId.cast id = Some oid -> blogs w !! oid = Some blog ->
        getBlogById w = (inr tt, answered (JBlog blog) w))
  /\ blogs (snd (getBlogById w)) = blogs w
  /\ users (snd (getBlogById w)) = users w
  /\ (forall identity,
        getBlogById (as_user identity w)
        = (fst (getBlogById w), as_user identity (snd (getBlogById w)))).
Proof.
  intros id. subst id.
  split; [|split; [|split]].
  - intros Hc. eexists. split; [|apply getBlogById_bad_id; exact Hc]. reflexivity.
  - intros oid Hc Hl. eexists. split; [|eapply getBlogById_not_found; eassumption].
    reflexivity.
  - intros oid blog. apply getBlogById_found.
  - destruct (ObjectId.cast (params_id (req w))) as [oid|] eqn:Hc.
    + destruct (blogs w !! oid) as [blog|] eqn:Hl.
      * rewrite (getBlogById_found w oid blog Hc Hl).
        split; [reflexivity|]. split; [reflexivity|]. intros identity.
        apply (getBlogById_found (as_user identity w) oid blog); assumption.
      * rewrite (getBlogById_not_found w oid Hc Hl).
        split; [reflexivity|]. split; [reflexivity|]. intros identity.
        apply (getBlogById_not_found (as_user identity w) oid); assumption.
    + rewrite (getBlogById_bad_id w Hc).
      split; [reflexivity|]. split; [reflexivity|]. intros identity.
      apply (getBlogById_bad_id (as_user identity w)); assumption.
Qed.

Lemma getBlogById_outcomes_witness :
  getBlogById (sample None "CCCCCCCCCCCCCCCCCCCCCCCC" [])
  = (inr tt, answered (JBlog post) (sample None "CCCCCCCCCCCCCCCCCCCCCCCC" []))
  /\ statusCode (res (snd (getBlogById (sample None "dddddddddddddddddddddddd" [])))) = 404%nat
  /\ statusCode (res (snd (getBlogById (sample None "first-post" [])))) = 400%nat.
Proof.
  destruct (getBlogById_outcomes (sample None "CCCCCCCCCCCCCCCCCCCCCCCC" []))
    as (_ & _ & Hfound & _).
  destruct (getBlogById_outcomes (sample None "dddddddddddddddddddddddd" []))
    as (_ & Hmiss & _).
  destruct (getBlogById_outcomes (sample None "first-post" [])) as (Hbad & _).
  refine (conj _ (conj _ _)).
  - apply (Hfound "cccccccccccccccccccccccc" post); reflexivity.
  - destruct (Hmiss "dddddddddddddddddddddddd" eq_refl eq_refl) as (e & _ & ->). reflexivity.
  - destruct (Hbad eq_refl) as (e & _ & ->). reflexivity.
Defined.

(** ** What was written is what is read *)

Lemma creatable_user (w : World) (u : UserSchema.doc) :
  creatable w = Some u -> user (req w) = Some u /\ UserSchema._id u <> "".
Proof.
  unfold creatable. destruct (_ && _); [|discriminate].
  destruct (user (req w)) as [u'|]; [|discriminate].
  destruct (String.eqb_spec (UserSchema._id u') ""); [discriminate|].
  intros [= <-]. auto.
Qed.

Lemma request_blogs header id fields w : blogs (request header id fields w) = blogs w.
Proof. reflexivity. Qed.

(** The collection and the response after [createBlog]: nothing stored
    and nothing answered, or one document stored under a fresh key and
    answered with 201. *)
Lemma createBlog_cases (w : World) :
  (blogs (snd (createBlog w)) = blogs w /\ sent (res (snd (createBlog w))) = sent (res w))
  \/ exists u,
       creatable w = Some u
       /\ BlogSchema.validate (drafted u w) = []
       /\ blogs w !! ObjectId.of_counter (nextId w) = None
       /\ blogs (snd (createBlog w))
          = <[ObjectId.of_counter (nextId w) := stamped (now w) (drafted u w)]> (blogs w)
       /\ res (snd (createBlog w))
          = {| statusCode := 201; sent := Some (JBlog (stamped (now w) (drafted u w))) |}.
Proof.
  destruct (creatable w) as [u|] eqn:Hcr.
  - rewrite (createBlog_passed w u Hcr).
    destruct (BlogSchema.validate (drafted u w)) as [|p ps] eqn:Hv; [|left; split; reflexivity].
    change (BlogSchema._id (drafted u w)) with (ObjectId.of_counter (nextId w)).
    destruct (blogs w !! ObjectId.of_counter (nextId w)) eqn:Hl; [left; split; reflexivity|].
    right. exists u. auto.
  - destruct (createBlog_refused w Hcr) as (status & e & ->). left. split; reflexivity.
Qed.

(** The blog that [createBlog] or [updateBlog] answers with is the blog
    that [getBlogById] answers with on the next request for its [_id],
    whoever sends it. *)
Theorem answered_blog_is_read_back (w : World) (b : BlogSchema.doc)
    (header : option string) (fields : list (string * string)) :
  keyed_by_id (blogs w) ->
  sent (res w) = None ->
  (sent (res (snd (createBlog w))) = Some (JBlog b) ->
   getBlogById (request header (BlogSchema._id b) fields (snd (createBlog w)))
   = (inr tt, answered (JBlog b)
                (request header (BlogSchema._id b) fields (snd (createBlog w)))))
  /\ (sent (res (snd (updateBlog w))) = Some (JBlog b) ->
      getBlogById (request header (BlogSchema._id b) fields (snd (updateBlog w)))
      = (inr tt, answered (JBlog b)
                   (request header (BlogSchema._id b) fields (snd (updateBlog w))))).
Proof.
  intros Hkey Hfresh. split.
  - destruct (createBlog_cases w) as [[_ Hsent] | (u & _ & _ & _ & Hstore & Hres)].
    + rewrite Hsent, Hfresh. discriminate.
    + rewrite Hres. cbn [sent]. intros [= <-].
      apply (getBlogById_found _ (ObjectId.of_counter (nextId w))).
      * cbn. apply cast_of_counter.
      * rewrite request_blogs, Hstore. apply lookup_insert_eq.
  - destruct (ObjectId.cast (params_id (req w))) as [oid|] eqn:Hc.
    2: { rewrite updateBlog_bad_id by assumption. cbn. rewrite Hfresh. discriminate. }
    destruct (blogs w !! oid) as [blog|] eqn:Hl.
    2: { rewrite (updateBlog_not_found w oid) by assumption. cbn. rewrite Hfresh.
         discriminate. }
    destruct (OwnershipGuard (user (req w)) (BlogSchema.userId blog)) eqn:Hg.
    2: { rewrite (updateBlog_forbidden w oid blog) by assumption. cbn. rewrite Hfresh.
         discriminate. }
    pose proof (Hkey oid blog Hl) as Hid.
    rewrite (updateBlog_allowed w oid blog) by assumption.
    unfold update_outcome.
    destruct (BlogSchema.validate _) as [|p ps].
    2: { cbn [snd]. intros Hs. cbn in Hs. rewrite Hfresh in Hs. discriminate. }
    destruct (bool_decide (BlogSchema.setters (assigned (body (req w)) blog) = blog)) eqn:Hsame.
    + apply bool_decide_eq_true_1 in Hsame. rewrite Hsame. cbn [snd].
      intros Hs. cbn in Hs. injection Hs as <-.
      apply (getBlogById_found _ oid).
      * cbn. rewrite Hid. apply (cast_canonical _ _ Hc).
      * exact Hl.
    + cbn [snd]. intros Hs. cbn in Hs. injection Hs as <-.
      apply (getBlogById_found _ oid).
      * cbn. rewrite Hid. apply (cast_canonical _ _ Hc).
      * cbn. apply lookup_insert_eq.
Qed.

Lemma answered_blog_is_read_back_witness :
  let w := sample (Some alice) "" [("title", " T "); ("category", "C"); ("content", "B")] in
  exists b,
    sent (res (snd (createBlog w))) = Some (JBlog b)
    /\ BlogSchema.title b = "T"
    /\ getBlogById (request None (BlogSchema._id b) [] (snd (createBlog w)))
       = (inr tt, answered (JBlog b) (request None (BlogSchema._id b) [] (snd (createBlog w)))).
Proof.
  intros w.
  assert (Hsent : exists b, sent (res (snd (createBlog w))) = Some (JBlog b)
                            /\ BlogSchema.title b = "T").
  { eexists. split; vm_compute; reflexivity. }
  destruct Hsent as (b & Hb & Ht). exists b. split; [exact Hb|]. split; [exact Ht|].
  apply (answered_blog_is_read_back w b None [] (sample_keyed _ _ _) eq_refl), Hb.
Defined.

(** After [deleteBlog] has answered that the blog is removed, the next
    request for the same id, by anyone, finds nothing: reading, updating
    and deleting it again all fail with 404. *)
Theorem deleted_blog_is_gone (w : World) (header : option string)
    (fields : list (string * string)) (identity : option UserSchema.doc) :
  sent (res w) = None ->
  sent (res (snd (deleteBlog w))) = Some (JMessage "Blog post removed successfully") ->
  let w' := as_user identity
              (request header (params_id (req w)) fields (snd (deleteBlog w))) in
  fails_with getBlogById 404 "Blog post not found" w'
  /\ fails_with updateBlog 404 "Blog post not found" w'
  /\ fails_with deleteBlog 404 "Blog post not found" w'.
Proof.
  intros Hfresh.
  destruct (ObjectId.cast (params_id (req w))) as [oid|] eqn:Hc.
  2: { rewrite deleteBlog_bad_id by assumption. cbn. rewrite Hfresh. discriminate. }
  destruct (blogs w !! oid) as [blog|] eqn:Hl.
  2: { rewrite (deleteBlog_not_found w oid) by assumption. cbn. rewrite Hfresh.
       discriminate. }
  destruct (OwnershipGuard (user (req w)) (BlogSchema.userId blog)) eqn:Hg.
  2: { rewrite (deleteBlog_forbidden w oid blog) by assumption. cbn. rewrite Hfresh.
       discriminate. }
  rewrite (deleteBlog_allowed w oid blog) by assumption.
  intros _ w'.
  assert (Hc' : ObjectId.cast (params_id (req w')) = Some oid) by exact Hc.
  assert (Hl' : blogs w' !! oid = None) by (cbn; apply lookup_delete_eq).
  split; [|split].
  - exists (Error.new "getBlogById" "Blog post not found").
    split; [reflexivity | apply (getBlogById_not_found w' oid Hc' Hl')].
  - exists (Error.new "updateBlog" "Blog post not found").
    split; [reflexivity | apply (updateBlog_not_found w' oid Hc' Hl')].
  - exists (Error.new "deleteBlog" "Blog post not found").
    split; [reflexivity | apply (deleteBlog_not_found w' oid Hc' Hl')].
Qed.

Lemma deleted_blog_is_gone_witness :
  let id := "cccccccccccccccccccccccc" in
  let w' := as_user (Some alice) (request None id [] (snd (deleteBlog (sample (Some alice) id [])))) in
  statusCode (res (snd (getBlogById w'))) = 404%nat
  /\ statusCode (res (snd (deleteBlog w'))) = 404%nat.
Proof.
  intros id w'.
  destruct (deleted_blog_is_gone (sample (Some alice) id []) None [] (Some alice)
              eq_refl eq_refl) as (Hget & _ & Hdel).
  split.
  - destruct Hget as (e & _ & Hrun).
    exact (f_equal (fun r => statusCode (res (snd r))) Hrun).
  - destruct Hdel as (e & _ & Hrun).
    exact (f_equal (fun r => statusCode (res (snd r))) Hrun).
Defined.

(** ** Repeating an update *)

Lemma or_else_settled a x :
  Js.trim (Js.or_else a (Js.trim (Js.or_else a x))) = Js.trim (Js.or_else a x).
Proof.
  destruct a as [s|]; cbn [Js.or_else]; [|apply trim_idempotent].
  destruct (String.eqb s ""); [apply trim_idempotent | reflexivity].
Qed.

Lemma or_else_twice a x : Js.or_else a (Js.or_else a x) = Js.or_else a x.
Proof.
  destruct a as [s|]; cbn [Js.or_else]; [|reflexivity].
  destruct (String.eqb s ""); reflexivity.
Qed.

(** Assigning the same fields to the document a first update has saved
    gives that document again. *)
Lemma assigned_settled fields t blog :
  BlogSchema.setters (assigned fields (touched t (BlogSchema.setters (assigned fields blog))))
  = touched t (BlogSchema.setters (assigned fields blog)).
Proof.
  destruct blog. unfold assigned, touched, BlogSchema.setters. cbn -[Js.trim Js.or_else].
  rewrite !or_else_settled, or_else_twice.
  destruct (fields !! "image"); [reflexivity | rewrite trim_idempotent; reflexivity].
Qed.

(** The validators do not read the time stamps. *)
Lemma validate_touched t b : BlogSchema.validate (touched t b) = BlogSchema.validate b.
Proof. reflexivity. Qed.

(** [updateBlog] is idempotent: the same request sent again, at any later
    time, on the collection the first one left, writes nothing (not even
    [updatedAt]) and is answered as the first one was. *)
Theorem updateBlog_idempotent (w w2 : World) :
  keyed_by_id (blogs w) ->
  req w2 = req w ->
  blogs w2 = blogs (snd (updateBlog w)) ->
  blogs (snd (updateBlog w2)) = blogs w2
  /\ (res w2 = res w -> res (snd (updateBlog w2)) = res (snd (updateBlog w))).
Proof.
  intros Hkey Hreq Hblogs.
  destruct (ObjectId.cast (params_id (req w))) as [oid|] eqn:Hc.
  2: { rewrite (updateBlog_bad_id w) in * by assumption.
       rewrite (updateBlog_bad_id w2) by (rewrite Hreq; assumption).
       cbn. split; [reflexivity | intros ->; reflexivity]. }
  destruct (blogs w !! oid) as [blog|] eqn:Hl.
  2: { rewrite (updateBlog_not_found w oid) in * by assumption. cbn in Hblogs.
       rewrite (updateBlog_not_found w2 oid) by (rewrite ?Hreq, ?Hblogs; assumption).
       cbn. split; [reflexivity | intros ->; reflexivity]. }
  destruct (OwnershipGuard (user (req w)) (BlogSchema.userId blog)) eqn:Hg.
  2: { rewrite (updateBlog_forbidden w oid blog) in * by assumption. cbn in Hblogs.
       rewrite (updateBlog_forbidden w2 oid blog) by (rewrite ?Hreq, ?Hblogs; assumption).
       cbn. split; [reflexivity | intros ->; reflexivity]. }
  pose proof (Hkey oid blog Hl) as Hid.
  rewrite (updateBlog_allowed w oid blog) in * by assumption.
  unfold update_outcome in Hblogs |- *.
  set (b1 := BlogSchema.setters (assigned (body (req w)) blog)) in *.
  destruct (BlogSchema.validate b1) as [|p ps] eqn:Hv.
  2: { cbn in Hblogs.
       rewrite (updateBlog_allowed w2 oid blog) by (rewrite ?Hreq, ?Hblogs; assumption).
       unfold update_outcome. rewrite Hreq. fold b1. rewrite Hv.
       cbn. split; [reflexivity | intros ->; reflexivity]. }
  destruct (bool_decide (b1 = blog)) eqn:Hsame.
  - cbn in Hblogs.
    rewrite (updateBlog_allowed w2 oid blog) by (rewrite ?Hreq, ?Hblogs; assumption).
    unfold update_outcome. rewrite Hreq. fold b1. rewrite Hv, Hsame.
    cbn. split; [reflexivity | intros ->; reflexivity].
  - cbn in Hblogs.
    assert (Hl2 : blogs w2 !! oid = Some (touched (now w) b1))
      by (rewrite Hblogs; apply lookup_insert_eq).
    rewrite (updateBlog_allowed w2 oid (touched (now w) b1));
      [|rewrite Hreq; assumption | exact Hl2 | exact Hid | rewrite Hreq; exact Hg].
    unfold update_outcome. rewrite Hreq.
    subst b1. rewrite assigned_settled, validate_touched, Hv.
    rewrite bool_decide_eq_true_2 by reflexivity.
    cbn. split; [reflexivity | intros ->; reflexivity].
Qed.

Lemma updateBlog_idempotent_witness :
  let id := "cccccccccccccccccccccccc" in
  let w := sample (Some alice) id [("title", "New")] in
  let w2 := at_time 9000 (with_res fresh_response (snd (updateBlog w))) in
  blogs (snd (updateBlog w2)) = blogs w2
  /\ BlogSchema.updatedAt <$> blogs w2 !! id = Some 2000
  /\ res (snd (updateBlog w2)) = res (snd (updateBlog w)).
Proof.
  intros id w w2.
  destruct (updateBlog_idempotent w w2 (sample_keyed _ _ _) eq_refl eq_refl) as [Hstore Hres].
  split; [exact Hstore|]. split; [vm_compute; reflexivity|]. apply Hres. reflexivity.
Defined.

(** ** What the handlers write, and for whom *)

Lemma createBlog_users (w : World) : users (snd (createBlog w)) = users w.
Proof.
  destruct (creatable w) as [u|] eqn:Hcr.
  - rewrite (createBlog_passed w u Hcr).
    destruct (BlogSchema.validate (drafted u w)); [|reflexivity].
    destruct (blogs w !! BlogSchema._id (drafted u w)); reflexivity.
  - destruct (createBlog_refused w Hcr) as (status & e & ->). reflexivity.
Qed.

Lemma updateBlog_guarded (w : World) :
  keyed_by_id (blogs w) ->
  users (snd (updateBlog w)) = users w
  /\ (blogs (snd (updateBlog w)) = blogs w
      \/ exists oid blog,
           blogs w !! oid = Some blog
           /\ OwnershipGuard (user (req w)) (BlogSchema.userId blog) = true
           /\ BlogSchema.validate (BlogSchema.setters (assigned (body (req w)) blog)) = []
           /\ blogs (snd (updateBlog w))
              = <[oid := touched (now w) (BlogSchema.setters (assigned (body (req w)) blog))]>
                  (blogs w)).
Proof.
  intros Hkey.
  destruct (ObjectId.cast (params_id (req w))) as [oid|] eqn:Hc.
  2: { rewrite updateBlog_bad_id by assumption. split; [reflexivity | left; reflexivity]. }
  destruct (blogs w !! oid) as [blog|] eqn:Hl.
  2: { rewrite (updateBlog_not_found w oid) by assumption.
       split; [reflexivity | left; reflexivity]. }
  destruct (OwnershipGuard (user (req w)) (BlogSchema.userId blog)) eqn:Hg.
  2: { rewrite (updateBlog_forbidden w oid blog) by assumption.
       split; [reflexivity | left; reflexivity]. }
  rewrite (updateBlog_allowed w oid blog) by (try assumption; eapply Hkey; eassumption).
  unfold update_outcome. cbn [snd].
  destruct (BlogSchema.validate _) eqn:Hv; [|split; [reflexivity | left; reflexivity]].
  destruct (bool_decide _); [split; [reflexivity | left; reflexivity]|].
  split; [reflexivity|]. right. exists oid, blog. auto.
Qed.

Lemma deleteBlog_guarded (w : World) :
  users (snd (deleteBlog w)) = users w
  /\ (blogs (snd (deleteBlog w)) = blogs w
      \/ exists oid blog,
           blogs w !! oid = Some blog
           /\ OwnershipGuard (user (req w)) (BlogSchema.userId blog) = true
           /\ blogs (snd (deleteBlog w)) = delete oid (blogs w)).
Proof.
  destruct (ObjectId.cast (params_id (req w))) as [oid|] eqn:Hc.
  2: { rewrite deleteBlog_bad_id by assumption. split; [reflexivity | left; reflexivity]. }
  destruct (blogs w !! oid) as [blog|] eqn:Hl.
  2: { rewrite (deleteBlog_not_found w oid) by assumption.
       split; [reflexivity | left; reflexivity]. }
  destruct (OwnershipGuard (user (req w)) (BlogSchema.userId blog)) eqn:Hg.
  2: { rewrite (deleteBlog_forbidden w oid blog) by assumption.
       split; [reflexivity | left; reflexivity]. }
  rewrite (deleteBlog_allowed w oid blog) by assumption.
  split; [reflexivity|]. right. exists oid, blog. auto.
Qed.

Lemma getBlogById_stores (w : World) :
  blogs (snd (getBlogById w)) = blogs w /\ users (snd (getBlogById w)) = users w.
Proof.
  destruct (ObjectId.cast (params_id (req w))) as [oid|] eqn:Hc.
  - destruct (blogs w !! oid) as [blog|] eqn:Hl.
    + rewrite (getBlogById_found w oid blog Hc Hl). split; reflexivity.
    + rewrite (getBlogById_not_found w oid Hc Hl). split; reflexivity.
  - rewrite (getBlogById_bad_id w Hc). split; reflexivity.
Qed.

Lemma guard_owner (u : UserSchema.doc) (owner : string) :
  OwnershipGuard (Some (UserSchema.without_password u)) owner = true ->
  owner = UserSchema._id u.
Proof. cbn. apply String.eqb_eq. Qed.

(** ** What [createBlog] stores *)

(** [createBlog] never overwrites or removes a stored blog: either
    nothing is stored and nothing is answered, or exactly one document is
    added, under an id no stored blog has, and that document is the one
    answered with 201, stamped with the time of the request. *)
Theorem createBlog_store (w : World) :
  blogs w ⊆ blogs (snd (createBlog w))
  /\ ((blogs (snd (createBlog w)) = blogs w
       /\ sent (res (snd (createBlog w))) = sent (res w))
      \/ exists b,
           blogs w !! BlogSchema._id b = None
           /\ blogs (snd (createBlog w)) = <[BlogSchema._id b := b]> (blogs w)
           /\ res (snd (createBlog w)) = {| statusCode := 201; sent := Some (JBlog b) |}
           /\ BlogSchema.createdAt b = now w
           /\ BlogSchema.updatedAt b = now w).
Proof.
  destruct (createBlog_cases w) as [[Hsame Hsent] | (u & _ & _ & Hnew & Hstore & Hres)].
  - split; [rewrite Hsame; reflexivity|]. left. split; assumption.
  - split; [rewrite Hstore; apply insert_subseteq, Hnew|].
    right. exists (stamped (now w) (drafted u w)). auto.
Qed.

(** ** The collection holds only what the schema accepts *)

(** Validity is an invariant: when every stored blog passes the schema's
    validators and is as the setters leave it (title, category and image
    trimmed), the same holds after [createBlog], [updateBlog] and
    [deleteBlog], whatever the request. *)
Theorem handlers_keep_schema (w : World) :
  keyed_by_id (blogs w) ->
  schema_valid (blogs w) ->
  schema_valid (blogs (snd (createBlog w)))
  /\ schema_valid (blogs (snd (updateBlog w)))
  /\ schema_valid (blogs (snd (deleteBlog w))).
Proof.
  intros Hkey Hvalid. split; [|split].
  - destruct (createBlog_cases w) as [[-> _] | (u & _ & Hv & _ & -> & _)]; [exact Hvalid|].
    intros k b [[_ <-] | [_ Hb]]%lookup_insert_Some; [|apply (Hvalid k b Hb)].
    split; [exact Hv|].
    unfold drafted.
    set (d := BlogSchema.mk _ _ _ _ _ _ _ _ _).
    change (stamped (now w) (BlogSchema.setters (BlogSchema.setters d))
            = stamped (now w) (BlogSchema.setters d)).
    rewrite setters_idempotent. reflexivity.
  - destruct (updateBlog_guarded w Hkey) as [_ [-> | (oid & blog & Hl & _ & Hv & ->)]];
      [exact Hvalid|].
    intros k b [[_ <-] | [_ Hb]]%lookup_insert_Some; [|apply (Hvalid k b Hb)].
    split.
    + rewrite validate_touched. exact Hv.
    + change (touched (now w)
                (BlogSchema.setters (BlogSchema.setters (assigned (body (req w)) blog)))
              = touched (now w) (BlogSchema.setters (assigned (body (req w)) blog))).
      rewrite setters_idempotent. reflexivity.
  - destruct (deleteBlog_guarded w) as [_ [-> | (oid & blog & _ & _ & ->)]]; [exact Hvalid|].
    intros k b [_ Hb]%lookup_delete_Some. apply (Hvalid k b Hb).
Qed.

Lemma sample_valid identity id fields : schema_valid (blogs (sample identity id fields)).
Proof.
  intros k b Hl. cbn in Hl. apply lookup_singleton_Some in Hl as [<- <-].
  split; reflexivity.
Qed.

Lemma handlers_keep_schema_witness :
  let w := sample (Some alice) "cccccccccccccccccccccccc"
             [("title", "  Spaced  "); ("image", "http://x.org/a.png ")] in
  schema_valid (blogs (snd (updateBlog w)))
  /\ BlogSchema.title <$> blogs (snd (updateBlog w)) !! "cccccccccccccccccccccccc"
     = Some "Spaced".
Proof.
  intros w.
  destruct (handlers_keep_schema w (sample_keyed _ _ _) (sample_valid _ _ _)) as (_ & Hupd & _).
  split; [exact Hupd | vm_compute; reflexivity].
Defined.

(** ** Listing blogs *)

Lemma ceil_div_upper (count pageSize : N) :
  (1 <= pageSize)%N -> (count <= ceil_div count pageSize * pageSize)%N.
Proof.
  intros Hp. unfold ceil_div.
  pose proof (N.div_mod (count + pageSize - 1) pageSize ltac:(lia)) as Hdm.
  pose proof (N.mod_lt (count + pageSize - 1) pageSize ltac:(lia)) as Hlt.
  nia.
Qed.

Lemma ceil_div_least (count pageSize n : N) :
  (1 <= pageSize)%N -> (count <= n * pageSize)%N -> (ceil_div count pageSize <= n)%N.
Proof.
  intros Hp Hn. unfold ceil_div.
  apply N.lt_succ_r, N.Div0.div_lt_upper_bound. nia.
Qed.

Lemma or_default_positive x d n :
  (1 <= d)%N -> JsNumber.or_default x d = JsNumber.Int n -> (1 <= n)%N.
Proof.
  intros Hd. destruct x as [|m|]; cbn; [intros [= <-]; exact Hd | | discriminate].
  destruct (N.eqb_spec m 0); intros [= <-]; lia.
Qed.

Lemma paging_positive query pageSize page :
  paging query = Some (pageSize, page) -> (1 <= pageSize)%N /\ (1 <= page)%N.
Proof.
  unfold paging.
  destruct (JsNumber.or_default (Number (query !! "limit")) 10) as [|ps|] eqn:Hl;
    try discriminate.
  destruct (JsNumber.or_default (Number (query !! "page")) 1) as [|pg|] eqn:Hp;
    try discriminate.
  destruct (_ <=? _)%N; [|discriminate]. intros [= <- <-].
  split; eapply or_default_positive; try eassumption; lia.
Qed.

Section listing_facts.
Context `{Engine}.
Variable elsewhere :
  gmap string string -> gmap string BlogSchema.doc -> Error.t + list BlogSchema.doc.

Lemma getBlogs_regular (query : gmap string string) (w : World) (pageSize page : N) :
  paging query = Some (pageSize, page) ->
  let all := sort_createdAt_desc (BlogQuery.selected (conditions_of query) (blogs w)) in
  getBlogs elsewhere query w
  = (inr (Some {| BlogPage.blogs :=
                    take (N.to_nat pageSize) (drop (N.to_nat (pageSize * (page - 1))) all);
                  BlogPage.page := JsNumber.Int page;
                  BlogPage.pages := JsNumber.Int (ceil_div (N.of_nat (length all)) pageSize);
                  BlogPage.count := N.of_nat (length all) |}), w).
Proof.
  intros Hpaging. destruct (paging_positive query pageSize page Hpaging) as [Hps Hpg].
  revert Hpaging.
  unfold paging, getBlogs, BlogQuery.countDocuments, find_sort_limit_skip. run.
  fold (conditions_of query).
  destruct (JsNumber.or_default (Number (query !! "limit")) 10) as [|ps|]; try discriminate.
  destruct (JsNumber.or_default (Number (query !! "page")) 1) as [|pg|]; try discriminate.
  destruct (ps * (pg - 1) <=? JsNumber.MAX_INT32)%N eqn:Hrange; [|discriminate].
  intros [= <- <-]. cbn [JsNumber.skipped JsNumber.ceil_quotient].
  destruct (N.eqb_spec pg 0); [lia|]. rewrite Hrange.
  destruct (N.eqb_spec ps 0); [lia|]. cbn.
  rewrite (Permutation_length (sort_permutation _)). reflexivity.
Qed.

(** [getBlogs], for a query whose [limit] and [page] are absent or plain
    numerals: the handler answers and changes nothing; [count] is the
    number of stored blogs that satisfy the filter; the blogs listed are
    the slice of these, most recent first, that starts after
    [pageSize * (page - 1)] of them and holds at most [pageSize]: each
    is a stored blog that satisfies the filter, and their number is the
    smaller of [pageSize] and what is left of [count]. *)
Theorem getBlogs_page (query : gmap string string) (w : World) (pageSize page : N) :
  paging query = Some (pageSize, page) ->
  exists body all,
    getBlogs elsewhere query w = (inr (Some body), w)
    /\ all ≡ₚ BlogQuery.selected (conditions_of query) (blogs w)
    /\ Sorted more_recent all
    /\ BlogPage.blogs body
       = take (N.to_nat pageSize) (drop (N.to_nat (pageSize * (page - 1))) all)
    /\ BlogPage.page body = JsNumber.Int page
    /\ BlogPage.count body = N.of_nat (length (BlogQuery.selected (conditions_of query) (blogs w)))
    /\ N.of_nat (length (BlogPage.blogs body))
       = N.min pageSize (BlogPage.count body - pageSize * (page - 1))
    /\ (forall b, b ∈ BlogPage.blogs body ->
          BlogQuery.matches (conditions_of query) b = true
          /\ exists k, blogs w !! k = Some b).
Proof.
  intros Hpaging. do 2 eexists.
  split; [apply (getBlogs_regular query w pageSize page Hpaging)|].
  cbn [BlogPage.blogs BlogPage.page BlogPage.count].
  split; [apply sort_permutation|]. split; [apply sort_sorted|].
  split; [reflexivity|]. split; [reflexivity|].
  split; [rewrite (Permutation_length (sort_permutation _)); reflexivity|].
  split.
  - rewrite length_take, length_drop. lia.
  - intros b Hb.
    apply subseteq_take, subseteq_drop in Hb. rewrite sort_permutation in Hb.
    unfold BlogQuery.selected in Hb.
    apply list_elem_of_fmap in Hb as ([k b'] & -> & Hb).
    apply elem_of_map_to_list, map_lookup_filter_Some in Hb as [Hl Hm].
    split; [exact Hm | exists k; exact Hl].
Qed.

(** The page count of [getBlogs]: the page size and the page number are
    never zero; [pages] is the least number of pages of [pageSize] that
    hold [count] blogs; and the page listed is empty exactly when its
    number is beyond [pages]. *)
Theorem getBlogs_pages (query : gmap string string) (w : World) (pageSize page : N)
    (body : BlogPage.t) :
  paging query = Some (pageSize, page) ->
  fst (getBlogs elsewhere query w) = inr (Some body) ->
  (1 <= pageSize)%N /\ (1 <= page)%N
  /\ exists pages,
       BlogPage.pages body = JsNumber.Int pages
       /\ (BlogPage.count body <= pages * pageSize)%N
       /\ (forall n, (BlogPage.count body <= n * pageSize)%N -> (pages <= n)%N)
       /\ (BlogPage.blogs body = [] <-> (pages < page)%N).
Proof.
  intros Hpaging. rewrite (getBlogs_regular query w pageSize page Hpaging). cbn [fst].
  intros [= <-]. cbn [BlogPage.blogs BlogPage.pages BlogPage.count].
  destruct (paging_positive query pageSize page Hpaging) as [Hps Hpg].
  set (all := sort_createdAt_desc _).
  split; [exact Hps|]. split; [exact Hpg|].
  eexists. split; [reflexivity|].
  split; [apply ceil_div_upper, Hps|].
  split; [intros n; apply ceil_div_least, Hps|].
  pose proof (ceil_div_upper (N.of_nat (length all)) pageSize Hps) as Hup.
  pose proof (ceil_div_least (N.of_nat (length all)) pageSize (page - 1) Hps) as Hleast.
  rewrite <- length_zero_iff_nil, length_take, length_drop.
  split; intros Hempty.
  - assert (ceil_div (N.of_nat (length all)) pageSize <= page - 1)%N; [apply Hleast|]; nia.
  - assert (N.of_nat (length all) <= (page - 1) * pageSize)%N; nia.
Qed.

(** The defaults of [getBlogs]: a [limit] that is absent, empty or zero
    is a limit of 10, and a [page] that is absent, empty or zero is page
    1: the answer is the one to the query with [limit=10] and [page=1]
    written out. *)
Theorem getBlogs_defaults (query : gmap string string) (w : World)
    (limit page : option string) :
  limit ∈ [None; Some ""; Some "0"; Some "10"] ->
  page ∈ [None; Some ""; Some "0"; Some "1"] ->
  paging (with_param "limit" limit (with_param "page" page query)) = Some (10, 1)%N
  /\ getBlogs elsewhere (with_param "limit" limit (with_param "page" page query)) w
     = getBlogs elsewhere
         (with_param "limit" (Some "10") (with_param "page" (Some "1") query)) w.
Proof.
  intros Hlimit Hpage.
  assert (Hpaging : forall limit page,
             limit ∈ [None; Some ""; Some "0"; Some "10"] ->
             page ∈ [None; Some ""; Some "0"; Some "1"] ->
             paging (with_param "limit" limit (with_param "page" page query))
             = Some (10, 1)%N).
  { clear. intros limit page Hlimit Hpage. unfold paging.
    assert (Hl : with_param "limit" limit (with_param "page" page query) !! "limit" = limit).
    { destruct limit; cbn; [apply lookup_insert_eq | apply lookup_delete_eq]. }
    assert (Hp : with_param "limit" limit (with_param "page" page query) !! "page" = page).
    { destruct limit; cbn;
        [rewrite lookup_insert_ne by discriminate | rewrite lookup_delete_ne by discriminate];
        destruct page; cbn; [apply lookup_insert_eq | apply lookup_delete_eq
                            | apply lookup_insert_eq | apply lookup_delete_eq]. }
    rewrite Hl, Hp.
    assert (JsNumber.or_default (Number limit) 10 = JsNumber.Int 10) as ->.
    { set_unfold in Hlimit. destruct Hlimit as [-> | [-> | [-> | [-> | []]]]]; reflexivity. }
    assert (JsNumber.or_default (Number page) 1 = JsNumber.Int 1) as ->.
    { set_unfold in Hpage. destruct Hpage as [-> | [-> | [-> | [-> | []]]]]; reflexivity. }
    reflexivity. }
  assert (Hconditions : forall limit page,
             conditions_of (with_param "limit" limit (with_param "page" page query))
             = conditions_of query).
  { clear. intros limit page. unfold conditions_of.
    assert (Hkey : forall key, key = "category" \/ key = "authorName" ->
               with_param "limit" limit (with_param "page" page query) !! key = query !! key).
    { intros key Hk.
      destruct limit; cbn;
        [rewrite lookup_insert_ne by (destruct Hk as [-> | ->]; discriminate)
        | rewrite lookup_delete_ne by (destruct Hk as [-> | ->]; discriminate)];
        destruct page; cbn;
        first [apply lookup_insert_ne | apply lookup_delete_ne];
        destruct Hk as [-> | ->]; discriminate. }
    rewrite !Hkey by auto. reflexivity. }
  split; [apply Hpaging; assumption|].
  rewrite (getBlogs_regular _ w 10 1 (Hpaging limit page Hlimit Hpage)).
  assert (H10 : Some "10" ∈ [None; Some ""; Some "0"; Some "10"])
    by (rewrite !elem_of_cons; auto).
  assert (H1 : Some "1" ∈ [None; Some ""; Some "0"; Some "1"])
    by (rewrite !elem_of_cons; auto).
  rewrite (getBlogs_regular _ w 10 1 (Hpaging (Some "10") (Some "1") H10 H1)).
  rewrite !Hconditions. reflexivity.
Qed.

End listing_facts.

Lemma getBlogs_page_witness :
  exists body,
    listing (list_to_map [("limit", "2"); ("page", "2")]) library = (inr (Some body), library)
    /\ BlogPage.page body = JsNumber.Int 2
    /\ BlogPage.count body = 3%N
    /\ N.of_nat (length (BlogPage.blogs body)) = 1%N.
Proof.
  assert (Hpaging : paging (list_to_map [("limit", "2"); ("page", "2")]) = Some (2, 2)%N)
    by (vm_compute; reflexivity).
  destruct (@getBlogs_page engine_double elsewhere_double
              (list_to_map [("limit", "2"); ("page", "2")]) library 2 2 Hpaging)
    as (body & all & Hrun & _ & _ & _ & Hpage & Hcount & Hlen & _).
  exists body. split; [exact Hrun|]. split; [exact Hpage|].
  assert (Hc : BlogPage.count body = 3%N) by (rewrite Hcount; vm_compute; reflexivity).
  split; [exact Hc|]. rewrite Hlen, Hc. reflexivity.
Defined.

Lemma getBlogs_pages_witness :
  exists body pages,
    fst (listing (list_to_map [("limit", "2"); ("category", " Travel ")]) library)
    = inr (Some body)
    /\ BlogPage.pages body = JsNumber.Int pages
    /\ (BlogPage.count body <= pages * 2)%N
    /\ BlogPage.blogs body <> [].
Proof.
  assert (Hrun : exists body,
             fst (listing (list_to_map [("limit", "2"); ("category", " Travel ")]) library)
             = inr (Some body) /\ BlogPage.count body = 2%N).
  { vm_compute. eexists. split; reflexivity. }
  destruct Hrun as (body & Hrun & Hcount).
  assert (Hpaging : paging (list_to_map [("limit", "2"); ("category", " Travel ")])
                    = Some (2, 1)%N) by (vm_compute; reflexivity).
  destruct (@getBlogs_pages engine_double elsewhere_double
              (list_to_map [("limit", "2"); ("category", " Travel ")]) library 2 1 body
              Hpaging Hrun) as (_ & _ & pages & Hpages & Hup & Hleast & Hempty).
  exists body, pages. split; [exact Hrun|]. split; [exact Hpages|]. split; [exact Hup|].
  intros Hnil. apply Hempty in Hnil. rewrite Hcount in Hup. lia.
Defined.

Lemma getBlogs_defaults_witness :
  listing (list_to_map [("limit", "0"); ("authorName", "Ann")]) library
  = listing (list_to_map [("limit", "10"); ("page", "1"); ("authorName", "Ann")]) library.
Proof.
  destruct (@getBlogs_defaults engine_double elsewhere_double
              (list_to_map [("authorName", "Ann")]) library (Some "0") None) as [_ Hsame].
  - rewrite !elem_of_cons; auto.
  - rewrite !elem_of_cons; auto.
  - exact Hsame.
Defined.

(** ** Tokens that [protect] refuses *)

Section refused_tokens.
Context `{jwt.Codec}.

Lemma presented_bearer (w : World) (secret : string) (p : jwt.Payload) :
  authorization (req w) = Some ("Bearer " ++ jwt.compact secret p) ->
  bearer w = true /\ presented w = Some (jwt.compact secret p).
Proof.
  intros Hauth. unfold bearer, presented. rewrite Hauth. split; [reflexivity|].
  cbn [from_option id].
  change ("Bearer " ++ jwt.compact secret p) with ("Bearer" ++ String " " (jwt.compact secret p)).
  rewrite split_app by reflexivity.
  rewrite split_free; [reflexivity|].
  apply compact_free; [reflexivity | discriminate].
Qed.

(** [jwt.check] on a token issued under another secret whose signature
    differs. *)
Lemma check_foreign secret secret' p clock :
  jwt.hmacSHA256 secret (jwt.header ++ "." ++ jwt.encodePayload p)
  <> jwt.hmacSHA256 secret' (jwt.header ++ "." ++ jwt.encodePayload p) ->
  jwt.check (jwt.compact secret p) secret' clock = inl jwt.InvalidSignature.
Proof.
  intros Hne. unfold jwt.check. rewrite split_compact.
  rewrite String.eqb_refl, jwt.decode_encode.
  destruct (String.eqb_spec (jwt.hmacSHA256 secret (jwt.header ++ "." ++ jwt.encodePayload p))
              (jwt.hmacSHA256 secret' (jwt.header ++ "." ++ jwt.encodePayload p)));
    [contradiction | reflexivity].
Qed.

(** A token of [generateToken] stops working: presented as
    [Bearer <token>] once the 30 days have elapsed, or to a server whose
    secret gives another signature, it makes [protect] fail with 401 and
    the fixed message; the reason goes to the console only, [req.user] is
    not set, [next] is not called and no collection changes. *)
Theorem protect_rejects_issued_token (s secret token : string) (w0 w : World) :
  JWT_SECRET (env w0) = Some secret ->
  secret <> "" ->
  generateToken s w0 = (inr token, w0) ->
  authorization (req w) = Some ("Bearer " ++ token) ->
  (JWT_SECRET (env w) = Some secret ->
   now w0 / 1000 + jwt.days 30 <= now w / 1000 ->
   protect w
   = (inl token_failed,
      with_res {| statusCode := 401; sent := sent (res w) |}
        (with_console (console w ++ ["Authentication error: jwt expired"]) w)))
  /\ (forall secret',
        JWT_SECRET (env w) = Some secret' ->
        secret' <> "" ->
        (forall input, jwt.hmacSHA256 secret input <> jwt.hmacSHA256 secret' input) ->
        protect w
        = (inl token_failed,
           with_res {| statusCode := 401; sent := sent (res w) |}
             (with_console (console w ++ ["Authentication error: invalid signature"]) w))).
Proof.
  intros Hsec Hne Hgen Hauth.
  set (payload := {| jwt.id := s; jwt.iat := now w0 / 1000;
                     jwt.exp := now w0 / 1000 + jwt.days 30 |}).
  assert (Htok : token = jwt.compact secret payload).
  { rewrite (generateToken_compact s secret w0 Hsec Hne) in Hgen.
    injection Hgen as Heq. symmetry. exact Heq. }
  subst token.
  destruct (presented_bearer w secret payload Hauth) as [Hb Hpres].
  split.
  - intros Hsec' Hclock.
    apply (protect_verify_fails w jwt.TokenExpiredError Hb).
    rewrite Hpres, Hsec'. unfold jwt.verify. run.
    rewrite compact_truthy. cbn [from_option id]. rewrite check_compact.
    replace (jwt.exp payload <=? now w / 1000) with true
      by (symmetry; apply Z.leb_le; exact Hclock).
    destruct secret; [contradiction | reflexivity].
  - intros secret' Hsec' Hne' Hdiff.
    apply (protect_verify_fails w (jwt.JsonWebTokenError "invalid signature") Hb).
    rewrite Hpres, Hsec'. unfold jwt.verify. run.
    rewrite compact_truthy. cbn [from_option id].
    rewrite (check_foreign secret secret' payload) by apply Hdiff.
    destruct secret'; [contradiction | reflexivity].
Qed.

End refused_tokens.

Lemma protect_rejects_issued_token_witness :
  let w := at_time (2000 + 1000 * jwt.days 30) (with_header (Some ("Bearer " ++ ann_token))) in
  @protect codec_double w
  = (inl token_failed,
     with_res {| statusCode := 401; sent := None |}
       (with_console ["Authentication error: jwt expired"] w)).
Proof.
  intros w.
  refine (proj1 (@protect_rejects_issued_token codec_double "aaaaaaaaaaaaaaaaaaaaaaaa"
                   "secret" ann_token (sample None "" []) w eq_refl _ eq_refl eq_refl)
            eq_refl _).
  - discriminate.
  - vm_compute. discriminate.
Defined.

(** ** Unknown routes *)

(** [notFound] followed by [errorHandler]: the answer to a request no
    route matches is 404 with the message naming the requested URL, and
    the stack trace of the error unless [NODE_ENV] is ["production"];
    no collection changes. *)
Theorem notFound_response (originalUrl : string) (w : World) :
  let w' := respond (notFound originalUrl) w in
  statusCode (res w') = 404%nat
  /\ (exists stack, sent (res w') = Some (JError ("Not Found - " ++ originalUrl) stack)
                    /\ (stack = None <-> NODE_ENV (env w) = Some "production"))
  /\ blogs w' = blogs w /\ users w' = users w.
Proof.
  unfold respond, notFound, errorHandler. run. cbn.
  split; [reflexivity|]. split; [|split; reflexivity].
  eexists. split; [reflexivity|].
  destruct (bool_decide (NODE_ENV (env w) = Some "production")) eqn:Hmode.
  - apply bool_decide_eq_true_1 in Hmode. split; auto.
  - apply bool_decide_eq_false_1 in Hmode. split; [discriminate | contradiction].
Qed.

Lemma notFound_response_witness :
  statusCode (res (respond (notFound "/api/blog") (initial (Some "production")))) = 404%nat
  /\ sent (res (respond (notFound "/api/blog") (initial (Some "production"))))
     = Some (JError "Not Found - /api/blog" None).
Proof.
  destruct (notFound_response "/api/blog" (initial (Some "production")))
    as (Hstatus & (stack & Hsent & Hstack) & _).
  split; [exact Hstatus|]. rewrite Hsent.
  rewrite (proj2 Hstack eq_refl). reflexivity.
Defined.

(** ** Accounts are found by their email in any case *)

Lemma create_inserted `{EmailPattern} `{bcrypt.Api}
    (name email password : string) (w w' : World) (u : UserSchema.doc) :
  User.create name email password w = (inr u, w') ->
  users w' = <[UserSchema._id u := u]> (users w)
  /\ UserSchema.email u = Js.toLowerCase email
  /\ User.with_email (Js.toLowerCase email) (users w) = ∅.
Proof.
  unfold User.create. run. cbn.
  destruct (User.validate _) as [|p ps]; [|discriminate].
  unfold User.pre_save, bcrypt.genSalt, bcrypt.hash. run. cbn.
  destruct (bool_decide (User.with_email (Js.toLowerCase email) (users w) = ∅)) eqn:Hfree;
    [|discriminate].
  apply bool_decide_eq_true_1 in Hfree.
  destruct (users w !! ObjectId.of_counter (nextId w)) eqn:Hid; [discriminate|].
  intros [= <- <-]. cbn. auto.
Qed.

(** The account [User.create] has stored is the one
    [User.findOne({ email })] finds afterwards, for the email as given at
    registration or in any other letter case, and it is the only one; the
    lookup answers it without its password, which the schema does not
    select. *)
Theorem created_user_is_found `{EmailPattern} `{bcrypt.Api}
    (name email password : string) (w w' w2 : World) (u : UserSchema.doc) (e : string) :
  User.create name email password w = (inr u, w') ->
  users w2 = users w' ->
  Js.toLowerCase e = Js.toLowerCase email ->
  User.findOne_email e w2 = (inr (Some (UserSchema.without_password u)), w2)
  /\ User.with_email (Js.toLowerCase e) (users w2) = {[ UserSchema._id u := u ]}.
Proof.
  intros Hcreate Husers Hcase.
  destruct (create_inserted name email password w w' u Hcreate) as (Hstore & Hemail & Hfree).
  assert (Honly : User.with_email (Js.toLowerCase e) (users w2) = {[ UserSchema._id u := u ]}).
  { rewrite Husers, Hstore, Hcase. unfold User.with_email in *.
    rewrite map_filter_insert_True by exact Hemail.
    rewrite Hfree. reflexivity. }
  split; [|exact Honly].
  unfold User.findOne_email, User.first_with_email. run.
  rewrite Honly, map_to_list_singleton. reflexivity.
Qed.

Lemma created_user_is_found_witness :
  exists u w',
    @User.create email_double bcrypt_double "Eve" "Eve@X.com" "secret3" (registered [])
    = (inr u, w')
    /\ UserSchema.password u = Some "salt000000000000000000000000$secret3"
    /\ User.findOne_email "EVE@x.COM" w' = (inr (Some (UserSchema.without_password u)), w').
Proof.
  destruct (@User.create email_double bcrypt_double "Eve" "Eve@X.com" "secret3"
              (registered [])) as [[err|u] w'] eqn:Hrun.
  - vm_compute in Hrun. discriminate.
  - exists u, w'. split; [reflexivity|]. split.
    + vm_compute in Hrun. injection Hrun as <- _. reflexivity.
    + apply (@created_user_is_found email_double bcrypt_double _ _ _ _ _ w' u "EVE@x.COM" Hrun);
        reflexivity.
Defined.

(** ** The router: who can change a blog *)

Lemma errorHandler_stores (e : Error.t) (w : World) :
  blogs (snd (errorHandler e w)) = blogs w /\ users (snd (errorHandler e w)) = users w.
Proof. split; reflexivity. Qed.

Lemma finish_with_stores {A} (r : (Error.t + A) * World) :
  blogs (finish_with r) = blogs (snd r) /\ users (finish_with r) = users (snd r).
Proof.
  destruct r as [[e|a] w]; cbn; [split; reflexivity|].
  destruct (nextCalled w) as [[e|]|]; split; reflexivity.
Qed.

Lemma respond_stores (handler : M unit) (w : World) :
  blogs (respond handler w) = blogs (snd (handler w))
  /\ users (respond handler w) = users (snd (handler w)).
Proof.
  unfold respond, finish. destruct (handler w) as [[e|[]] w']; cbn; [split; reflexivity|].
  destruct (nextCalled w') as [[e|]|]; split; reflexivity.
Qed.

Section routes.
Context `{jwt.Codec} `{Engine}.
Variable elsewhere :
  gmap string string -> gmap string BlogSchema.doc -> Error.t + list BlogSchema.doc.

Lemma getBlogs_stores (query : gmap string string) (w : World) :
  blogs (snd (getBlogs elsewhere query w)) = blogs w
  /\ users (snd (getBlogs elsewhere query w)) = users w.
Proof.
  unfold getBlogs, BlogQuery.countDocuments, find_sort_limit_skip. run.
  generalize (JsNumber.skipped (JsNumber.or_default (Number (query !! "limit")) 10)
                (JsNumber.or_default (Number (query !! "page")) 1)).
  intros skip.
  destruct (JsNumber.or_default (Number (query !! "limit")) 10) as [|ps|], skip as [|k|];
    try (split; reflexivity);
    destruct (elsewhere query (blogs w)); split; reflexivity.
Qed.

(** A protected route either stops at [protect], leaving the collections
    as they are, or runs the handler for the resolved identity. *)
Lemma protected_cases (handler : M unit) (w : World) :
  (blogs (protected handler w) = blogs w /\ users (protected handler w) = users w)
  \/ exists u,
       resolve w = Some u
       /\ protected handler w
          = respond handler (with_next None (as_user (Some (UserSchema.without_password u)) w)).
Proof.
  destruct (protect_cases w) as [Hrej Hacc].
  destruct (resolve w) as [u|] eqn:Hres.
  - right. exists u. split; [reflexivity|]. unfold protected.
    rewrite (Hacc u eq_refl). reflexivity.
  - left. unfold protected.
    destruct (Hrej eq_refl) as (e & w' & -> & _ & _ & _ & Hb & Hu).
    cbn. split; assumption.
Qed.

Lemma resolve_with_params (id : string) (w : World) : resolve (with_params id w) = resolve w.
Proof.
  unfold resolve, bearer, presented, account_of, jwt.verify. run. cbn.
  destruct (_ && _); [|reflexivity].
  destruct (Js.truthy _); [|reflexivity].
  destruct (jwt.check _ _ _) as [[]|p]; destruct (Js.truthy (JWT_SECRET (env w))); reflexivity.
Qed.

(** No route of the router changes or removes a blog on behalf of anyone
    but its owner: whatever the method, the path, the query and the body,
    a stored blog whose [userId] is not the id of the account the
    request's token resolves to (in particular when it resolves to none)
    is stored unchanged after the request; and no route changes the
    users collection. *)
Theorem only_owner_changes_blog (method : Method) (path : Path)
    (query : gmap string string) (w w' : World) (listed : option BlogPage.t)
    (k : string) (b : BlogSchema.doc) :
  keyed_by_id (blogs w) ->
  blogRoutes elsewhere method path query w = Some (w', listed) ->
  blogs w !! k = Some b ->
  (forall u, resolve w = Some u -> BlogSchema.userId b <> UserSchema._id u) ->
  blogs w' !! k = Some b /\ users w' = users w.
Proof.
  intros Hkey Hroute Hb Hforeign.
  destruct method, path as [|id|]; cbn in Hroute; try discriminate;
    injection Hroute as <- <-.
  - (* POST / *)
    destruct (protected_cases createBlog w) as [[-> ->] | (u & Hu & ->)]; [auto|].
    set (w1 := with_next None (as_user (Some (UserSchema.without_password u)) w)).
    destruct (respond_stores createBlog w1) as [-> ->].
    split; [|exact (createBlog_users w1)].
    destruct (createBlog_cases w1) as [[-> _] | (u' & _ & _ & Hnew & -> & _)]; [exact Hb|].
    rewrite lookup_insert_ne; [exact Hb|]. intros <-.
    change (blogs w1) with (blogs w) in Hnew. congruence.
  - (* GET / *)
    destruct (finish_with_stores (getBlogs elsewhere query w)) as [-> ->].
    destruct (getBlogs_stores query w) as [-> ->]. auto.
  - (* GET /:id *)
    destruct (respond_stores getBlogById (with_params id w)) as [-> ->].
    destruct (getBlogById_stores (with_params id w)) as [-> ->]. auto.
  - (* PUT /:id *)
    destruct (protected_cases updateBlog (with_params id w)) as [[-> ->] | (u & Hu & ->)];
      [auto|].
    rewrite resolve_with_params in Hu.
    set (w1 := with_next None
                 (as_user (Some (UserSchema.without_password u)) (with_params id w))).
    destruct (respond_stores updateBlog w1) as [-> ->].
    destruct (updateBlog_guarded w1 Hkey) as [-> [-> | (oid & blog & Hl & Hg & _ & ->)]];
      [auto|].
    split; [|reflexivity].
    rewrite lookup_insert_ne; [exact Hb|]. intros <-.
    change (blogs w1) with (blogs w) in Hl.
    assert (blog = b) as -> by congruence.
    apply guard_owner in Hg. exact (Hforeign u Hu Hg).
  - (* DELETE /:id *)
    destruct (protected_cases deleteBlog (with_params id w)) as [[-> ->] | (u & Hu & ->)];
      [auto|].
    rewrite resolve_with_params in Hu.
    set (w1 := with_next None
                 (as_user (Some (UserSchema.without_password u)) (with_params id w))).
    destruct (respond_stores deleteBlog w1) as [-> ->].
    destruct (deleteBlog_guarded w1) as [-> [-> | (oid & blog & Hl & Hg & ->)]]; [auto|].
    split; [|reflexivity].
    rewrite lookup_delete_ne; [exact Hb|]. intros <-.
    change (blogs w1) with (blogs w) in Hl.
    assert (blog = b) as -> by congruence.
    apply guard_owner in Hg. exact (Hforeign u Hu Hg).
Qed.

End routes.

Lemma only_owner_changes_blog_witness :
  let w := request (Some ("Bearer " ++ bob_token)) "" [("title", "Taken")] (sample None "" []) in
  exists w',
    routes PUT (Item "cccccccccccccccccccccccc") ∅ w = Some (w', None)
    /\ blogs w' !! "cccccccccccccccccccccccc" = Some post
    /\ statusCode (res w') = 403%nat.
Proof.
  intros w.
  assert (Hroute : exists w',
             routes PUT (Item "cccccccccccccccccccccccc") ∅ w = Some (w', None)
             /\ statusCode (res w') = 403%nat).
  { vm_compute. eexists. split; reflexivity. }
  destruct Hroute as (w' & Hroute & Hstatus).
  exists w'. split; [exact Hroute|]. split; [|exact Hstatus].
  apply (@only_owner_changes_blog codec_double engine_double elsewhere_double
           PUT (Item "cccccccccccccccccccccccc") ∅ w w' None
           "cccccccccccccccccccccccc" post (sample_keyed _ _ _) Hroute eq_refl).
  intros u Hu. vm_compute in Hu. injection Hu as <-. discriminate.
Defined.

(** ** What the schemas refuse *)

Lemma or_else_truthy v d : Js.truthy v = true -> Js.or_else v d = default "" v.
Proof.
  destruct v as [s|]; [|discriminate]. cbn. destruct (String.eqb s ""); [discriminate|].
  reflexivity.
Qed.

Lemma validate_refuses (b : BlogSchema.doc) :
  BlogSchema.title b = "" \/ BlogSchema.category b = ""
  \/ (BlogSchema.image b <> "" /\ BlogSchema.image_match (BlogSchema.image b) = false) ->
  BlogSchema.validate b <> [].
Proof.
  unfold BlogSchema.validate. intros [Ht | [Hc | [Hi Hm]]] Hnil.
  - apply app_eq_nil in Hnil as [Hnil _]. rewrite Ht in Hnil. discriminate.
  - apply app_eq_nil in Hnil as [_ Hnil]. apply app_eq_nil in Hnil as [Hnil _].
    rewrite Hc in Hnil. discriminate.
  - do 4 (apply app_eq_nil in Hnil as [_ Hnil]). apply app_eq_nil in Hnil as [Hnil _].
    rewrite Hm in Hnil. destruct (String.eqb_spec (BlogSchema.image b) ""); [contradiction|].
    discriminate.
Qed.

(** The schema of models/Blog.js behind the handlers: when the title or
    the category of the body is only white space, or its image, trimmed,
    is neither empty nor a URL of the pattern, a creation that passes the
    handler's own checks is refused with 400 and a validation error, and
    so is an update by the owner; no blog is stored or changed. *)
Theorem schema_refusals (w : World) :
  keyed_by_id (blogs w) ->
  schema_valid (blogs w) ->
  blank (body (req w) !! "title") \/ blank (body (req w) !! "category")
  \/ bad_image (body (req w) !! "image") ->
  (forall u, creatable w = Some u -> refused_by_schema w (snd (createBlog w)))
  /\ (forall oid blog,
        ObjectId.cast (params_id (req w)) = Some oid ->
        blogs w !! oid = Some blog ->
        OwnershipGuard (user (req w)) (BlogSchema.userId blog) = true ->
        refused_by_schema w (snd (updateBlog w))).
Proof.
  intros Hkey Hvalid Hbad. split.
  - intros u Hcr. rewrite (createBlog_passed w u Hcr).
    assert (Hrefuse : BlogSchema.validate (drafted u w) <> []).
    { apply validate_refuses. unfold drafted. cbn -[Js.trim Js.or_else Js.truthy].
      destruct Hbad as [[Ht Hb] | [[Ht Hb] | (i & Hi & Hne & Hm)]].
      - left. rewrite (or_else_truthy _ _ Ht). exact Hb.
      - right. left. rewrite (or_else_truthy _ _ Ht). exact Hb.
      - right. right. rewrite Hi.
        assert (Js.truthy (Some i) = true) as ->.
        { destruct i; [contradiction Hne; reflexivity | reflexivity]. }
        cbn [from_option id]. auto. }
    destruct (BlogSchema.validate (drafted u w)) as [|p ps]; [contradiction|].
    repeat split. eexists. reflexivity.
  - intros oid blog Hc Hl Hg.
    rewrite (updateBlog_allowed w oid blog Hc Hl (Hkey oid blog Hl) Hg).
    unfold update_outcome.
    set (b1 := BlogSchema.setters (assigned (body (req w)) blog)).
    assert (Hrefuse : BlogSchema.validate b1 <> []).
    { apply validate_refuses. subst b1. unfold assigned. cbn -[Js.trim Js.or_else].
      destruct Hbad as [[Ht Hb] | [[Ht Hb] | (i & Hi & Hne & Hm)]].
      - left. rewrite (or_else_truthy _ _ Ht). exact Hb.
      - right. left. rewrite (or_else_truthy _ _ Ht). exact Hb.
      - right. right. rewrite Hi. split; [exact Hne | exact Hm]. }
    destruct (BlogSchema.validate b1) as [|p ps]; [contradiction|].
    repeat split. eexists. reflexivity.
Qed.

Lemma schema_refusals_witness :
  let id := "cccccccccccccccccccccccc" in
  refused_by_schema (sample (Some alice) id [("title", "   ")])
    (snd (updateBlog (sample (Some alice) id [("title", "   ")])))
  /\ refused_by_schema
       (sample (Some alice) "" [("title", "T"); ("category", "C"); ("content", "B");
                                ("image", "x.png")])
       (snd (createBlog
               (sample (Some alice) "" [("title", "T"); ("category", "C"); ("content", "B");
                                        ("image", "x.png")]))).
Proof.
  intros id. split.
  - destruct (schema_refusals (sample (Some alice) id [("title", "   ")])
                (sample_keyed _ _ _) (sample_valid _ _ _)) as [_ Hupd].
    + left. split; reflexivity.
    + apply (Hupd id post); reflexivity.
  - destruct (schema_refusals
                (sample (Some alice) "" [("title", "T"); ("category", "C"); ("content", "B");
                                         ("image", "x.png")])
                (sample_keyed _ _ _) (sample_valid _ _ _)) as [Hcre _].
    + right. right. exists "x.png". split; [reflexivity|]. split; [discriminate | reflexivity].
    + apply (Hcre alice). reflexivity.
Defined.

(** [doc.save()] validates the stored image too: the owner's update of
    the title alone, or of nothing, is refused with 400 and nothing is
    written; an update that clears the image is written. *)
Example stored_image_is_validated :
  let id := "cccccccccccccccccccccccc" in
  let retitled := unchecked (Some alice) [("title", "New")] in
  let idle := unchecked (Some alice) [] in
  let cleared := unchecked (Some alice) [("image", " ")] in
  update_outcome id unchecked_post retitled
  = rejected 400 (Error.ValidationError "Blog" ["image: Please enter a valid image URL"])
      retitled
  /\ updateBlog retitled = (inr tt, update_outcome id unchecked_post retitled)
  /\ blogs (snd (updateBlog retitled)) = blogs retitled
  /\ statusCode (res (snd (updateBlog idle))) = 400%nat
  /\ blogs (snd (updateBlog idle)) = blogs idle
  /\ statusCode (res (snd (updateBlog cleared))) = 200%nat
  /\ BlogSchema.image <$> blogs (snd (updateBlog cleared)) !! id = Some "".
Proof. vm_compute. repeat split; reflexivity. Qed.

(** ** What the user schema refuses *)

Lemma user_validate_nil `{EmailPattern} (u : UserSchema.doc) :
  User.validate u = [] <->
  UserSchema.name u <> "" /\ UserSchema.email u <> ""
  /\ email_match (UserSchema.email u) = true
  /\ exists p, UserSchema.password u = Some p /\ (6 <= String.length p)%nat.
Proof.
  unfold User.validate, BlogSchema.required.
  destruct (String.eqb_spec (UserSchema.name u) "") as [Hn | Hn].
  { split; [discriminate | intros (? & _); contradiction]. }
  destruct (String.eqb_spec (UserSchema.email u) "") as [He | He].
  { split; [discriminate | intros (_ & ? & _); contradiction]. }
  destruct (email_match (UserSchema.email u)).
  2: { split; [discriminate | intros (_ & _ & ? & _); discriminate]. }
  destruct (UserSchema.password u) as [p|].
  2: { split; [discriminate | intros (_ & _ & _ & p & ? & _); discriminate]. }
  destruct (String.eqb_spec p "") as [Hp | Hp].
  { subst p. split; [discriminate | intros (_ & _ & _ & p & [= <-] & Hlen); cbn in Hlen; lia]. }
  destruct (Nat.ltb_spec (String.length p) 6) as [Hs | Hl].
  { split; [discriminate | intros (_ & _ & _ & p' & [= <-] & Hlen); lia]. }
  split; [|reflexivity]. intros _. repeat split; try assumption. exists p. auto.
Qed.

(** The validators of models/User.js: an account is stored only for a
    name that is not blank, an email that, in lower case, matches the
    pattern, and a password of at least six characters; a registration
    with a blank name, an unmatched email or a shorter password fails
    with a validation error; and a registration that fails, for these or
    any other reason, leaves the users collection as it was. *)
Theorem create_validates `{EmailPattern} `{bcrypt.Api}
    (name email password : string) (w : World) :
  (forall u w', User.create name email password w = (inr u, w') ->
     Js.trim name <> ""
     /\ email_match (Js.toLowerCase email) = true
     /\ (6 <= String.length password)%nat)
  /\ (forall e w', User.create name email password w = (inl e, w') -> users w' = users w)
  /\ ((String.length password < 6)%nat \/ Js.trim name = ""
      \/ email_match (Js.toLowerCase email) = false ->
      exists problems w',
        User.create name email password w = (inl (Error.ValidationError "User" problems), w')).
Proof.
  unfold User.create. run. cbn -[Js.trim Js.toLowerCase].
  destruct (User.validate _) as [|p ps] eqn:Hv.
  - apply user_validate_nil in Hv as (Hn & _ & Hm & pw & [= <-] & Hlen).
    cbn -[Js.trim Js.toLowerCase] in Hn, Hm.
    unfold User.pre_save, bcrypt.genSalt, bcrypt.hash. run. cbn -[Js.trim Js.toLowerCase].
    split; [intros _ _ _; auto|]. split.
    + destruct (bool_decide _); [|intros e w' [= <- <-]; reflexivity].
      destruct (users w !! ObjectId.of_counter (nextId w)); [|discriminate].
      intros e w' [= <- <-]. reflexivity.
    + intros [Hs | [Hb | Hu]]; [lia | contradiction | congruence].
  - split; [discriminate|]. split; [intros e w' [= <- <-]; reflexivity|].
    intros _. do 2 eexists. reflexivity.
Qed.

Lemma create_validates_witness :
  exists problems w',
    @User.create email_double bcrypt_double "Eve" "eve@x.com" "12345" (registered [])
    = (inl (Error.ValidationError "User" problems), w')
    /\ users w' = users (registered []).
Proof.
  destruct (@create_validates email_double bcrypt_double "Eve" "eve@x.com" "12345"
              (registered [])) as (_ & Hframe & Hshort).
  destruct Hshort as (problems & w' & Hrun); [left; cbn; lia|].
  exists problems, w'. split; [exact Hrun|]. apply (Hframe _ _ Hrun).
Defined.

(** ** Without a secret *)

Section no_secret.
Context `{jwt.Codec}.

(** The server fails closed when [JWT_SECRET] is not configured (absent
    or empty): [generateToken] issues no token, no Authorization header
    resolves to an account, and every protected route answers 401 and
    leaves the collections as they are. *)
Theorem no_secret_fails_closed (w : World) :
  Js.truthy (JWT_SECRET (env w)) = false ->
  (forall userId, exists e, generateToken userId w = (inl e, w))
  /\ resolve w = None
  /\ (forall handler,
        statusCode (res (protected handler w)) = 401%nat
        /\ blogs (protected handler w) = blogs w
        /\ users (protected handler w) = users w).
Proof.
  intros Hsecret.
  assert (Hres : resolve w = None).
  { unfold resolve. destruct (bearer w); [|reflexivity].
    unfold jwt.verify. run. rewrite Hsecret.
    destruct (Js.truthy (presented w)); [|reflexivity].
    destruct (jwt.check _ _ _) as [[]|p]; reflexivity. }
  split; [|split; [exact Hres|]].
  - intros userId. unfold generateToken, jwt.sign. run. rewrite Hsecret.
    eexists. reflexivity.
  - intros handler. unfold protected.
    destruct (protect_cases w) as [Hrej _].
    destruct (Hrej Hres) as (e & w' & -> & _ & Hs & _ & Hb & Hu).
    cbn. unfold errorHandler. run. cbn. rewrite Hs. cbn. auto.
Qed.

End no_secret.

Lemma no_secret_fails_closed_witness :
  let w := with_req {| authorization := Some ("Bearer " ++ ann_token); params_id := "";
                       body := ∅; user := None |}
             {| blogs := blogs (sample None "" []); users := users (sample None "" []);
                now := 2000; nextId := 1; entropy := 0;
                env := {| JWT_SECRET := None; NODE_ENV := Some "production" |};
                req := empty_request; res := fresh_response; nextCalled := None;
                console := [] |} in
  statusCode (res (@protected codec_double deleteBlog w)) = 401%nat
  /\ @resolve codec_double w = None.
Proof.
  intros w.
  destruct (@no_secret_fails_closed codec_double w eq_refl) as (_ & Hres & Hroute).
  split; [apply (Hroute deleteBlog) | exact Hres].
Defined.

(** ** Time stamps *)

(** The time stamps stay ordered: when every stored blog has
    [createdAt <= updatedAt <= now], the same holds after [createBlog],
    [updateBlog] and [deleteBlog]. *)
Theorem handlers_keep_timestamps (w : World) :
  keyed_by_id (blogs w) ->
  timestamps_ordered (now w) (blogs w) ->
  timestamps_ordered (now w) (blogs (snd (createBlog w)))
  /\ timestamps_ordered (now w) (blogs (snd (updateBlog w)))
  /\ timestamps_ordered (now w) (blogs (snd (deleteBlog w))).
Proof.
  intros Hkey Hord. split; [|split].
  - destruct (createBlog_cases w) as [[-> _] | (u & _ & _ & _ & -> & _)]; [exact Hord|].
    intros k b [[_ <-] | [_ Hb]]%lookup_insert_Some; [|apply (Hord k b Hb)].
    cbn. lia.
  - destruct (updateBlog_guarded w Hkey) as [_ [-> | (oid & blog & Hl & _ & _ & ->)]];
      [exact Hord|].
    intros k b [[_ <-] | [_ Hb]]%lookup_insert_Some; [|apply (Hord k b Hb)].
    destruct (Hord oid blog Hl) as [Hcu Hun]. cbn. lia.
  - destruct (deleteBlog_guarded w) as [_ [-> | (oid & blog & _ & _ & ->)]]; [exact Hord|].
    intros k b [_ Hb]%lookup_delete_Some. apply (Hord k b Hb).
Qed.

Lemma sample_ordered identity id fields :
  timestamps_ordered (now (sample identity id fields)) (blogs (sample identity id fields)).
Proof.
  intros k b Hl. cbn in Hl. apply lookup_singleton_Some in Hl as [<- <-]. cbn. lia.
Qed.

Lemma handlers_keep_timestamps_witness :
  let w := sample (Some alice) "cccccccccccccccccccccccc" [("title", "New")] in
  timestamps_ordered 2000 (blogs (snd (updateBlog w)))
  /\ BlogSchema.updatedAt <$> blogs (snd (updateBlog w)) !! "cccccccccccccccccccccccc"
     = Some 2000.
Proof.
  intros w.
  destruct (handlers_keep_timestamps w (sample_keyed _ _ _) (sample_ordered _ _ _))
    as (_ & Hupd & _).
  split; [exact Hupd | vm_compute; reflexivity].
Defined.

(** ** The listing follows the collection *)

Lemma selected_stored (q : BlogQuery.conditions) (m : gmap string BlogSchema.doc)
    (b : BlogSchema.doc) :
  b ∈ BlogQuery.selected q m <->
  BlogQuery.matches q b = true /\ exists k, m !! k = Some b.
Proof.
  unfold BlogQuery.selected. rewrite list_elem_of_fmap. split.
  - intros ([k b'] & -> & Hin).
    apply elem_of_map_to_list, map_lookup_filter_Some in Hin as [Hl Hm]. eauto.
  - intros (Hm & k & Hl). exists (k, b). split; [reflexivity|].
    apply elem_of_map_to_list, map_lookup_filter_Some. auto.
Qed.

#[local] Instance more_recent_transitive : Transitive more_recent.
Proof. intros a b c. unfold more_recent. lia. Qed.

(** The first of a list sorted most recent first is at least as recent
    as every element. *)
Lemma sorted_head (x : BlogSchema.doc) (rest : list BlogSchema.doc) (b : BlogSchema.doc) :
  Sorted more_recent (x :: rest) -> b ∈ x :: rest -> more_recent x b.
Proof.
  intros Hsorted Hin. apply Sorted_StronglySorted in Hsorted; [|apply _].
  apply StronglySorted_inv in Hsorted as [_ Hall].
  apply elem_of_cons in Hin as [-> | Hin]; [unfold more_recent; lia|].
  rewrite Forall_forall in Hall. apply Hall, Hin.
Qed.

Section listing_follows.
Context `{Engine}.
Variable elsewhere :
  gmap string string -> gmap string BlogSchema.doc -> Error.t + list BlogSchema.doc.

(** Newest first: a blog that [createBlog] has just stored, at a time
    later than the creation of every other stored blog, is the first of
    page 1 of every listing whose filter it satisfies. *)
Theorem created_blog_is_listed_first (w w2 : World) (b : BlogSchema.doc)
    (query : gmap string string) (pageSize : N) :
  sent (res w) = None ->
  (forall k old, blogs w !! k = Some old -> BlogSchema.createdAt old < now w) ->
  sent (res (snd (createBlog w))) = Some (JBlog b) ->
  blogs w2 = blogs (snd (createBlog w)) ->
  paging query = Some (pageSize, 1%N) ->
  BlogQuery.matches (conditions_of query) b = true ->
  exists body,
    getBlogs elsewhere query w2 = (inr (Some body), w2)
    /\ head (BlogPage.blogs body) = Some b.
Proof.
  intros Hfresh Hold Hsent Hstore Hpaging Hmatch.
  destruct (createBlog_cases w) as [[_ Hsame] | (u & _ & _ & _ & Hblogs & Hres)].
  { rewrite Hsame, Hfresh in Hsent. discriminate. }
  rewrite Hres in Hsent. cbn [sent] in Hsent. injection Hsent as <-.
  rewrite Hblogs in Hstore.
  rewrite (getBlogs_regular elsewhere query w2 pageSize 1 Hpaging).
  eexists. split; [reflexivity|]. cbn [BlogPage.blogs].
  set (b := stamped (now w) (drafted u w)) in *.
  set (all := sort_createdAt_desc (BlogQuery.selected (conditions_of query) (blogs w2))).
  assert (Hin : b ∈ all).
  { unfold all. rewrite sort_permutation. apply selected_stored. split; [exact Hmatch|].
    exists (ObjectId.of_counter (nextId w)). rewrite Hstore. apply lookup_insert_eq. }
  assert (Hsorted : Sorted more_recent all) by apply sort_sorted.
  assert (Hall : forall x, x ∈ all -> x = b \/ BlogSchema.createdAt x < now w).
  { intros x Hx. unfold all in Hx. rewrite sort_permutation in Hx.
    apply selected_stored in Hx as (_ & k & Hk). rewrite Hstore in Hk.
    apply lookup_insert_Some in Hk as [[_ <-] | [_ Hk]]; [left; reflexivity|].
    right. apply (Hold k x Hk). }
  destruct (paging_positive query pageSize 1 Hpaging) as [Hps _].
  destruct all as [|x rest]; [apply elem_of_nil in Hin; contradiction|].
  pose proof (sorted_head x rest b Hsorted Hin) as Hrecent.
  destruct (Hall x ltac:(left)) as [-> | Hlt].
  - replace (N.to_nat (pageSize * (1 - 1))) with 0%nat by lia.
    destruct (N.to_nat pageSize) eqn:Hn; [lia | reflexivity].
  - unfold more_recent in Hrecent. cbn in Hrecent. lia.
Qed.

(** A blog that [deleteBlog] has removed is in no page of any listing,
    and it is not counted. *)
Theorem deleted_blog_is_not_listed (w w2 : World) (oid : string) (b : BlogSchema.doc)
    (query : gmap string string) (pageSize page : N) :
  keyed_by_id (blogs w) ->
  ObjectId.cast (params_id (req w)) = Some oid ->
  blogs w !! oid = Some b ->
  OwnershipGuard (user (req w)) (BlogSchema.userId b) = true ->
  blogs w2 = blogs (snd (deleteBlog w)) ->
  paging query = Some (pageSize, page) ->
  exists body,
    getBlogs elsewhere query w2 = (inr (Some body), w2)
    /\ (b ∉ BlogPage.blogs body)
    /\ BlogPage.count body
       = N.of_nat (length (BlogQuery.selected (conditions_of query) (delete oid (blogs w)))).
Proof.
  intros Hkey Hc Hl Hg Hstore Hpaging.
  rewrite (deleteBlog_allowed w oid b Hc Hl Hg) in Hstore. cbn in Hstore.
  rewrite (getBlogs_regular elsewhere query w2 pageSize page Hpaging).
  eexists. split; [reflexivity|]. cbn [BlogPage.blogs BlogPage.count].
  split; [|rewrite (Permutation_length (sort_permutation _)), Hstore; reflexivity].
  intros Hin. apply subseteq_take, subseteq_drop in Hin.
  rewrite sort_permutation in Hin.
  apply selected_stored in Hin as (_ & k & Hk).
  rewrite Hstore in Hk. apply lookup_delete_Some in Hk as [Hne Hk].
  apply Hne. rewrite <- (Hkey k b Hk). symmetry. apply (Hkey oid b Hl).
Qed.

End listing_follows.

Lemma created_blog_is_listed_first_witness :
  let w := sample (Some alice) "" [("title", "T"); ("category", "C"); ("content", "B")] in
  let w2 := request None "" [] (snd (createBlog w)) in
  exists b body,
    sent (res (snd (createBlog w))) = Some (JBlog b)
    /\ listing ∅ w2 = (inr (Some body), w2)
    /\ head (BlogPage.blogs body) = Some b.
Proof.
  intros w w2.
  assert (Hsent : exists b, sent (res (snd (createBlog w))) = Some (JBlog b)).
  { eexists. vm_compute. reflexivity. }
  destruct Hsent as [b Hb].
  destruct (@created_blog_is_listed_first engine_double elsewhere_double w w2 b ∅ 10)
    as (body & Hrun & Hhead); try reflexivity.
  - intros k old Hk. cbn in Hk. apply lookup_singleton_Some in Hk as [_ <-]. cbn. lia.
  - exact Hb.
  - exists b, body. auto.
Defined.

Lemma deleted_blog_is_not_listed_witness :
  let id := "cccccccccccccccccccccccc" in
  let w2 := request None id [] (snd (deleteBlog (sample (Some alice) id []))) in
  exists body,
    listing ∅ w2 = (inr (Some body), w2)
    /\ (post ∉ BlogPage.blogs body)
    /\ BlogPage.count body = 0%N.
Proof.
  intros id w2.
  destruct (@deleted_blog_is_not_listed engine_double elsewhere_double
              (sample (Some alice) id []) w2 id post ∅ 10 1 (sample_keyed _ _ _))
    as (body & Hrun & Hout & Hcount); try reflexivity.
  exists body. split; [exact Hrun|]. split; [exact Hout|].
  rewrite Hcount. vm_compute. reflexivity.
Defined.

(** ** The owner of a blog created through the router *)

Section created_owner.
Context `{jwt.Codec} `{Engine}.
Variable elsewhere :
  gmap string string -> gmap string BlogSchema.doc -> Error.t + list BlogSchema.doc.

(** End to end, [POST /] behind [protect]: when the route answers with a
    blog, the request's bearer token resolves to an account, the blog's
    [userId] and [authorName] are that account's id and name, whatever
    the body says, the status is 201 and the blog is stored under its
    [_id]. *)
Theorem created_blog_belongs_to_token_account (query : gmap string string) (w w' : World)
    (listed : option BlogPage.t) (b : BlogSchema.doc) :
  sent (res w) = None ->
  blogRoutes elsewhere POST Root query w = Some (w', listed) ->
  sent (res w') = Some (JBlog b) ->
  exists u,
    resolve w = Some u
    /\ BlogSchema.userId b = UserSchema._id u
    /\ BlogSchema.authorName b = UserSchema.name u
    /\ statusCode (res w') = 201%nat
    /\ blogs w' !! BlogSchema._id b = Some b.
Proof.
  intros Hfresh Hroute Hsent. cbn in Hroute. injection Hroute as <- <-.
  destruct (protect_cases w) as [Hrej Hacc].
  destruct (resolve w) as [u|] eqn:Hres.
  2: { exfalso. unfold protected in Hsent.
       destruct (Hrej eq_refl) as (e & w1 & Hrun & _). rewrite Hrun in Hsent.
       cbn in Hsent. discriminate. }
  exists u. split; [reflexivity|].
  unfold protected in Hsent |- *. rewrite (Hacc u eq_refl) in Hsent |- *.
  cbn [nextCalled with_next] in Hsent |- *.
  set (w1 := with_next None (as_user (Some (UserSchema.without_password u)) w)) in *.
  change (with_next None (with_next (Some None)
            (as_user (Some (UserSchema.without_password u)) w))) with w1 in Hsent |- *.
  unfold respond in Hsent |- *.
  destruct (creatable w1) as [u'|] eqn:Hcr.
  - destruct (creatable_user w1 u' Hcr) as [Hu' _].
    assert (Hsame : Some (UserSchema.without_password u) = Some u') by exact Hu'.
    injection Hsame as <-.
    rewrite (createBlog_passed w1 _ Hcr) in Hsent |- *.
    destruct (BlogSchema.validate _) as [|p ps].
    + destruct (blogs w1 !! _) eqn:Hl.
      * cbn in Hsent. discriminate.
      * cbn in Hsent |- *. injection Hsent as <-. cbn.
        rewrite lookup_insert_eq. auto.
    + cbn in Hsent. discriminate.
  - destruct (createBlog_refused w1 Hcr) as (status & e & Hrun).
    rewrite Hrun in Hsent. cbn in Hsent. discriminate.
Qed.

End created_owner.

Lemma created_blog_belongs_to_token_account_witness :
  let w := request (Some ("Bearer " ++ bob_token)) ""
             [("title", "T"); ("category", "C"); ("content", "B");
              ("userId", "aaaaaaaaaaaaaaaaaaaaaaaa"); ("authorName", "Ann")]
             (sample None "" []) in
  exists w' b,
    routes POST Root ∅ w = Some (w', None)
    /\ sent (res w') = Some (JBlog b)
    /\ BlogSchema.userId b = "bbbbbbbbbbbbbbbbbbbbbbbb"
    /\ BlogSchema.authorName b = "Bob".
Proof.
  intros w.
  assert (Hroute : exists w' b,
             routes POST Root ∅ w = Some (w', None) /\ sent (res w') = Some (JBlog b)).
  { vm_compute. do 2 eexists. split; reflexivity. }
  destruct Hroute as (w' & b & Hroute & Hb).
  exists w', b. split; [exact Hroute|]. split; [exact Hb|].
  destruct (@created_blog_belongs_to_token_account codec_double engine_double
              elsewhere_double ∅ w w' None b eq_refl Hroute Hb)
    as (u & Hu & Hid & Hname & _).
  vm_compute in Hu. injection Hu as <-.
  split; [exact Hid | exact Hname].
Defined.

(** ** The order of the checks of the account service *)

(** A registration with the email of a registered account and a password
    of one character fails on the validation, which comes first. *)
Example short_password_comes_first :
  let w := registered [("name", "Eve"); ("email", "A@X.COM"); ("password", "x")] in
  signup w
  = (inr tt,
     rejected 400
       (Error.ValidationError "User"
          ["password: Password must be at least 6 characters long"]) w)
  /\ users (snd (signup w)) = users w.
Proof. vm_compute. split; reflexivity. Qed.

(** An account stored without a password hash cannot log in, and the
    failure is not the one of a wrong password: [bcrypt.compare] rejects
    and the answer is 500. *)
Example login_without_hash :
  let w := sample None "" [("email", "a@x.com"); ("password", "secret1")] in
  User.comparePassword (H := bcrypt_double) alice "secret1" w
  = (inl (Error.new "compare" "Illegal arguments: string, undefined"), w)
  /\ statusCode (res (respond login w)) = 500%nat
  /\ User.findOne_email "a@x.com" (registered [])
     = (inr (Some (UserSchema.without_password ann_account)), registered [])
  /\ User.findOne_email_select_password "a@x.com" (registered [])
     = (inr (Some ann_account), registered []).
Proof. vm_compute. repeat split; reflexivity. Qed.

(** ** The end-to-end scenarios of the spec, run with the stand-ins *)

(** Register Ann (201, token T1); create a post with T1 (owner: Ann);
    update it with Bob's token (403); update it with T1 (200). *)
Example scenario_ownership :
  statusCode (res after_ann) = 201%nat
  /\ statusCode (res after_create) = 201%nat
  /\ (BlogSchema.userId <$> blog_of after_create) = Some "000000000000000000000001"
  /\ statusCode (res (guarded updateBlog
                        (request (Some ("Bearer " ++ token_of after_bob)) created_id
                           [("title", "Taken")] after_create))) = 403%nat
  /\ statusCode (res (guarded updateBlog
                        (request (Some ("Bearer " ++ token_of after_ann)) created_id
                           [("title", "Better")] after_create))) = 200%nat
  /\ statusCode (res (guarded updateBlog
                        (request None created_id [("title", "Anon")] after_create)))
     = 401%nat.
Proof. vm_compute. repeat split; reflexivity. Qed.

(** Login with an unregistered email, then (the email registered) with a
    wrong password: the same 401 response; a second registration of the
    email in another case: 400, and the accounts are as before. *)
Example scenario_login :
  let unknown := respond login
                   (request None "" [("email", "a@x.com"); ("password", "secret1")]
                      (initial None)) in
  let wrong := respond login
                 (request None "" [("email", "A@x.com"); ("password", "guess")] after_ann) in
  let again := respond signup
                 (request None "" [("name", "Ann"); ("email", "A@X.COM");
                                   ("password", "secret9")] after_ann) in
  res unknown = res wrong
  /\ statusCode (res unknown) = 401%nat
  /\ statusCode (res again) = 400%nat
  /\ users again = users after_ann.
Proof. vm_compute. repeat split; reflexivity. Qed.
